(** * Validator node: commit-reveal pipeline and transaction sequencing

    A shallow embedding of [client/node_core.py] (class [ValidatorNode]) and
    the properties of its task pipeline.

    Python values are modelled as follows.
    - [int] is [Z] (unbounded); [bool] is [bool].
    - [bytes] / [HexBytes] is [list byte].
    - [str] is [string], read as the UTF-8 encoding of the text.  Every
      pattern the node searches for is ASCII, so substring search on the
      encoding agrees with substring search on code points; slicing
      ([output[:100]]) counts code points, see [py_take].
    - an exception is the text [str(e)] it carries.
    - [self] is the record [World], passed explicitly, together with the
      ledger state the node talks to and the history of observable events.
    - the collaborators the node calls (ledger RPC, HTTP gateways, the
      sandbox runtime, the random source) are an [Env] of reply functions
      indexed by the number of the call, so that every theorem quantifies
      over every behaviour of the outside world.

    What is left out: the log callback, file writes and [asyncio.sleep] are
    taken to succeed; [os.path.abspath] is the identity on the paths the
    node builds; task cancellation ([CancelledError] is not an [Exception])
    is not modelled; the text of errors raised inside the libraries is
    whatever [fault] says, and a fixed text where a library refuses the
    node's own arguments ([solidity_keccak], the building of a contract
    call).  Loops that may run forever ([while True],
    [while self.running]) are unrolled a given number of times and answer
    [Running] when that is not enough. *)

From Stdlib Require Import List ZArith NArith Lia Bool Arith.
From Stdlib Require Import Strings.String Strings.Ascii Strings.Byte.
From Stdlib Require Import Numbers.DecimalString.
From Stdlib Require Lists.Finite.
Import ListNotations.

Local Open Scope list_scope.

(** ** Keccak-256, the digest behind [Web3.keccak] and [Web3.solidity_keccak]

    The node only calls the library; the permutation is written out here so
    that the sentinel hashes are concrete byte strings. *)
Module Keccak.

Local Open Scope N_scope.

Definition lane_mask : N := 0xFFFFFFFFFFFFFFFF.

Definition rotl (x n : N) : N :=
  N.land (N.lor (N.shiftl x n) (N.shiftr x (64 - n))) lane_mask.

Definition lnot64 (x : N) : N := N.lxor x lane_mask.

(** Lane [(x, y)] of a state stored as 25 lanes, index [x + 5 y]. *)
Definition lane (st : list N) (x y : nat) : N :=
  nth ((x mod 5) + 5 * (y mod 5))%nat st 0.

Definition coords : list (nat * nat) :=
  flat_map (fun y => map (fun x => (x, y)) (seq 0 5)) (seq 0 5).

Definition rotation_offsets : list N :=
  [ 0;  1; 62; 28; 27;
   36; 44;  6; 55; 20;
    3; 10; 43; 25; 39;
   41; 45; 15; 21;  8;
   18;  2; 61; 56; 14].

Definition round_constants : list N :=
  [0x0000000000000001; 0x0000000000008082; 0x800000000000808A;
   0x8000000080008000; 0x000000000000808B; 0x0000000080000001;
   0x8000000080008081; 0x8000000000008009; 0x000000000000008A;
   0x0000000000000088; 0x0000000080008009; 0x000000008000000A;
   0x000000008000808B; 0x800000000000008B; 0x8000000000008089;
   0x8000000000008003; 0x8000000000008002; 0x8000000000000080;
   0x000000000000800A; 0x800000008000000A; 0x8000000080008081;
   0x8000000000008080; 0x0000000080000001; 0x8000000080008008].

Definition theta (st : list N) : list N :=
  let C x := fold_left N.lxor (map (fun y => lane st x y) (seq 0 5)) 0 in
  let D x := N.lxor (C (x + 4)%nat) (rotl (C (x + 1)%nat) 1) in
  map (fun '(x, y) => N.lxor (lane st x y) (D x)) coords.

(** rho and pi: output lane [(X, Y)] takes input lane [(x, y)] with
    [X = y] and [Y = 2x + 3y], i.e. [x = X + 3 Y], [y = X]. *)
Definition rho_pi (st : list N) : list N :=
  map (fun '(X, Y) =>
         let x := ((X + 3 * Y) mod 5)%nat in
         let y := X in
         rotl (lane st x y) (nth (x + 5 * y)%nat rotation_offsets 0))
      coords.

Definition chi (st : list N) : list N :=
  map (fun '(x, y) =>
         N.lxor (lane st x y)
                (N.land (lnot64 (lane st (x + 1) y)) (lane st (x + 2) y)))
      coords.

Definition iota (rc : N) (st : list N) : list N :=
  match st with
  | [] => []
  | l0 :: rest => N.lxor l0 rc :: rest
  end.

Definition round (st : list N) (rc : N) : list N :=
  iota rc (chi (rho_pi (theta st))).

Definition keccak_f (st : list N) : list N :=
  fold_left round round_constants st.

(** Little-endian lanes. *)
Fixpoint lane_of_bytes (bs : list N) : N :=
  match bs with
  | [] => 0
  | b :: bs' => b + 256 * lane_of_bytes bs'
  end.

Fixpoint bytes_of_lane (n : nat) (l : N) : list N :=
  match n with
  | O => []
  | S n' => (l mod 256) :: bytes_of_lane n' (l / 256)
  end.

Fixpoint chunks (fuel : nat) (k : nat) (bs : list N) : list (list N) :=
  match fuel with
  | O => []
  | S fuel' =>
      match bs with
      | [] => []
      | _ => firstn k bs :: chunks fuel' k (skipn k bs)
      end
  end.

Definition rate : nat := 136.

(** Keccak padding (domain byte [0x01], final bit [0x80]). *)
Definition pad (msg : list N) : list N :=
  let q := (rate - (List.length msg mod rate))%nat in
  match q with
  | 1%nat => msg ++ [0x81]
  | _ => msg ++ [0x01] ++ repeat 0 (q - 2) ++ [0x80]
  end.

Fixpoint xor_lanes (st blk : list N) : list N :=
  match st, blk with
  | s :: st', b :: blk' => N.lxor s b :: xor_lanes st' blk'
  | _, [] => st
  | [], _ => []
  end.

Definition absorb (st : list N) (block : list N) : list N :=
  keccak_f (xor_lanes st (map lane_of_bytes (chunks 17 8 block))).

Definition squeeze (st : list N) : list N :=
  flat_map (fun i => bytes_of_lane 8 (nth i st 0)) (seq 0 4).

Definition keccak256_N (msg : list N) : list N :=
  let p := pad msg in
  squeeze (fold_left absorb (chunks (S (List.length p)) rate p) (repeat 0 25%nat)).

Definition byte_of_N (n : N) : byte :=
  match Byte.of_N n with Some b => b | None => x00 end.

Definition keccak256 (msg : list byte) : list byte :=
  map byte_of_N (keccak256_N (map Byte.to_N msg)).

End Keccak.

Definition hexdigit (n : N) : ascii :=
  ascii_of_N (if (n <? 10)%N then 48 + n else 87 + n)%N.

Fixpoint hex (bs : list byte) : string :=
  match bs with
  | [] => EmptyString
  | b :: bs' =>
      let n := Byte.to_N b in
      String (hexdigit (n / 16)) (String (hexdigit (n mod 16)) (hex bs'))
  end.

Definition bytes_of_string (s : string) : list byte := list_byte_of_string s.


(** ** Python strings *)

Local Open Scope string_scope.

(** [str(n)] for an [int]. *)
Definition str_of_Z (z : Z) : string := NilZero.string_of_int (Z.to_int z).

(** [pat in s]. *)
Fixpoint contains (pat s : string) : bool :=
  if String.prefix pat s then true
  else match s with
       | EmptyString => false
       | String _ s' => contains pat s'
       end.

(** [s.startswith(pre)]. *)
Definition startswith (pre s : string) : bool := String.prefix pre s.

Fixpoint drop (n : nat) (s : string) : string :=
  match n, s with
  | O, _ => s
  | S n', String _ s' => drop n' s'
  | S _, EmptyString => EmptyString
  end.

Definition is_continuation (c : ascii) : bool :=
  let n := N_of_ascii c in ((128 <=? n) && (n <? 192))%N.

(** [s[:n]]: the first [n] code points of a UTF-8 encoded text. *)
Fixpoint py_take (n : nat) (s : string) : string :=
  match s with
  | EmptyString => EmptyString
  | String c s' =>
      if is_continuation c then String c (py_take n s')
      else match n with
           | O => EmptyString
           | S n' => String c (py_take n' s')
           end
  end.

(** The character class [[a-f0-9A-Z_]] of the result-token pattern. *)
Definition in_hash_class (c : ascii) : bool :=
  let n := N_of_ascii c in
  (((97 <=? n) && (n <=? 102)) || ((48 <=? n) && (n <=? 57))
   || ((65 <=? n) && (n <=? 90)) || (n =? 95))%N.

(** The longest prefix made of class characters (a greedy [+] or [*]). *)
Fixpoint take_class (s : string) : string :=
  match s with
  | EmptyString => EmptyString
  | String c s' => if in_hash_class c then String c (take_class s') else EmptyString
  end.

Definition hash_label : string := "Deterministic Hash: ".

(** A match of [Deterministic Hash: ([a-f0-9A-Z_]+)] anchored at the start
    of [s]; the value is group 1. *)
Definition match_here (s : string) : option string :=
  if String.prefix hash_label s then
    match take_class (drop (String.length hash_label) s) with
    | EmptyString => None
    | tok => Some tok
    end
  else None.

(** [re.search(r"Deterministic Hash: ([a-f0-9A-Z_]+)", s)]: the leftmost
    match, [None] when there is none. *)
Fixpoint re_search (s : string) : option string :=
  match match_here s with
  | Some tok => Some tok
  | None => match s with
            | EmptyString => None
            | String _ s' => re_search s'
            end
  end.

(** ** Hash values handled by the node *)

(** [_run_docker] returns either [HexBytes] (from [Web3.keccak]) or a [str]
    (the ["0x"]-prefixed token). *)
Inductive PyHash : Type :=
| HexBytes (b : list byte)
| PyStr (s : string).

(** [Web3.keccak(text=s)]. *)
Definition Web3_keccak_text (s : string) : list byte :=
  Keccak.keccak256 (bytes_of_string s).

Definition hexval (c : ascii) : option N :=
  let n := N_of_ascii c in
  if ((48 <=? n) && (n <=? 57))%N then Some (n - 48)%N
  else if ((97 <=? n) && (n <=? 102))%N then Some (n - 87)%N
  else if ((65 <=? n) && (n <=? 70))%N then Some (n - 55)%N
  else None.

(** Decoding of a hexadecimal text of even length. *)
Fixpoint unhexlify (s : string) : option (list byte) :=
  match s with
  | EmptyString => Some []
  | String _ EmptyString => None
  | String a (String b s') =>
      match hexval a, hexval b, unhexlify s' with
      | Some h, Some l, Some rest => Some (Keccak.byte_of_N (16 * h + l) :: rest)
      | _, _, _ => None
      end
  end.

(** [eth_utils.is_0x_prefixed]: the prefix in either case. *)
Definition is_0x_prefixed (s : string) : bool :=
  String.prefix "0x" s || String.prefix "0X" s.

Definition remove_0x_prefix (s : string) : string :=
  if is_0x_prefixed s then drop 2 s else s.

Definition add_0x_prefix (s : string) : string :=
  if is_0x_prefixed s then s else "0x" ++ s.

(** [eth_utils.decode_hex]: one prefix is taken off, the rest must be
    hexadecimal digits, an even number of them. *)
Definition decode_hex (s : string) : option (list byte) :=
  unhexlify (remove_0x_prefix s).

(** The bytes a [bytes32] argument stands for: bytes as they are, a text as
    the hexadecimal literal it spells. *)
Definition bytes_of_hash (h : PyHash) : option (list byte) :=
  match h with
  | HexBytes b => Some b
  | PyStr s => decode_hex s
  end.

(** [hex_encode_abi_type('bytes32', value)]: bytes are written in
    hexadecimal behind ["0x"]; a text is passed on as it is, and is refused
    unless it carries the prefix. *)
Definition hex_encode_bytes32 (value : PyHash) : option string :=
  match value with
  | HexBytes b => Some ("0x" ++ hex b)
  | PyStr s => if is_0x_prefixed s then Some s else None
  end.

(** [to_bytes(hexstr=s)]: an odd number of characters is made even with a
    leading zero digit, then [decode_hex]. *)
Definition to_bytes_hexstr (hexstr : string) : option (list byte) :=
  decode_hex (if Nat.odd (String.length hexstr)
              then "0x0" ++ remove_0x_prefix hexstr
              else hexstr).

(** [Web3.solidity_keccak(['bytes32', 'bytes32'], [result_hash, salt])], as
    the library computes it: each argument is encoded and its prefix taken
    off, the two are joined and given a prefix (unless the joined text
    happens to start with one), and the digest is taken of the bytes that
    [to_bytes(hexstr=...)] reads from it.  [None] when the library raises:
    a text argument without prefix, or a character that is not a
    hexadecimal digit. *)
Definition solidity_keccak (result_hash : PyHash) (salt : list byte)
  : option (list byte) :=
  match hex_encode_bytes32 result_hash, hex_encode_bytes32 (HexBytes salt) with
  | Some a, Some b =>
      let hex_string := add_0x_prefix (remove_0x_prefix a ++ remove_0x_prefix b) in
      match to_bytes_hexstr hex_string with
      | Some input_bytes => Some (Keccak.keccak256 input_bytes)
      | None => None
      end
  | _, _ => None
  end.

(** ** Result classifier: lines 287-309 of [_run_docker] *)

Inductive Level : Type := INFO | WARN | ERROR.

Definition cheat_label : string := "ERROR_AXIOM_CHECK_FAILED".
Definition compilation_label : string := "COMPILATION_FAILED".

(** The classification of the verifier output: the log entry the branch
    emits (if any) and the hash that [_run_docker] returns. *)
Definition classify (output : string) : option (string * Level) * PyHash :=
  if contains "Status: FAILURE" output then
    if contains "CHEAT DETECTED" output || contains "ERROR_AXIOM_CHECK_FAILED" output
    then (Some ("⚠️ Cheat Detected by Docker!", WARN),
          HexBytes (Web3_keccak_text cheat_label))
    else (Some ("⚠️ Compilation or Runtime Failed!", WARN),
          HexBytes (Web3_keccak_text compilation_label))
  else
    match re_search output with
    | Some hash_str =>
        if negb (startswith "0x" hash_str) && negb (String.length hash_str =? 64)%nat
        then (None, HexBytes (Web3_keccak_text hash_str))
        else (None, PyStr ("0x" ++ hash_str))
    | None =>
        (Some ("Docker output parsing failed: " ++ py_take 100 output, ERROR),
         HexBytes (Web3_keccak_text compilation_label))
    end.

(** ** The node, its ledger and its collaborators *)

(** Contract calls the node builds ([self.token.functions.*] and
    [self.main_contract.functions.*]). *)
Inductive FunctionCall : Type :=
| faucet
| approve (spender : string) (amount : Z)
| registerValidator (stake : Z)
| increaseStake (amount : Z)
| decreaseStake (amount : Z)
| exitNetwork
| commitResult (task_id : Z) (commitment : list byte)
| revealResult (task_id : Z) (result : PyHash) (salt : list byte)
| finalizeTask (task_id : Z).

(** What the contract-function objects accept.  The library checks the
    arguments against the ABI when the call object is built
    ([main_contract.functions.commitResult(...)]) and raises when they do
    not fit: a [uint256] is an integer from 0 to 2^256 - 1; a [bytes32] is
    32 bytes, or a text with the ["0x"] prefix that spells 32 bytes. *)
Definition is_uint256 (n : Z) : bool := ((0 <=? n) && (n <? 2 ^ 256))%Z.

Definition is_bytes32 (value : PyHash) : bool :=
  match value with
  | HexBytes b => (List.length b =? 32)%nat
  | PyStr s =>
      match decode_hex s with
      | Some b => String.prefix "0x" s && (List.length b =? 32)%nat
      | None => false
      end
  end.

Definition fits_abi (func_call : FunctionCall) : bool :=
  match func_call with
  | faucet | exitNetwork => true
  | approve _ amount | registerValidator amount
  | increaseStake amount | decreaseStake amount => is_uint256 amount
  | finalizeTask task_id => is_uint256 task_id
  | commitResult task_id commitment =>
      is_uint256 task_id && is_bytes32 (HexBytes commitment)
  | revealResult task_id result salt =>
      is_uint256 task_id && is_bytes32 result && is_bytes32 (HexBytes salt)
  end.

(** The dictionary handed to [build_transaction], with the call it wraps. *)
Record Tx : Type := mkTx {
  tx_call : FunctionCall;
  tx_from : string;
  tx_nonce : Z;
  tx_gasPrice : Z;
  tx_gas : Z
}.

Record Receipt : Type := mkReceipt {
  status : Z;
  transactionHash : list byte
}.

Record HttpResponse : Type := mkHttpResponse {
  status_code : Z;
  content : string
}.

(** [event['args']] of a [TaskCreated] event. *)
Record TaskCreated : Type := mkTaskCreated {
  taskId : Z;
  ipfsCID : string;
  reward : Z
}.

(** Coroutines handed to [asyncio.create_task]. *)
Inductive Spawned : Type :=
| spawn_process_task (task_id : Z) (cid : string)
| spawn_auto_finalize (task_id : Z).

(** What an observer of the node sees, in the order it happens. *)
Inductive Event : Type :=
| EvLog (msg : string) (lvl : Level)
| EvBroadcast (tx : Tx)
| EvReceipt (tx_hash : list byte) (st : Z)
| EvSleep (seconds : Z)
| EvHttpGet (url : string)
| EvWriteFile (path : string) (data : string)
| EvSubprocess (cmd : list string)
| EvBlock (timestamp : Z)
| EvSpawn (c : Spawned).

(** Configuration read in [__init__] and the replies of the outside world.
    A reply function takes the number of the call being answered, so two
    calls of the same operation may be answered differently. *)
Record Env : Type := mkEnv {
  address : string;
  contract_addr : string;
  docker_image : string;
  pinata_gateway : option string;
  cwd : string;
  (** the call with this number raises, with this text *)
  fault : nat -> option string;
  gas_price : nat -> Z;
  tx_hash_of : Tx -> list byte;
  receipt_status : nat -> list byte -> Z;
  validators : nat -> Z * Z * bool * bool;
  balanceOf : nat -> Z;
  tasks_deadline : nat -> Z -> Z;
  block_timestamp : nat -> Z;
  get_new_entries : nat -> list TaskCreated;
  http_get : nat -> string -> HttpResponse;
  communicate : nat -> string * string;
  urandom : nat -> list byte;
  (** [str(w3.from_wei(n, 'ether'))] *)
  from_wei_ether : Z -> string
}.

(** The node object and the world it runs in.  [pending] is the ledger's
    count of transactions of the account including those still in the pool,
    the value [get_transaction_count(address, 'pending')] reports.  [history]
    holds the events, newest first. *)
Record World : Type := mkWorld {
  calls : nat;
  pending : Z;
  history : list Event;
  running : bool;
  greedy_mode : bool
}.

(** Events in the order they happened. *)
Definition timeline (w : World) : list Event := rev (history w).

(** Outcome of running a piece of the node: a value, an exception, or
    [Running] when the model stopped unrolling a loop that is still going. *)
Inductive Result (A : Type) : Type :=
| Ok (a : A)
| Raise (msg : string)
| Running.

Arguments Ok {A} a.
Arguments Raise {A} msg.
Arguments Running {A}.

Definition M (A : Type) : Type := World -> Result A * World.

Definition ret {A} (a : A) : M A := fun w => (Ok a, w).

Definition raise {A} (msg : string) : M A := fun w => (Raise msg, w).

Definition bind {A B} (m : M A) (k : A -> M B) : M B :=
  fun w =>
    match m w with
    | (Ok a, w') => k a w'
    | (Raise msg, w') => (Raise msg, w')
    | (Running, w') => (Running, w')
    end.

(** [try: body except Exception as e: handler(str(e))]. *)
Definition try_except {A} (body : M A) (handler : string -> M A) : M A :=
  fun w =>
    match body w with
    | (Raise msg, w') => handler msg w'
    | r => r
    end.

Declare Scope node_scope.
Delimit Scope node_scope with node.
Notation "x <- m ;; k" := (bind m (fun x => k))
  (at level 61, m at next level, right associativity) : node_scope.
Notation "m ;; k" := (bind m (fun _ => k))
  (at level 61, right associativity) : node_scope.
Local Open Scope node_scope.

Definition emit (e : Event) : M unit :=
  fun w => (Ok tt, mkWorld (calls w) (pending w) (e :: history w)
                          (running w) (greedy_mode w)).

(** [self.log(msg, level)]. *)
Definition log (msg : string) (lvl : Level) : M unit := emit (EvLog msg lvl).

(** [await asyncio.sleep(seconds)]. *)
Definition sleep (seconds : Z) : M unit := emit (EvSleep seconds).

Definition set_running (b : bool) : M unit :=
  fun w => (Ok tt, mkWorld (calls w) (pending w) (history w) b (greedy_mode w)).

Definition set_pending (n : Z) : M unit :=
  fun w => (Ok tt, mkWorld (calls w) n (history w) (running w) (greedy_mode w)).

Definition get_world : M World := fun w => (Ok w, w).

(** The text of the library's error for arguments that do not fit the ABI.
    The real message names the function and the argument types and differs
    between releases of the library; only its being raised is modelled. *)
Definition abi_mismatch : string := "Could not identify the intended function".

(** Building a contract call from arguments that are not known to fit:
    [main_contract.functions.<name>(<arguments>)]. *)
Definition contract_function (func_call : FunctionCall) : M FunctionCall :=
  if fits_abi func_call then ret func_call else raise abi_mismatch.

Section Node.

Variable env : Env.

(** One call to a collaborator: it takes the next call number and either
    raises or answers with [reply]. *)
Definition ext {A} (reply : nat -> World -> A) : M A :=
  fun w =>
    let k := calls w in
    let w' := mkWorld (S k) (pending w) (history w) (running w) (greedy_mode w) in
    match fault env k with
    | Some msg => (Raise msg, w')
    | None => (Ok (reply k w), w')
    end.

(** *** Transaction sequencer: [_send_tx], lines 311-318

    The coroutine suspends at each [await]; [SendTx] names the points where
    it can be resumed and [send_tx_step] runs it up to the next one. *)
Inductive SendTx : Type :=
| at_nonce (func_call : FunctionCall)
| at_build (func_call : FunctionCall) (nonce : Z)
| at_send (tx : Tx)
| at_receipt (tx_hash : list byte)
| finished (r : Result Receipt).

(** [w3.eth.get_transaction_count(address, 'pending')]. *)
Definition get_transaction_count : M Z := ext (fun _ w => pending w).

(** [func_call.build_transaction({'from': ..., 'nonce': nonce,
    'gasPrice': w3.eth.gas_price, 'gas': 2000000})]. *)
Definition build_transaction (func_call : FunctionCall) (nonce : Z) : M Tx :=
  price <- ext (fun k _ => gas_price env k) ;;
  ext (fun _ _ => mkTx func_call (address env) nonce price 2000000).

(** [send_raw_transaction] of the signed transaction: the node hands the
    transaction over; the ledger takes it when its nonce is the account's
    pending count, and then counts it. *)
Definition send_raw_transaction (tx : Tx) : M (list byte) :=
  emit (EvBroadcast tx) ;;
  accepted <- ext (fun _ w => (tx_nonce tx =? pending w)%Z) ;;
  if accepted : bool then
    w <- get_world ;;
    set_pending (pending w + 1) ;;
    ret (tx_hash_of env tx)
  else raise "nonce too low".

Definition wait_for_transaction_receipt (tx_hash : list byte) : M Receipt :=
  receipt <- ext (fun k _ => mkReceipt (receipt_status env k tx_hash) tx_hash) ;;
  emit (EvReceipt tx_hash (status receipt)) ;;
  ret receipt.

(** Lines 316-317: wait for the receipt and raise unless its status is 1. *)
Definition settle (tx_hash : list byte) : M Receipt :=
  receipt <- wait_for_transaction_receipt tx_hash ;;
  if negb (status receipt =? 1)%Z
  then raise ("Transaction failed: " ++ hex tx_hash)
  else ret receipt.

Definition stage {A} (m : M A) (next : A -> SendTx) : World -> SendTx * World :=
  fun w =>
    match m w with
    | (Ok a, w') => (next a, w')
    | (Raise msg, w') => (finished (Raise msg), w')
    | (Running, w') => (finished Running, w')
    end.

Definition send_tx_step (c : SendTx) : World -> SendTx * World :=
  match c with
  | at_nonce func_call => stage get_transaction_count (at_build func_call)
  | at_build func_call nonce => stage (build_transaction func_call nonce) at_send
  | at_send tx => stage (send_raw_transaction tx) at_receipt
  | at_receipt tx_hash => stage (settle tx_hash) (fun r => finished (Ok r))
  | finished r => fun w => (finished r, w)
  end.

Fixpoint send_tx_run (n : nat) (c : SendTx) (w : World) : SendTx * World :=
  match n with
  | O => (c, w)
  | S n' => let (c', w') := send_tx_step c w in send_tx_run n' c' w'
  end.

(** [await self._send_tx(func_call)] with nothing else scheduled in
    between: the four stages in a row. *)
Definition _send_tx (func_call : FunctionCall) : M Receipt :=
  fun w =>
    match send_tx_run 4 (at_nonce func_call) w with
    | (finished r, w') => (r, w')
    | (_, w') => (Running, w')
    end.

(** Several [_send_tx] coroutines in flight on one event loop: [sched]
    names, step by step, the coroutine that is resumed next. *)
Fixpoint step_nth (i : nat) (pool : list SendTx) (w : World)
  : list SendTx * World :=
  match pool with
  | [] => ([], w)
  | c :: rest =>
      match i with
      | O => let (c', w') := send_tx_step c w in (c' :: rest, w')
      | S i' => let (rest', w') := step_nth i' rest w in (c :: rest', w')
      end
  end.

Fixpoint run_schedule (sched : list nat) (pool : list SendTx) (w : World)
  : list SendTx * World :=
  match sched with
  | [] => (pool, w)
  | i :: sched' => let (pool', w') := step_nth i pool w in
                   run_schedule sched' pool' w'
  end.

Definition submit (func_calls : list FunctionCall) : list SendTx :=
  map at_nonce func_calls.

(** *** Artifact fetcher: [_download_ipfs], lines 232-265 *)

Definition dummy_code : string :=
  "import Mathlib" ++ String (ascii_of_nat 10) "theorem test : 1 + 1 = 2 := by norm_num".

Definition fallback_gateways (cid : string) : list string :=
  [ "https://cloudflare-ipfs.com/ipfs/" ++ cid;
    "https://ipfs.io/ipfs/" ++ cid;
    "https://gateway.pinata.cloud/ipfs/" ++ cid ].

(** Lines 243-250.  An unset or empty [PINATA_GATEWAY] adds nothing. *)
Definition gateways (cid : string) : list string :=
  (match pinata_gateway env with
   | Some g => if (String.length g =? 0)%nat then []
               else ["https://" ++ g ++ "/ipfs/" ++ cid]
   | None => []
   end) ++ fallback_gateways cid.

(** [await client.get(url, timeout=15.0)]. *)
Definition client_get (url : string) : M HttpResponse :=
  emit (EvHttpGet url) ;;
  ext (fun k _ => http_get env k url).

Definition write_file (path data : string) : M unit :=
  emit (EvWriteFile path data).

(** The [for url in gateways] loop; [None] when it runs off the end. *)
Fixpoint try_gateways (path_obj : string) (urls : list string)
  : M (option string) :=
  match urls with
  | [] => ret None
  | url :: rest =>
      log ("Downloading from " ++ url ++ "...") INFO ;;
      r <- try_except
             (resp <- client_get url ;;
              if (status_code resp =? 200)%Z then
                write_file path_obj (content resp) ;;
                log "Download success." INFO ;;
                ret (Some path_obj)
              else ret None)
             (fun _ => ret None) ;;
      match r with
      | Some p => ret (Some p)
      | None => try_gateways path_obj rest
      end
  end.

Definition _download_ipfs (task_id : Z) (cid : string) : M string :=
  let filename := "Task_" ++ str_of_Z task_id ++ ".lean" in
  let path_obj := cwd env ++ "/" ++ filename in
  if startswith "QmSimulated" cid then
    log ("Simulating download for " ++ cid) WARN ;;
    write_file path_obj dummy_code ;;
    ret path_obj
  else
    r <- try_gateways path_obj (gateways cid) ;;
    match r with
    | Some p => ret p
    | None => raise "All IPFS gateways failed"
    end.

(** *** Sandboxed verifier: [_run_docker], lines 267-309

    [create_subprocess_exec] and [communicate] are one call each; the
    reply of the second is the pair of captured streams, already decoded
    (a decoding error is a fault of that call). *)
Definition docker_cmd (abs_path : string) : list string :=
  [ "docker"; "run"; "--rm"; "--network"; "none";
    "--cpus"; "2"; "--memory"; "8g";
    "-v"; abs_path ++ ":/data/Task.lean";
    docker_image env ].

Definition _run_docker (file_path : string) : M PyHash :=
  log "Starting Docker verification..." INFO ;;
  let abs_path := file_path in
  emit (EvSubprocess (docker_cmd abs_path)) ;;
  ext (fun _ _ => tt) ;;
  streams <- ext (fun k _ => communicate env k) ;;
  let output := fst streams in
  let (entry, result_hash) := classify output in
  match entry with
  | Some (msg, lvl) => log msg lvl
  | None => ret tt
  end ;;
  ret result_hash.

(** *** Finalize watcher: [_auto_finalize], lines 200-230 *)

(** The [while True] loop of lines 205-216, unrolled at most [fuel] times. *)
Fixpoint finalize_wait (fuel : nat) (task_id deadline : Z) : M unit :=
  match fuel with
  | O => fun w => (Running, w)
  | S fuel' =>
      now <- ext (fun k _ => block_timestamp env k) ;;
      emit (EvBlock now) ;;
      let target_time := (deadline + 120)%Z in
      let wait_seconds := (target_time - now)%Z in
      if (wait_seconds >? 0)%Z then
        (if (wait_seconds mod 30 =? 0)%Z
         then log ("Task " ++ str_of_Z task_id ++ ": Waiting "
                   ++ str_of_Z wait_seconds ++ "s for finalize window...") INFO
         else ret tt) ;;
        sleep 5 ;;
        finalize_wait fuel' task_id deadline
      else ret tt
  end.

(** The [try] suite, lines 202-224. *)
Definition auto_finalize_try (fuel : nat) (task_id : Z) : M unit :=
  deadline <- ext (fun k _ => tasks_deadline env k task_id) ;;
  finalize_wait fuel task_id deadline ;;
  log ("⚡ Time reached! Finalizing Task " ++ str_of_Z task_id ++ "...") WARN ;;
  receipt <- _send_tx (finalizeTask task_id) ;;
  if (status receipt =? 1)%Z
  then log ("✅✅✅ SUCCESS: Task " ++ str_of_Z task_id
            ++ " Finalized! Rewards Claimed.") INFO
  else log "❌ Finalize failed (Reverted)" ERROR.

Definition _auto_finalize (fuel : nat) (task_id : Z) : M unit :=
  try_except
    (auto_finalize_try fuel task_id)
    (fun e =>
       if contains "already finalized" e
       then log ("Task " ++ str_of_Z task_id ++ " already finalized.") INFO
       else log ("Auto-finalize error: " ++ e) ERROR).

(** *** Task lifecycle: [_process_task], lines 173-198

    The task id and the classified result reach the two contract calls as
    they came in, so the calls are built with [contract_function].  (At
    the other call sites the arguments fit by construction: constants,
    amounts that [to_wei] has range-checked, and in [_auto_finalize] the id
    of a task whose commit and reveal were accepted.) *)

Definition _process_task (task_id : Z) (cid : string) : M unit :=
  try_except
    (file_path <- _download_ipfs task_id cid ;;
     result_hash <- _run_docker file_path ;;
     salt <- ext (fun k _ => urandom env k) ;;
     commitment <- match solidity_keccak result_hash salt with
                   | Some c => ret c
                   | None => raise "Non-hexadecimal digit found"
                   end ;;
     log ("Committing task " ++ str_of_Z task_id ++ "...") INFO ;;
     commit <- contract_function (commitResult task_id commitment) ;;
     _send_tx commit ;;
     log ("Waiting to reveal task " ++ str_of_Z task_id ++ "...") INFO ;;
     sleep 5 ;;
     log ("Revealing task " ++ str_of_Z task_id ++ "...") INFO ;;
     reveal <- contract_function (revealResult task_id result_hash salt) ;;
     _send_tx reveal ;;
     log ("Task " ++ str_of_Z task_id ++ " Revealed!") INFO ;;
     w <- get_world ;;
     if greedy_mode w then
       log ("Greedy Mode: Scheduling finalize for Task "
            ++ str_of_Z task_id ++ "...") INFO ;;
       emit (EvSpawn (spawn_auto_finalize task_id))
     else
       log ("Passive Mode: Task " ++ str_of_Z task_id ++ " complete.") INFO)
    (fun e => log ("Task " ++ str_of_Z task_id ++ " failed: " ++ e) ERROR).

(** *** Start-up: [_ensure_registration], [_event_loop], [start] *)

Definition _ensure_registration : M unit :=
  validator_info <- ext (fun k _ => validators env k) ;;
  let is_active := snd (fst validator_info) in
  if is_active : bool then
    log "Validator already registered." INFO
  else
    log "Validator not registered. initializing..." WARN ;;
    let stake_amount := (100 * 10 ^ 18)%Z in
    balance <- ext (fun k _ => balanceOf env k) ;;
    (if (balance <? stake_amount)%Z then
       log "Insufficient balance. Requesting faucet..." WARN ;;
       _send_tx faucet ;;
       log "Faucet claimed." INFO
     else ret tt) ;;
    log "Approving token..." INFO ;;
    try_except
      (_send_tx (approve (contract_addr env) stake_amount) ;; ret tt)
      (fun _ => ret tt) ;;
    log "Registering validator..." INFO ;;
    _send_tx (registerValidator stake_amount) ;;
    log "Registration successful!" INFO.

(** The body of [for event in new_entries]. *)
Fixpoint dispatch (new_entries : list TaskCreated) : M unit :=
  match new_entries with
  | [] => ret tt
  | event :: rest =>
      let task_id := taskId event in
      let ipfs_cid := ipfsCID event in
      log ("[NEW TASK] ID: " ++ str_of_Z task_id ++ " | Reward: "
           ++ from_wei_ether env (reward event) ++ " APDX") INFO ;;
      emit (EvSpawn (spawn_process_task task_id ipfs_cid)) ;;
      dispatch rest
  end.

(** [while self.running], unrolled at most [fuel] times. *)
Fixpoint poll (fuel : nat) : M unit :=
  fun w =>
    if running w then
      match fuel with
      | O => (Running, w)
      | S fuel' =>
          (try_except
             (new_entries <- ext (fun k _ => get_new_entries env k) ;;
              dispatch new_entries ;;
              sleep 2)
             (fun e => log ("Loop error: " ++ e) ERROR ;; sleep 5) ;;
           poll fuel') w
      end
    else (Ok tt, w).

Definition _event_loop (fuel : nat) : M unit :=
  ext (fun _ _ => tt) ;;
  poll fuel.

(** Lines 55-57, before the [try]. *)
Definition start_prologue : M unit :=
  set_running true ;;
  w <- get_world ;;
  let mode_str := if greedy_mode w then "🔥 GREEDY" else "💤 PASSIVE" in
  log ("Node engine starting (" ++ mode_str ++ ")...") INFO.

(** The [try] suite, lines 60-62. *)
Definition start_try (fuel : nat) : M unit :=
  _ensure_registration ;;
  log "Entering event loop..." INFO ;;
  _event_loop fuel.

Definition start (fuel : nat) : M unit :=
  start_prologue ;;
  try_except
    (start_try fuel)
    (fun e =>
       log ("Fatal Error: " ++ e) ERROR ;;
       set_running false).

End Node.

(** ** Observations on histories *)

Definition is_broadcast (e : Event) : bool :=
  match e with EvBroadcast _ => true | _ => false end.



Definition is_error_log (e : Event) : bool :=
  match e with EvLog _ ERROR => true | _ => false end.

Definition is_block (e : Event) : bool :=
  match e with EvBlock _ => true | _ => false end.

(** Whether the candidate tried with call number [k] answers with
    transport success. *)
Definition attempt_ok (env : Env) (k : nat) (url : string) : bool :=
  match fault env k with
  | Some _ => false
  | None => (status_code (http_get env k url) =? 200)%Z
  end.

(** The schedule that resumes no coroutine before the previous one is
    through its four stages. *)
Definition sequential (n : nat) : list nat :=
  flat_map (fun i => repeat i 4) (seq 0 n).

(** The sentinel hashes. *)
Definition cheat_sentinel : list byte := Web3_keccak_text cheat_label.
Definition compilation_sentinel : list byte := Web3_keccak_text compilation_label.

Definition hash_bytes (h : PyHash) : list byte :=
  match h with HexBytes b => b | PyStr _ => [] end.

Fixpoint all_in_class (s : string) : bool :=
  match s with
  | EmptyString => true
  | String c s' => in_hash_class c && all_in_class s'
  end.

Definition is_write (e : Event) : bool :=
  match e with EvWriteFile _ _ => true | _ => false end.

(** ** Sample worlds *)

Definition sample_hash (tx : Tx) : list byte :=
  [Keccak.byte_of_N (Z.to_N (tx_nonce tx))].

(** A world in which every call succeeds: an unregistered account, one
    gateway that serves the artifact, a verifier that prints a short token,
    a chain clock already past every window. *)
Definition calm : Env :=
  mkEnv "0xA11CE" "0xC0DE" "apodeixis-validator:v0.12" None "/srv/node"
        (fun _ => None)
        (fun _ => 7%Z)
        sample_hash
        (fun _ _ => 1%Z)
        (fun _ => (0%Z, 0%Z, false, false))
        (fun _ => 0%Z)
        (fun _ _ => 1000%Z)
        (fun _ => 1120%Z)
        (fun _ => [])
        (fun _ _ => mkHttpResponse 200 "theorem t : True := trivial")
        (fun _ => ("Deterministic Hash: abc123", ""))
        (fun _ => repeat x2a 32)
        (fun _ => "1").

Definition with_fault (env : Env) (f : nat -> option string) : Env :=
  mkEnv (address env) (contract_addr env) (docker_image env)
        (pinata_gateway env) (cwd env) f (gas_price env) (tx_hash_of env)
        (receipt_status env) (validators env) (balanceOf env)
        (tasks_deadline env) (block_timestamp env) (get_new_entries env)
        (http_get env) (communicate env) (urandom env) (from_wei_ether env).

Definition with_streams (env : Env) (out err : string) : Env :=
  mkEnv (address env) (contract_addr env) (docker_image env)
        (pinata_gateway env) (cwd env) (fault env) (gas_price env)
        (tx_hash_of env) (receipt_status env) (validators env) (balanceOf env)
        (tasks_deadline env) (block_timestamp env) (get_new_entries env)
        (http_get env) (fun _ => (out, err)) (urandom env) (from_wei_ether env).

Definition with_clock (env : Env) (t : nat -> Z) : Env :=
  mkEnv (address env) (contract_addr env) (docker_image env)
        (pinata_gateway env) (cwd env) (fault env) (gas_price env)
        (tx_hash_of env) (receipt_status env) (validators env) (balanceOf env)
        (tasks_deadline env) t (get_new_entries env)
        (http_get env) (communicate env) (urandom env) (from_wei_ether env).

Definition genesis : World := mkWorld 0 0 [] false false.

(** Two gateways time out, the third answers. *)
Definition flaky : Env :=
  with_fault calm (fun k => if (k <? 2)%nat then Some "timed out" else None).

(** ** Reading histories

    Histories are kept newest first, so the events before an event are the
    tail that follows it. *)

(** [P tx older] for every transaction handed to the ledger in [l], [older]
    being the events before the hand-over. *)
Fixpoint each_broadcast (P : Tx -> list Event -> Prop) (l : list Event) : Prop :=
  match l with
  | [] => True
  | e :: older =>
      match e with
      | EvBroadcast tx => P tx older
      | _ => True
      end /\ each_broadcast P older
  end.

(** [m] only adds events that satisfy [Q], and leaves the mode flag alone. *)
Definition only (Q : Event -> bool) {A} (m : M A) : Prop :=
  forall w, exists d,
    history (snd (m w)) = (d ++ history w)%list
    /\ forallb Q d = true
    /\ greedy_mode (snd (m w)) = greedy_mode w.

Definition silent (e : Event) : bool :=
  negb (is_broadcast e) && negb (is_error_log e).

(** What one [_send_tx] can leave behind, with its result. *)
Inductive SendOutcome (env : Env) (f : FunctionCall)
  : Result Receipt -> list Event -> Prop :=
| so_early msg : SendOutcome env f (Raise msg) []
| so_refused tx msg :
    tx_call tx = f -> SendOutcome env f (Raise msg) [EvBroadcast tx]
| so_reverted tx st :
    tx_call tx = f -> st <> 1%Z ->
    SendOutcome env f (Raise ("Transaction failed: " ++ hex (tx_hash_of env tx)))
                [EvReceipt (tx_hash_of env tx) st; EvBroadcast tx]
| so_settled tx :
    tx_call tx = f ->
    SendOutcome env f (Ok (mkReceipt 1 (tx_hash_of env tx)))
                [EvReceipt (tx_hash_of env tx) 1; EvBroadcast tx].

(** A chain clock that advances 60 seconds per call, starting at 1000. *)
Definition ticking : Env :=
  with_clock calm (fun k => (1000 + 60 * Z.of_nat k)%Z).

(** The same chain, where the ledger refuses the finalize transaction
    because somebody else finalized the task first. *)
Definition finalized_elsewhere : Env :=
  with_fault ticking
             (fun k => if (k =? 6)%nat
                       then Some "execution reverted: Task already finalized"
                       else None).

Definition without_logs (l : list Event) : list Event :=
  filter (fun e => match e with EvLog _ _ => false | _ => true end) l.

Definition quiet (e : Event) : bool := negb (is_broadcast e).

(** The transaction recorded at position [n] of a history. *)
Definition tx_at (n : nat) (h : list Event) : Tx :=
  match nth_error h n with
  | Some (EvBroadcast tx) => tx
  | _ => mkTx faucet "" 0 0 0
  end.

(** The run of [_process_task] for task 7 in the calm world. *)
Definition calm_run : list Event :=
  history (snd (_process_task calm 7 "QmAbc" genesis)).

(** What holds of every reveal handed to the ledger in a run for
    [task_id]: before it, in this order, the commit of the same task was
    handed over, its receipt came back with status 1, and the node slept 5
    seconds; the commitment is the digest of the revealed pair, and the
    revealed result is a value the ABI takes for a [bytes32]. *)
Definition reveal_guard (env : Env) (task_id : Z) (tx : Tx) (older : list Event)
  : Prop :=
  forall id' result_hash salt,
    tx_call tx = revealResult id' result_hash salt ->
    id' = task_id
    /\ exists a b c e ctx commitment,
        older = (a ++ EvSleep 5 :: b ++ EvReceipt (tx_hash_of env ctx) 1
                   :: c ++ EvBroadcast ctx :: e)%list
        /\ tx_call ctx = commitResult task_id commitment
        /\ solidity_keccak result_hash salt = Some commitment
        /\ is_bytes32 result_hash = true.

(** A node whose ledger endpoint is unreachable. *)
Definition offline : Env := with_fault calm (fun _ => Some "connection refused").

(** Two submits in flight at once, resumed in turn. *)
Definition interleaved : list nat := [0; 1; 0; 1; 0; 1; 0; 1]%nat.

(** The schedule that runs coroutines [k], [k+1], ... one after the other. *)
Definition sequential_from (k n : nat) : list nat :=
  flat_map (fun i => repeat i 4) (seq k n).

(** ** Operator controls and fund management *)

Definition set_greedy (b : bool) : M unit :=
  fun w => (Ok tt, mkWorld (calls w) (pending w) (history w) (running w) b).

(** [stop], lines 67-69. *)
Definition stop : M unit :=
  set_running false ;;
  log "Stopping node engine..." WARN.

(** [toggle_greedy], lines 71-75; the value is the new mode. *)
Definition toggle_greedy : M bool :=
  w <- get_world ;;
  set_greedy (negb (greedy_mode w)) ;;
  w' <- get_world ;;
  let status := if greedy_mode w' then "ENABLED" else "DISABLED" in
  log ("Greedy Mode " ++ status) WARN ;;
  ret (greedy_mode w').

(** An outcome computed without touching the world. *)
Definition of_result {A} (r : Result A) : M A := fun w => (r, w).

Section Funds.

Variable env : Env.

(** [exit_network], lines 112-122. *)
Definition exit_network : M unit :=
  log "🚨 EXITING NETWORK & WITHDRAWING ALL STAKE..." WARN ;;
  try_except
    (receipt <- _send_tx env exitNetwork ;;
     let tx_hash_hex := hex (transactionHash receipt) in
     log ("✅ Exited Network! Funds returned. Tx: "
          ++ py_take 10 tx_hash_hex ++ "...") INFO ;;
     stop)
    (fun e => log ("Exit failed: " ++ e) ERROR).

(** The stake operations take a [float].  Of that amount the node uses two
    things, which are the parameters here: the text the f-string prints
    for it, and the outcome of [self.w3.to_wei(amount_apdx, 'ether')], a
    number of wei or an exception. *)
Variable amount_text : string.
Variable to_wei : Result Z.

(** [decrease_stake], lines 99-110. *)
Definition decrease_stake : M unit :=
  amount_wei <- of_result to_wei ;;
  log ("Decreasing stake by " ++ amount_text ++ " APDX...") WARN ;;
  try_except
    (receipt <- _send_tx env (decreaseStake amount_wei) ;;
     let tx_hash_hex := hex (transactionHash receipt) in
     log ("✅ Stake Decreased! Tx: " ++ py_take 10 tx_hash_hex ++ "...") INFO)
    (fun e => log ("Decrease failed (Check min stake?): " ++ e) ERROR).

(** The reply of [token.functions.allowance(address, contract_addr).call],
    by call number. *)
Variable allowance : nat -> Z.

(** [increase_stake], lines 79-97. *)
Definition increase_stake : M unit :=
  amount_wei <- of_result to_wei ;;
  log ("Increasing stake by " ++ amount_text ++ " APDX...") INFO ;;
  allowed <- ext env (fun k _ => allowance k) ;;
  (if (allowed <? amount_wei)%Z then
     log "Insufficient allowance. Approving..." WARN ;;
     _send_tx env (approve (contract_addr env) amount_wei) ;;
     ret tt
   else ret tt) ;;
  receipt <- _send_tx env (increaseStake amount_wei) ;;
  let tx_hash_hex := hex (transactionHash receipt) in
  log ("✅ Stake Increased! Tx: " ++ py_take 10 tx_hash_hex ++ "...") INFO.

End Funds.

(** ** Further readings of histories *)

(** [m] always comes back: it is not a loop that can be cut short. *)
Definition halts {A} (m : M A) : Prop := forall w, fst (m w) <> Running.

Definition is_spawn (e : Event) : bool :=
  match e with EvSpawn _ => true | _ => false end.

Definition is_sleep (e : Event) : bool :=
  match e with EvSleep _ => true | _ => false end.

(** The calls of the transactions handed to the ledger, oldest first. *)
Fixpoint broadcast_calls (tl : list Event) : list FunctionCall :=
  match tl with
  | [] => []
  | EvBroadcast tx :: tl' => tx_call tx :: broadcast_calls tl'
  | _ :: tl' => broadcast_calls tl'
  end.

(** The first character of a text, if any, is outside the token class. *)
Definition stops_token (post : string) : bool :=
  match post with
  | EmptyString => true
  | String c _ => negb (in_hash_class c)
  end.

(** Events that stay on the node's machine or read from a gateway: no
    transaction, no pause, nothing scheduled. *)
Definition local (e : Event) : bool :=
  match e with
  | EvLog _ _ | EvHttpGet _ | EvWriteFile _ _ | EvSubprocess _ => true
  | _ => false
  end.

Definition with_receipts (env : Env) (st : nat -> list byte -> Z) : Env :=
  mkEnv (address env) (contract_addr env) (docker_image env)
        (pinata_gateway env) (cwd env) (fault env) (gas_price env)
        (tx_hash_of env) st (validators env) (balanceOf env)
        (tasks_deadline env) (block_timestamp env) (get_new_entries env)
        (http_get env) (communicate env) (urandom env) (from_wei_ether env).

Definition with_balance (env : Env) (b : nat -> Z) : Env :=
  mkEnv (address env) (contract_addr env) (docker_image env)
        (pinata_gateway env) (cwd env) (fault env) (gas_price env)
        (tx_hash_of env) (receipt_status env) (validators env) b
        (tasks_deadline env) (block_timestamp env) (get_new_entries env)
        (http_get env) (communicate env) (urandom env) (from_wei_ether env).

(** A funded, unregistered account whose approval (the receipt read by
    call 6) reverts, for instance because an allowance is already set. *)
Definition approval_reverts : Env :=
  with_receipts (with_balance calm (fun _ => 500 * 10 ^ 18)%Z)
                (fun k _ => if (k =? 6)%nat then 0%Z else 1%Z).

(** What the loop schedules for the events of one poll, oldest first. *)
Definition spawned_for (new_entries : list TaskCreated) : list Event :=
  map (fun ev => EvSpawn (spawn_process_task (taskId ev) (ipfsCID ev))) new_entries.

(** The outcome of the poll answered by call [k]: the pause that follows it
    and what it schedules. *)
Definition pause_after (env : Env) (k : nat) : Event :=
  match fault env k with
  | Some _ => EvSleep 5
  | None => EvSleep 2
  end.

Definition scheduled_by (env : Env) (k : nat) : list Event :=
  match fault env k with
  | Some _ => []
  | None => spawned_for (get_new_entries env k)
  end.

(** A ledger on which two tasks appear at the second poll, the first poll
    failing. *)
Definition two_tasks : Env :=
  mkEnv (address calm) (contract_addr calm) (docker_image calm)
        (pinata_gateway calm) (cwd calm)
        (fun k => if (k =? 0)%nat then Some "rpc timeout" else None)
        (gas_price calm) (tx_hash_of calm)
        (receipt_status calm) (validators calm) (balanceOf calm)
        (tasks_deadline calm) (block_timestamp calm)
        (fun k => if (k =? 1)%nat
                  then [mkTaskCreated 7 "QmAbc" 5; mkTaskCreated 8 "QmDef" 5]
                  else [])
        (http_get calm) (communicate calm) (urandom calm) (from_wei_ether calm).

(** The URLs requested, oldest first. *)
Fixpoint http_urls (tl : list Event) : list string :=
  match tl with
  | [] => []
  | EvHttpGet url :: tl' => url :: http_urls tl'
  | _ :: tl' => http_urls tl'
  end.

(** ** Schedules of submit calls *)

(** A coroutine that has read its nonce and has not yet handed over its
    transaction. *)
Definition holds_nonce (c : SendTx) : bool :=
  match c with
  | at_build _ _ | at_send _ => true
  | _ => false
  end.


(** No coroutine of the pool other than the [i]-th holds a nonce. *)
Fixpoint others_idle (i : nat) (pool : list SendTx) : bool :=
  match pool with
  | [] => true
  | c :: rest =>
      match i with
      | O => forallb (fun c' => negb (holds_nonce c')) rest
      | S i' => negb (holds_nonce c) && others_idle i' rest
      end
  end.

(** A schedule that resumes no coroutine while another is between reading
    its nonce and handing over its transaction. *)
Fixpoint non_overlapping (env : Env) (sched : list nat) (pool : list SendTx)
  (w : World) : bool :=
  match sched with
  | [] => true
  | i :: sched' =>
      others_idle i pool
      && (let (pool', w') := step_nth env i pool w in
          non_overlapping env sched' pool' w')
  end.



(** ** The result token, in the words of the specification *)

Definition is_hex_digit (c : ascii) : bool :=
  match hexval c with Some _ => true | None => false end.

Fixpoint all_hex (s : string) : bool :=
  match s with
  | EmptyString => true
  | String c s' => is_hex_digit c && all_hex s'
  end.

(** "A full-length hash literal": 64 hexadecimal digits, with or without
    the prefix. *)
Definition full_length_hash_literal (tok : string) : bool :=
  (String.length (remove_0x_prefix tok) =? 64)%nat
  && all_hex (remove_0x_prefix tok).

(** A token of full length that is no hash literal, and the output that
    carries it. *)
Definition sixty_four_Z : string :=
  "ZZZZZZZZZZZZZZZZZZZZZZZZZZZZZZZZZZZZZZZZZZZZZZZZZZZZZZZZZZZZZZZZ".

Definition output_sixty_four_Z : string := hash_label ++ sixty_four_Z.

(** A verifier that prints a token of 64 characters starting with ["0X"]. *)
Definition capital_prefix_token : string :=
  "0X00112233445566778899aabbccddeeff00112233445566778899aabbccddee".

Definition capital_prefix : Env :=
  with_streams calm (hash_label ++ capital_prefix_token) "".

(** * Properties *)

(** ** Keccak-256 test vectors *)

Example keccak256_empty :
  hex (Keccak.keccak256 []) =
  "c5d2460186f7233c927e7db2dcc703c0e500b653ca82273b7bfad8045d85a470".
Proof. vm_compute. reflexivity. Qed.

Example keccak256_abc :
  hex (Web3_keccak_text "abc") =
  "4e03657aea45a94fc7d47ba826c8d667c0d1e6e33a64a036ec44f58fa12d6c45".
Proof. vm_compute. reflexivity. Qed.

Example keccak256_two_blocks :
  hex (Keccak.keccak256 (repeat "a"%byte 136)) =
  "a6c4d403279fe3e0af03729caada8374b5ca54d8065329a3ebcaeb4b60aa386e"
  /\ hex (Keccak.keccak256 (repeat "a"%byte 135)) =
     "34367dc248bbd832f4e3e69dfaac2f92638bd0bbd18f2912ba4ef454919cf446".
Proof. split; vm_compute; reflexivity. Qed.

Lemma bytes_of_lane_length n l : List.length (Keccak.bytes_of_lane n l) = n.
Proof.
  revert l. induction n as [|n IH]; intro l; simpl; [reflexivity|].
  now rewrite IH.
Qed.

Lemma keccak256_length msg : List.length (Keccak.keccak256 msg) = 32%nat.
Proof.
  unfold Keccak.keccak256, Keccak.keccak256_N, Keccak.squeeze.
  rewrite length_map. simpl.
  repeat rewrite length_app. repeat rewrite bytes_of_lane_length.
  reflexivity.
Qed.

Lemma sentinels_differ : cheat_sentinel <> compilation_sentinel.
Proof. vm_compute. discriminate. Qed.

(** From here on digests are compared as wholes or evaluated by the
    virtual machine, never unfolded step by step. *)
Opaque Keccak.keccak256.

Lemma HexBytes_inj a b : HexBytes a = HexBytes b -> a = b.
Proof. intro H. exact (f_equal hash_bytes H). Qed.

(** ** The result-token pattern *)

Lemma take_class_in_class s : all_in_class (take_class s) = true.
Proof.
  induction s as [|c s IH]; simpl; [reflexivity|].
  destruct (in_hash_class c) eqn:E; simpl; [|reflexivity].
  now rewrite E, IH.
Qed.

Lemma match_here_in_class s tok :
  match_here s = Some tok -> all_in_class tok = true /\ tok <> EmptyString.
Proof.
  unfold match_here. destruct (String.prefix hash_label s); [|discriminate].
  pose proof (take_class_in_class (drop (String.length hash_label) s)) as H.
  destruct (take_class _) eqn:E; [discriminate|].
  intros [= <-]. split; [exact H | discriminate].
Qed.

Lemma re_search_in_class s tok :
  re_search s = Some tok -> all_in_class tok = true /\ tok <> EmptyString.
Proof.
  induction s as [|c s IH].
  - cbn. discriminate.
  - cbn -[match_here]. destruct (match_here (String c s)) eqn:E.
    + intros [= <-]. now apply match_here_in_class in E.
    + exact IH.
Qed.

(** No token starts with ["0x"]: [x] is outside the character class. *)
Lemma class_token_no_0x tok :
  all_in_class tok = true -> startswith "0x" tok = false.
Proof.
  unfold startswith. intro H.
  destruct (String.prefix "0x" tok) eqn:E; [exfalso|reflexivity].
  destruct tok as [|a [|b tok]]; cbn -[Ascii.ascii_dec] in E;
    try discriminate;
    destruct (Ascii.ascii_dec "0" a); try discriminate.
  destruct (Ascii.ascii_dec "x" b) as [<-|]; [|discriminate].
  cbn -[in_hash_class] in H.
  apply andb_true_iff in H as [_ H]. apply andb_true_iff in H as [H _].
  vm_compute in H. discriminate.
Qed.

Lemma prefix_app pat s :
  String.prefix pat s = true <-> exists post, s = pat ++ post.
Proof.
  revert s. induction pat as [|a pat IH]; intro s.
  - split; [intros _; now exists s | intros _; now destruct s].
  - destruct s as [|b s]; cbn -[Ascii.ascii_dec].
    + split; [discriminate | intros [post H]; discriminate].
    + destruct (Ascii.ascii_dec a b) as [<-|N].
      * rewrite IH. split; intros [post H]; exists post; [now rewrite H|].
        now injection H.
      * split; [discriminate|]. intros [post H]. injection H as Hb _.
        now elim N.
Qed.

(** [contains] is Python's [in]: the pattern occurs somewhere in the text. *)
Lemma contains_spec pat s :
  contains pat s = true <-> exists pre post, s = pre ++ pat ++ post.
Proof.
  induction s as [|c s IH].
  - change (contains pat EmptyString)
      with (if String.prefix pat EmptyString then true else false).
    destruct (String.prefix pat EmptyString) eqn:E.
    + split; [intros _|reflexivity].
      apply prefix_app in E as [post E]. exists EmptyString, post. exact E.
    + split; [discriminate|]. intros (pre & post & H).
      destruct pre; [|discriminate]. cbn in H.
      assert (String.prefix pat EmptyString = true) as X
          by (apply prefix_app; now exists post).
      congruence.
  - change (contains pat (String c s))
      with (if String.prefix pat (String c s) then true else contains pat s).
    destruct (String.prefix pat (String c s)) eqn:E.
    + split; [intros _|reflexivity].
      apply prefix_app in E as [post E]. exists EmptyString, post. exact E.
    + rewrite IH. split.
      * intros (pre & post & H). exists (String c pre), post. cbn. now rewrite H.
      * intros (pre & post & H). destruct pre as [|c' pre].
        -- cbn in H.
           assert (String.prefix pat (String c s) = true) as X
               by (apply prefix_app; now exists post).
           congruence.
        -- cbn in H. injection H as _ H. now exists pre, post.
Qed.

(** ** The ledger's digest of a pair *)

Lemma hexval_high_digit b :
  hexval (hexdigit (Byte.to_N b / 16)) = Some (Byte.to_N b / 16)%N.
Proof. destruct b; reflexivity. Qed.

Lemma hexval_low_digit b :
  hexval (hexdigit (Byte.to_N b mod 16)) = Some (Byte.to_N b mod 16)%N.
Proof. destruct b; reflexivity. Qed.

Lemma byte_of_digits b :
  Keccak.byte_of_N (16 * (Byte.to_N b / 16) + Byte.to_N b mod 16) = b.
Proof. destruct b; reflexivity. Qed.

Lemma hex_app a b : hex (a ++ b) = (hex a ++ hex b)%string.
Proof. induction a as [|x a IH]; [reflexivity|]. cbn. now rewrite IH. Qed.

Lemma hex_length bs : String.length (hex bs) = (2 * List.length bs)%nat.
Proof. induction bs as [|b bs IH]; [reflexivity|]. cbn [hex String.length List.length]. lia. Qed.

(** Decoding undoes [hex], whatever follows. *)
Lemma unhexlify_hex_app bs s :
  unhexlify (hex bs ++ s) = option_map (List.app bs) (unhexlify s).
Proof.
  induction bs as [|b bs IH].
  - cbn. now destruct (unhexlify s).
  - cbn [hex String.append unhexlify].
    rewrite hexval_high_digit, hexval_low_digit, IH, byte_of_digits.
    now destruct (unhexlify s).
Qed.

Lemma unhexlify_hex bs : unhexlify (hex bs) = Some bs.
Proof.
  pose proof (unhexlify_hex_app bs EmptyString) as H.
  cbn in H. rewrite app_nil_r in H.
  replace (hex bs ++ "")%string with (hex bs) in H; [exact H|].
  clear H. induction (hex bs) as [|c s IH]; [reflexivity|]. cbn. now rewrite <- IH.
Qed.

Lemma unhexlify_app_upto n :
  forall a x b, (String.length a <= n)%nat -> unhexlify a = Some x ->
                unhexlify (a ++ b) = option_map (List.app x) (unhexlify b)
                /\ String.length a = (2 * List.length x)%nat.
Proof.
  induction n as [|n IH]; intros a x b L U.
  - destruct a; [|cbn in L; lia]. cbn in U. injection U as <-.
    cbn. split; [now destruct (unhexlify b) | reflexivity].
  - destruct a as [|c1 [|c2 a]].
    + cbn in U. injection U as <-. cbn. split; [now destruct (unhexlify b) | reflexivity].
    + discriminate.
    + cbn [unhexlify] in U. cbn [String.append unhexlify].
      destruct (hexval c1) as [h|]; [|discriminate].
      destruct (hexval c2) as [l|]; [|discriminate].
      destruct (unhexlify a) as [rest|] eqn:R; [|discriminate].
      injection U as <-.
      destruct (IH a rest b) as [E Len]; [cbn in L; lia | exact R |].
      rewrite E. split; [now destruct (unhexlify b)|].
      cbn [String.length List.length]. lia.
Qed.

Lemma unhexlify_app a x b :
  unhexlify a = Some x ->
  unhexlify (a ++ b) = option_map (List.app x) (unhexlify b).
Proof. intro U. now apply (unhexlify_app_upto (String.length a) a x b). Qed.

Lemma unhexlify_length a x :
  unhexlify a = Some x -> String.length a = (2 * List.length x)%nat.
Proof. intro U. now apply (unhexlify_app_upto (String.length a) a x EmptyString). Qed.

(** Hexadecimal digits never spell a prefix. *)
Lemma digits_not_prefixed a x s :
  unhexlify a = Some x -> a <> EmptyString -> is_0x_prefixed (a ++ s) = false.
Proof.
  intros U N. destruct a as [|c1 [|c2 a]]; [now elim N | discriminate |].
  cbn [unhexlify] in U.
  destruct (hexval c1); [|discriminate].
  destruct (hexval c2) eqn:H2; [|discriminate].
  unfold is_0x_prefixed. cbn -[Ascii.ascii_dec].
  destruct (Ascii.ascii_dec "0" c1); [|reflexivity].
  destruct (Ascii.ascii_dec "x" c2) as [<-|]; [discriminate|].
  destruct (Ascii.ascii_dec "X" c2) as [<-|]; [discriminate|].
  reflexivity.
Qed.

Lemma hex_not_prefixed bs : is_0x_prefixed (hex bs) = false.
Proof.
  destruct bs as [|b bs]; [reflexivity|].
  replace (hex (b :: bs)) with (hex (b :: bs) ++ "")%string.
  - apply (digits_not_prefixed _ (b :: bs)); [apply unhexlify_hex | discriminate].
  - generalize (hex (b :: bs)). intro s. induction s as [|c s IH]; [reflexivity|].
    cbn. now rewrite IH.
Qed.

Lemma length_append a b :
  String.length (a ++ b) = (String.length a + String.length b)%nat.
Proof. induction a as [|c a IH]; [reflexivity|]. cbn. now rewrite IH. Qed.

Lemma is_0x_prefixed_0x s : is_0x_prefixed ("0x" ++ s) = true.
Proof. unfold is_0x_prefixed. cbn. now destruct s. Qed.

Lemma remove_0x_prefix_0x s : remove_0x_prefix ("0x" ++ s) = s.
Proof. unfold remove_0x_prefix. now rewrite is_0x_prefixed_0x. Qed.

Lemma decode_hex_0x s : decode_hex ("0x" ++ s) = unhexlify s.
Proof. unfold decode_hex. now rewrite remove_0x_prefix_0x. Qed.

Lemma odd_double n : Nat.odd (2 + 2 * n) = false.
Proof.
  replace (2 + 2 * n)%nat with (2 * (1 + n))%nat by lia.
  rewrite <- Nat.negb_even. now rewrite Nat.even_mul.
Qed.

(** On 32 bytes the digest of the pair is Keccak-256 of the two, one after
    the other. *)
Lemma solidity_keccak_bytes b salt :
  solidity_keccak (HexBytes b) salt = Some (Keccak.keccak256 (b ++ salt)).
Proof.
  unfold solidity_keccak, hex_encode_bytes32.
  rewrite !remove_0x_prefix_0x, <- hex_app. unfold add_0x_prefix. rewrite hex_not_prefixed.
  unfold to_bytes_hexstr.
  change (String.length ("0x" ++ hex (b ++ salt)))
    with (2 + String.length (hex (b ++ salt)))%nat.
  rewrite hex_length, odd_double.
  now rewrite decode_hex_0x, unhexlify_hex.
Qed.

(** A value the ABI takes for a [bytes32] stands for 32 bytes, and the
    ledger's digest of the pair is Keccak-256 of those bytes followed by the
    salt. *)
Lemma solidity_keccak_bytes32 h salt :
  is_bytes32 h = true ->
  exists preimage,
    bytes_of_hash h = Some preimage
    /\ List.length preimage = 32%nat
    /\ solidity_keccak h salt = Some (Keccak.keccak256 (preimage ++ salt)).
Proof.
  destruct h as [b|s]; cbn [is_bytes32 bytes_of_hash].
  - intro L. apply Nat.eqb_eq in L. exists b.
    split; [reflexivity|]. split; [exact L | apply solidity_keccak_bytes].
  - destruct (decode_hex s) as [pre|] eqn:D; [|discriminate].
    intro H. apply andb_true_iff in H as [P L]. apply Nat.eqb_eq in L.
    exists pre. split; [reflexivity|]. split; [exact L|].
    apply prefix_app in P as [t ->].
    rewrite decode_hex_0x in D.
    unfold solidity_keccak, hex_encode_bytes32.
    rewrite is_0x_prefixed_0x, !remove_0x_prefix_0x.
    assert (t <> EmptyString) as N.
    { intros ->. cbn in D. injection D as <-. discriminate. }
    unfold add_0x_prefix. rewrite (digits_not_prefixed t pre _ D N).
    unfold to_bytes_hexstr.
    change (String.length ("0x" ++ (t ++ hex salt)))
      with (2 + String.length (t ++ hex salt))%nat.
    assert (String.length (t ++ hex salt) = (2 * (List.length pre + List.length salt))%nat) as Len.
    { rewrite length_append, (unhexlify_length _ _ D), hex_length. lia. }
    rewrite Len, odd_double.
    rewrite decode_hex_0x, (unhexlify_app _ _ _ D), unhexlify_hex. reflexivity.
Qed.

(** ** Result classifier *)

(** C6.  When the verifier output carries the failure status, a cheat
    marker decides: with a marker (["CHEAT DETECTED"] or
    ["ERROR_AXIOM_CHECK_FAILED"]) the classifier returns the cheat sentinel
    and not the compilation-failure sentinel; without one it returns the
    compilation-failure sentinel. *)
Theorem cheat_markers_take_precedence (output : string) :
  contains "Status: FAILURE" output = true ->
  (contains "CHEAT DETECTED" output
   || contains "ERROR_AXIOM_CHECK_FAILED" output = true ->
   snd (classify output) = HexBytes cheat_sentinel
   /\ snd (classify output) <> HexBytes compilation_sentinel)
  /\ (contains "CHEAT DETECTED" output
      || contains "ERROR_AXIOM_CHECK_FAILED" output = false ->
      snd (classify output) = HexBytes compilation_sentinel).
Proof.
  intro F. unfold classify. rewrite F. split; intro C; rewrite C; cbn [snd].
  - split; [reflexivity|]. intro H. apply sentinels_differ.
    exact (HexBytes_inj _ _ H).
  - reflexivity.
Qed.

Lemma cheat_markers_take_precedence_witness :
  contains "Status: FAILURE" "Status: FAILURE; CHEAT DETECTED" = true
  /\ snd (classify "Status: FAILURE; CHEAT DETECTED") = HexBytes cheat_sentinel
  /\ snd (classify "Status: FAILURE; CHEAT DETECTED")
     <> HexBytes compilation_sentinel.
Proof.
  split; [vm_compute; reflexivity|].
  destruct (cheat_markers_take_precedence "Status: FAILURE; CHEAT DETECTED")
    as [H _]; [vm_compute; reflexivity|].
  apply H. vm_compute. reflexivity.
Defined.

(** C7.  The sentinels are two constants, the Keccak-256 digests of the
    labels ["ERROR_AXIOM_CHECK_FAILED"] and ["COMPILATION_FAILED"]; they
    differ, and whatever else the output holds the cheat branch returns the
    first, the compilation-failure branch and the unparseable branch both
    return the second. *)
Theorem sentinel_hashes_fixed :
  cheat_sentinel = Keccak.keccak256 (bytes_of_string "ERROR_AXIOM_CHECK_FAILED")
  /\ compilation_sentinel = Keccak.keccak256 (bytes_of_string "COMPILATION_FAILED")
  /\ hex cheat_sentinel =
     "2153f224374290d70dee5aea923446002e8f2aa95a358dfcfd9ff877092be7a4"
  /\ hex compilation_sentinel =
     "fff81a152a9d35fb6605ede3b9964879ce8f8ae2c5f96742d339f80c5171ff33"
  /\ cheat_sentinel <> compilation_sentinel
  /\ forall output : string,
      (contains "Status: FAILURE" output = true ->
       contains "CHEAT DETECTED" output
       || contains "ERROR_AXIOM_CHECK_FAILED" output = true ->
       snd (classify output) = HexBytes cheat_sentinel)
      /\ (contains "Status: FAILURE" output = true ->
          contains "CHEAT DETECTED" output
          || contains "ERROR_AXIOM_CHECK_FAILED" output = false ->
          snd (classify output) = HexBytes compilation_sentinel)
      /\ (contains "Status: FAILURE" output = false ->
          re_search output = None ->
          snd (classify output) = HexBytes compilation_sentinel).
Proof.
  split; [reflexivity|]. split; [reflexivity|].
  split; [vm_compute; reflexivity|]. split; [vm_compute; reflexivity|].
  split; [exact sentinels_differ|].
  intro output. split; [|split].
  - intros F C. unfold classify. now rewrite F, C.
  - intros F C. unfold classify. now rewrite F, C.
  - intros F R. unfold classify. now rewrite F, R.
Qed.

Lemma sentinel_hashes_fixed_witness :
  snd (classify "Status: FAILURE (axiom) CHEAT DETECTED") = HexBytes cheat_sentinel
  /\ snd (classify "error: unknown tactic; Status: FAILURE")
     = HexBytes compilation_sentinel
  /\ snd (classify "Status: SUCCESS") = HexBytes compilation_sentinel.
Proof.
  destruct sentinel_hashes_fixed as (_ & _ & _ & _ & _ & H).
  split; [|split].
  - destruct (H "Status: FAILURE (axiom) CHEAT DETECTED") as (H1 & _ & _).
    apply H1; vm_compute; reflexivity.
  - destruct (H "error: unknown tactic; Status: FAILURE") as (_ & H2 & _).
    apply H2; vm_compute; reflexivity.
  - destruct (H "Status: SUCCESS") as (_ & _ & H3).
    apply H3; vm_compute; reflexivity.
Defined.

Lemma unhexlify_all_hex_upto n :
  forall s, (String.length s <= n)%nat ->
            (forall b, unhexlify s = Some b -> all_hex s = true)
            /\ (all_hex s = true -> Nat.even (String.length s) = true ->
                exists b, unhexlify s = Some b).
Proof.
  induction n as [|n IH]; intros s L.
  - destruct s; [|cbn in L; lia]. split; [reflexivity | now exists []].
  - destruct s as [|c1 [|c2 s]].
    + split; [reflexivity | now exists []].
    + split; [discriminate | intros _ E; discriminate].
    + destruct (IH s) as [H1 H2]; [cbn in L; lia|].
      cbn [unhexlify all_hex String.length]. unfold is_hex_digit.
      destruct (hexval c1) as [h|]; [|split; [discriminate | discriminate]].
      destruct (hexval c2) as [l|]; [|split; [discriminate | discriminate]].
      cbn [andb]. split.
      * intros b U. destruct (unhexlify s) as [rest|]; [|discriminate].
        now apply (H1 rest).
      * intros A E. destruct (H2 A) as [rest ->]; [exact E|]. now eexists.
Qed.

(** A text of 64 characters behind the prefix is taken for a [bytes32]
    exactly when the characters are hexadecimal digits. *)
Lemma is_bytes32_text tok :
  String.length tok = 64%nat -> is_bytes32 (PyStr ("0x" ++ tok)) = all_hex tok.
Proof.
  intro L. unfold is_bytes32. rewrite decode_hex_0x.
  destruct (unhexlify_all_hex_upto 64 tok) as [H1 H2]; [lia|].
  destruct (unhexlify tok) as [b|] eqn:U.
  - rewrite (H1 b eq_refl).
    apply unhexlify_length in U. rewrite L in U.
    replace (List.length b) with 32%nat by lia.
    cbn. now destruct tok.
  - destruct (all_hex tok); [|reflexivity].
    destruct H2 as [b E]; [reflexivity | now rewrite L | discriminate].
Qed.

(** C8, as the classifier does it.  When the output does not carry the
    failure status and the pattern finds a token, the length of the token
    decides alone.  A token of 64 characters is returned as the text
    ["0x" ++ token], whether or not its characters are hexadecimal digits;
    that text is a 32-byte hash literal exactly when they are.  Any other
    token is returned as the 32-byte Keccak-256 digest of its text.  A token
    never starts with ["0x"] ([x] is outside the pattern's character class),
    so a literal printed with the prefix is cut to the token ["0"], which is
    hashed.  ["Deterministic Hash: abc123"] yields the digest of ["abc123"],
    not the text. *)
Theorem token_by_length_verbatim_or_digest (output tok : string) :
  contains "Status: FAILURE" output = false ->
  re_search output = Some tok ->
  startswith "0x" tok = false
  /\ (String.length tok = 64%nat ->
      snd (classify output) = PyStr ("0x" ++ tok)
      /\ is_bytes32 (snd (classify output)) = all_hex tok)
  /\ (String.length tok <> 64%nat ->
      snd (classify output) = HexBytes (Web3_keccak_text tok)
      /\ List.length (Web3_keccak_text tok) = 32%nat)
  /\ (forall literal,
         re_search (hash_label ++ "0x" ++ literal) = Some "0"
         /\ (contains "Status: FAILURE" (hash_label ++ "0x" ++ literal) = false ->
             snd (classify (hash_label ++ "0x" ++ literal))
             = HexBytes (Web3_keccak_text "0")))
  /\ snd (classify "Deterministic Hash: abc123")
     = HexBytes (Web3_keccak_text "abc123")
  /\ snd (classify "Deterministic Hash: abc123") <> PyStr "abc123"
  /\ snd (classify "Deterministic Hash: abc123") <> PyStr "0xabc123".
Proof.
  intros F R. unfold classify at 1 2 3. rewrite F, R.
  apply re_search_in_class in R as [R _].
  rewrite (class_token_no_0x tok R). cbn [negb andb].
  split; [reflexivity|]. split; [|split; [|split; [|split; [|split]]]].
  - intro L. rewrite L. cbn [Nat.eqb negb snd].
    split; [reflexivity | now apply is_bytes32_text].
  - intro L. apply Nat.eqb_neq in L. rewrite L. cbn [negb snd].
    split; [reflexivity|]. apply keccak256_length.
  - intro literal.
    assert (re_search (hash_label ++ "0x" ++ literal) = Some "0") as S
        by (vm_compute; reflexivity).
    split; [exact S|]. intro F'. unfold classify. rewrite F', S. reflexivity.
  - vm_compute. reflexivity.
  - vm_compute. discriminate.
  - vm_compute. discriminate.
Qed.

Lemma token_by_length_verbatim_or_digest_witness :
  contains "Status: FAILURE" "Status: SUCCESS; Deterministic Hash: abc123" = false
  /\ re_search "Status: SUCCESS; Deterministic Hash: abc123" = Some "abc123"
  /\ snd (classify "Status: SUCCESS; Deterministic Hash: abc123")
     = HexBytes (Web3_keccak_text "abc123")
  /\ contains "Status: FAILURE" (hash_label ++ hex cheat_sentinel) = false
  /\ re_search (hash_label ++ hex cheat_sentinel) = Some (hex cheat_sentinel)
  /\ snd (classify (hash_label ++ hex cheat_sentinel))
     = PyStr ("0x" ++ hex cheat_sentinel)
  /\ is_bytes32 (snd (classify (hash_label ++ hex cheat_sentinel))) = true.
Proof.
  split; [vm_compute; reflexivity|]. split; [vm_compute; reflexivity|].
  split.
  - destruct (token_by_length_verbatim_or_digest
                "Status: SUCCESS; Deterministic Hash: abc123" "abc123")
      as (_ & _ & H & _); [vm_compute; reflexivity | vm_compute; reflexivity |].
    apply H. vm_compute. discriminate.
  - split; [vm_compute; reflexivity|]. split; [vm_compute; reflexivity|].
    destruct (token_by_length_verbatim_or_digest
                (hash_label ++ hex cheat_sentinel) (hex cheat_sentinel))
      as (_ & H & _); [vm_compute; reflexivity | vm_compute; reflexivity |].
    destruct H as [H1 H2]; [vm_compute; reflexivity|].
    split; [exact H1|]. rewrite H2. vm_compute. reflexivity.
Defined.

(** C8, as stated, fails: a token of 64 characters that are not hexadecimal
    digits is no hash literal, yet it is not hashed; it is passed on behind
    the prefix, as a text that is no [bytes32] and of which the ledger's
    digest cannot be formed, whatever the salt. *)
Lemma full_length_token_without_hex_digits_is_not_hashed :
  contains "Status: FAILURE" output_sixty_four_Z = false
  /\ re_search output_sixty_four_Z = Some sixty_four_Z
  /\ full_length_hash_literal sixty_four_Z = false
  /\ snd (classify output_sixty_four_Z) = PyStr ("0x" ++ sixty_four_Z)
  /\ snd (classify output_sixty_four_Z) <> HexBytes (Web3_keccak_text sixty_four_Z)
  /\ is_bytes32 (snd (classify output_sixty_four_Z)) = false
  /\ forall salt, solidity_keccak (snd (classify output_sixty_four_Z)) salt = None.
Proof.
  assert (snd (classify output_sixty_four_Z) = PyStr ("0x" ++ sixty_four_Z)) as C
      by (vm_compute; reflexivity).
  split; [vm_compute; reflexivity|]. split; [vm_compute; reflexivity|].
  split; [vm_compute; reflexivity|]. split; [exact C|]. rewrite C.
  split; [discriminate|]. split; [vm_compute; reflexivity|].
  intro salt. unfold solidity_keccak, hex_encode_bytes32.
  rewrite is_0x_prefixed_0x, !remove_0x_prefix_0x.
  unfold add_0x_prefix, to_bytes_hexstr.
  change (is_0x_prefixed (sixty_four_Z ++ hex salt)) with false. cbv iota.
  destruct (Nat.odd _).
  - rewrite remove_0x_prefix_0x. reflexivity.
  - rewrite decode_hex_0x. reflexivity.
Qed.

(** ** Sandboxed verifier *)

Lemma run_docker_result env file_path w :
  fault env (calls w) = None ->
  fault env (S (calls w)) = None ->
  fst (_run_docker env file_path w)
  = Ok (snd (classify (fst (communicate env (S (calls w)))))).
Proof.
  intros F1 F2. unfold _run_docker, bind, log, emit, ext, ret. cbn.
  rewrite F1. cbn. rewrite F2. cbn.
  destruct (classify (fst (communicate env (S (calls w))))) as [[[msg lvl]|] h];
    reflexivity.
Qed.

(** C4, as the node does it.  The text that is classified is the decoded
    standard output alone: when the sandbox starts and its streams are
    read, [_run_docker] returns the classification of standard output, and
    replacing what arrived on standard error changes nothing. *)
Theorem verdict_reads_stdout_only env file_path w :
  fault env (calls w) = None ->
  fault env (S (calls w)) = None ->
  fst (_run_docker env file_path w)
  = Ok (snd (classify (fst (communicate env (S (calls w))))))
  /\ forall out err1 err2,
      _run_docker (with_streams env out err1) file_path w
      = _run_docker (with_streams env out err2) file_path w.
Proof.
  intros F1 F2. split; [now apply run_docker_result|].
  intros out err1 err2.
  unfold _run_docker, bind, log, emit, ext, ret. cbn.
  destruct (fault env (calls w)); [reflexivity|]. cbn.
  destruct (fault env (S (calls w))); reflexivity.
Qed.

Lemma verdict_reads_stdout_only_witness :
  fault calm (calls genesis) = None
  /\ fault calm (S (calls genesis)) = None
  /\ fst (_run_docker calm "/srv/node/Task_7.lean" genesis)
     = Ok (snd (classify "Deterministic Hash: abc123")).
Proof.
  split; [reflexivity|]. split; [reflexivity|].
  exact (proj1 (verdict_reads_stdout_only
                  calm "/srv/node/Task_7.lean" genesis eq_refl eq_refl)).
Defined.

(** C4, as stated, fails: with the failure status and the cheat marker on
    standard error only, the node returns the digest of the token found on
    standard output, not what the two streams together (in either order)
    classify to. *)
Lemma stderr_is_not_inspected :
  let out := "Deterministic Hash: abc123" in
  let err := "Status: FAILURE; CHEAT DETECTED" in
  let env := with_streams calm out err in
  fst (_run_docker env "/srv/node/Task_7.lean" genesis)
  = Ok (HexBytes (Web3_keccak_text "abc123"))
  /\ snd (classify (out ++ err)) = HexBytes cheat_sentinel
  /\ snd (classify (err ++ out)) = HexBytes cheat_sentinel
  /\ fst (_run_docker env "/srv/node/Task_7.lean" genesis)
     <> Ok (snd (classify (out ++ err)))
  /\ fst (_run_docker env "/srv/node/Task_7.lean" genesis)
     <> Ok (snd (classify (err ++ out))).
Proof.
  cbv zeta.
  split; [vm_compute; reflexivity|].
  split; [vm_compute; reflexivity|].
  split; [vm_compute; reflexivity|].
  split; vm_compute; discriminate.
Qed.

(** ** Artifact fetcher *)

(** One round of the gateway loop, by the outcome of the request. *)
Lemma try_gateways_step_fail env path_obj url rest w :
  attempt_ok env (calls w) url = false ->
  try_gateways env path_obj (url :: rest) w
  = try_gateways env path_obj rest
      (mkWorld (S (calls w)) (pending w)
               (EvHttpGet url :: EvLog ("Downloading from " ++ url ++ "...") INFO
                          :: history w)
               (running w) (greedy_mode w)).
Proof.
  unfold attempt_ok. intro A.
  cbn [try_gateways]. unfold bind, try_except, client_get, log, emit, ext, ret.
  cbn. destruct (fault env (calls w)); [reflexivity|].
  cbn. rewrite A. reflexivity.
Qed.

Lemma try_gateways_step_ok env path_obj url rest w :
  attempt_ok env (calls w) url = true ->
  try_gateways env path_obj (url :: rest) w
  = (Ok (Some path_obj),
     mkWorld (S (calls w)) (pending w)
             (EvLog "Download success." INFO
              :: EvWriteFile path_obj (content (http_get env (calls w) url))
              :: EvHttpGet url
              :: EvLog ("Downloading from " ++ url ++ "...") INFO
              :: history w)
             (running w) (greedy_mode w)).
Proof.
  unfold attempt_ok. intro A.
  cbn [try_gateways]. unfold bind, try_except, client_get, write_file, log, emit, ext, ret.
  cbn. destruct (fault env (calls w)); [discriminate|].
  cbn. rewrite A. reflexivity.
Qed.

(** The loop either stops at the first candidate that answers with
    transport success, having written that candidate's content, or runs
    off the end having written nothing. *)
Lemma try_gateways_cases env path_obj urls w :
  (exists i url,
      nth_error urls i = Some url
      /\ attempt_ok env (calls w + i) url = true
      /\ (forall j url', (j < i)%nat -> nth_error urls j = Some url' ->
                         attempt_ok env (calls w + j) url' = false)
      /\ fst (try_gateways env path_obj urls w) = Ok (Some path_obj)
      /\ exists older,
          history (snd (try_gateways env path_obj urls w))
          = EvLog "Download success." INFO
            :: EvWriteFile path_obj (content (http_get env (calls w + i) url))
            :: EvHttpGet url :: older
          /\ filter is_write older = filter is_write (history w))
  \/ ((forall i url, nth_error urls i = Some url ->
                     attempt_ok env (calls w + i) url = false)
      /\ fst (try_gateways env path_obj urls w) = Ok None
      /\ filter is_write (history (snd (try_gateways env path_obj urls w)))
         = filter is_write (history w)).
Proof.
  revert w. induction urls as [|url rest IH]; intro w.
  - right. split; [|split]; try reflexivity.
    intros [|i] url H; discriminate.
  - destruct (attempt_ok env (calls w) url) eqn:A.
    + left. exists 0%nat, url. rewrite Nat.add_0_r.
      rewrite (try_gateways_step_ok _ _ _ _ _ A).
      split; [reflexivity|]. split; [exact A|]. split; [intros j u Hj; lia|].
      split; [reflexivity|]. eexists. split; reflexivity.
    + rewrite (try_gateways_step_fail _ _ _ _ _ A).
      set (w1 := mkWorld _ _ _ _ _).
      destruct (IH w1) as [(i & u & Hn & Hok & Hbefore & Hres & older & Hh & Hw)
                          |(Hall & Hres & Hw)].
      * left. exists (S i), u.
        replace (calls w + S i)%nat with (calls w1 + i)%nat by (cbn; lia).
        split; [exact Hn|]. split; [exact Hok|]. split.
        -- intros [|j] u' Hj Hu'.
           ++ cbn in Hu'. injection Hu' as <-. now rewrite Nat.add_0_r.
           ++ replace (calls w + S j)%nat with (calls w1 + j)%nat by (cbn; lia).
              apply Hbefore; [lia | exact Hu'].
        -- split; [exact Hres|]. exists older. split; [exact Hh|exact Hw].
      * right. split; [|split; [exact Hres | exact Hw]].
        intros [|i] u Hu.
        -- cbn in Hu. injection Hu as <-. now rewrite Nat.add_0_r.
        -- replace (calls w + S i)%nat with (calls w1 + i)%nat by (cbn; lia).
           now apply Hall.
Qed.

Lemma download_unfold env task_id cid w :
  startswith "QmSimulated" cid = false ->
  _download_ipfs env task_id cid w
  = match try_gateways env (cwd env ++ "/" ++ "Task_" ++ str_of_Z task_id ++ ".lean")
                       (gateways env cid) w with
    | (Ok (Some p), w') => (Ok p, w')
    | (Ok None, w') => (Raise "All IPFS gateways failed", w')
    | (Raise msg, w') => (Raise msg, w')
    | (Running, w') => (Running, w')
    end.
Proof.
  intro S. unfold _download_ipfs. rewrite S. unfold bind, ret, raise.
  destruct (try_gateways _ _ _ w) as [[[p|]| |] w']; reflexivity.
Qed.

(** C9.  For a pointer without the simulated prefix the candidates are the
    preferred gateway (when configured) followed by the three public ones
    in their fixed order.  The fetch returns the task's file holding the
    content of the first candidate that answers with status 200, whatever
    errors or other statuses the earlier candidates produced; and it raises
    ["All IPFS gateways failed"] exactly when no candidate answers with
    status 200.  Nothing else is raised. *)
Theorem fetch_first_success_or_exhausted env task_id cid w :
  startswith "QmSimulated" cid = false ->
  let path_obj := cwd env ++ "/" ++ "Task_" ++ str_of_Z task_id ++ ".lean" in
  let run := _download_ipfs env task_id cid w in
  gateways env cid
  = List.app
      (match pinata_gateway env with
       | Some g => if (String.length g =? 0)%nat then []
                   else ["https://" ++ g ++ "/ipfs/" ++ cid]
       | None => []
       end)
      ["https://cloudflare-ipfs.com/ipfs/" ++ cid;
       "https://ipfs.io/ipfs/" ++ cid;
       "https://gateway.pinata.cloud/ipfs/" ++ cid]
  /\ (forall i url,
         nth_error (gateways env cid) i = Some url ->
         attempt_ok env (calls w + i) url = true ->
         (forall j url', (j < i)%nat ->
                         nth_error (gateways env cid) j = Some url' ->
                         attempt_ok env (calls w + j) url' = false) ->
         fst run = Ok path_obj
         /\ filter is_write (history (snd run))
            = EvWriteFile path_obj (content (http_get env (calls w + i) url))
              :: filter is_write (history w))
  /\ (fst run = Raise "All IPFS gateways failed"
      <-> forall i url, nth_error (gateways env cid) i = Some url ->
                        attempt_ok env (calls w + i) url = false)
  /\ (forall msg, fst run = Raise msg -> msg = "All IPFS gateways failed")
  /\ fst run <> Running.
Proof.
  intros S path_obj run. subst run.
  rewrite (download_unfold _ _ _ _ S). fold path_obj.
  split; [reflexivity|].
  destruct (try_gateways_cases env path_obj (gateways env cid) w)
    as [(i & u & Hn & Hok & Hbefore & Hres & older & Hh & Hw)
       |(Hall & Hres & Hw)];
    destruct (try_gateways env path_obj (gateways env cid) w) as [r w'];
    cbn [fst snd] in *; subst r; cbn [fst snd].
  - split; [|split; [|split]].
    + intros i' u' Hn' Hok' Hbefore'.
      assert (i' = i) as ->.
      { destruct (Nat.lt_trichotomy i' i) as [L|[E|L]]; [|exact E|].
        - rewrite (Hbefore i' u' L Hn') in Hok'. discriminate.
        - rewrite (Hbefore' i u L Hn) in Hok. discriminate. }
      assert (u' = u) as -> by congruence.
      split; [reflexivity|]. rewrite Hh. cbn. now rewrite Hw.
    + split; [discriminate|]. intro Hall. rewrite (Hall i u Hn) in Hok.
      discriminate.
    + discriminate.
    + discriminate.
  - split; [|split; [|split]].
    + intros i u Hn Hok. rewrite (Hall i u Hn) in Hok. discriminate.
    + split; [intros _; exact Hall | reflexivity].
    + now intros msg [= <-].
    + discriminate.
Qed.

Lemma fetch_first_success_or_exhausted_witness :
  startswith "QmSimulated" "QmAbc" = false
  /\ fst (_download_ipfs flaky 7 "QmAbc" genesis) = Ok "/srv/node/Task_7.lean"
  /\ filter is_write (history (snd (_download_ipfs flaky 7 "QmAbc" genesis)))
     = [EvWriteFile "/srv/node/Task_7.lean" "theorem t : True := trivial"].
Proof.
  split; [reflexivity|].
  destruct (fetch_first_success_or_exhausted flaky 7 "QmAbc" genesis eq_refl)
    as (_ & H & _).
  apply (H 2%nat "https://gateway.pinata.cloud/ipfs/QmAbc");
    [reflexivity | reflexivity |].
  intros [|[|j]] u Hj Hu; [reflexivity | reflexivity | lia].
Defined.

(** ** Histories *)

Lemma each_broadcast_split P l :
  each_broadcast P l ->
  forall newer tx older, l = (newer ++ EvBroadcast tx :: older)%list -> P tx older.
Proof.
  intros H newer. revert l H.
  induction newer as [|e newer IH]; intros l H tx older ->.
  - exact (proj1 H).
  - cbn in H. exact (IH _ (proj2 H) tx older eq_refl).
Qed.

Lemma each_broadcast_app P l1 l2 :
  each_broadcast (fun tx o => P tx (o ++ l2)%list) l1 ->
  each_broadcast P l2 ->
  each_broadcast P (l1 ++ l2)%list.
Proof.
  intros H1 H2. induction l1 as [|e l1 IH]; [exact H2|].
  cbn in *. destruct H1 as [He H1]. split; [|now apply IH].
  destruct e; exact He.
Qed.

Lemma each_broadcast_quiet P l :
  forallb (fun e => negb (is_broadcast e)) l = true -> each_broadcast P l.
Proof.
  induction l as [|e l IH]; cbn; [trivial|].
  intro H. apply andb_true_iff in H as [He H]. split; [|now apply IH].
  destruct e; trivial; discriminate.
Qed.

Lemma forallb_weaken {A} (Q Q' : A -> bool) l :
  (forall a, Q a = true -> Q' a = true) ->
  forallb Q l = true -> forallb Q' l = true.
Proof.
  intros H. induction l as [|a l IH]; cbn; [trivial|].
  intro E. apply andb_true_iff in E as [Ea E].
  now rewrite (H a Ea), IH.
Qed.

Lemma silent_quiet l :
  forallb silent l = true -> forallb (fun e => negb (is_broadcast e)) l = true.
Proof.
  apply forallb_weaken. intros e H. now apply andb_true_iff in H as [H _].
Qed.

Lemma silent_no_errors l :
  forallb silent l = true -> filter is_error_log l = [].
Proof.
  induction l as [|e l IH]; cbn; [trivial|].
  intro H. apply andb_true_iff in H as [He H].
  apply andb_true_iff in He as [_ He].
  destruct (is_error_log e); [discriminate | now apply IH].
Qed.

Lemma quiet_no_broadcasts l :
  forallb (fun e => negb (is_broadcast e)) l = true -> filter is_broadcast l = [].
Proof.
  induction l as [|e l IH]; cbn; [trivial|].
  intro H. apply andb_true_iff in H as [He H].
  destruct (is_broadcast e); [discriminate | now apply IH].
Qed.

(** *** Composition of [only] *)

Section Only.

Variable Q : Event -> bool.

Lemma only_ret {A} (a : A) : only Q (ret a).
Proof. intro w. exists []. now repeat split. Qed.

Lemma only_raise {A} msg : only Q (@raise A msg).
Proof. intro w. exists []. now repeat split. Qed.

Lemma only_get_world : only Q get_world.
Proof. intro w. exists []. now repeat split. Qed.

Lemma only_emit e : Q e = true -> only Q (emit e).
Proof. intros H w. exists [e]. cbn. now rewrite H. Qed.

Lemma only_ext env {A} (reply : nat -> World -> A) : only Q (ext env reply).
Proof.
  intro w. exists []. unfold ext. destruct (fault env (calls w)); now repeat split.
Qed.

Lemma only_bind {A B} (m : M A) (k : A -> M B) :
  only Q m -> (forall a, only Q (k a)) -> only Q (bind m k).
Proof.
  intros Hm Hk w. unfold bind.
  destruct (Hm w) as (d & Hd & Qd & Gd).
  destruct (m w) as [[a|msg|] w1]; cbn [snd] in *.
  - destruct (Hk a w1) as (d' & Hd' & Qd' & Gd').
    exists (d' ++ d)%list. rewrite Hd', Hd, app_assoc, forallb_app, Qd', Qd.
    repeat split. congruence.
  - exists d. now repeat split.
  - exists d. now repeat split.
Qed.

Lemma only_try_except {A} (body : M A) (handler : string -> M A) :
  only Q body -> (forall e, only Q (handler e)) -> only Q (try_except body handler).
Proof.
  intros Hm Hk w. unfold try_except.
  destruct (Hm w) as (d & Hd & Qd & Gd).
  destruct (body w) as [[a|msg|] w1]; cbn [snd] in *.
  - exists d. now repeat split.
  - destruct (Hk msg w1) as (d' & Hd' & Qd' & Gd').
    exists (d' ++ d)%list. rewrite Hd', Hd, app_assoc, forallb_app, Qd', Qd.
    repeat split. congruence.
  - exists d. now repeat split.
Qed.

End Only.

Ltac only_step :=
  first [ apply only_ret | apply only_raise | apply only_get_world
        | apply only_ext
        | apply only_emit; reflexivity
        | apply only_bind; [|intro]
        | apply only_try_except; [|intro] ].

Lemma only_try_gateways Q env path_obj urls :
  (forall e, is_broadcast e = false -> is_error_log e = false -> Q e = true) ->
  only Q (try_gateways env path_obj urls).
Proof.
  intro HQ. induction urls as [|url rest IH]; cbn [try_gateways].
  - apply only_ret.
  - apply only_bind; [apply only_emit; now apply HQ|intros _].
    apply only_bind.
    + apply only_try_except; [|intro; apply only_ret].
      apply only_bind.
      * apply only_bind; [apply only_emit; now apply HQ|intros _; apply only_ext].
      * intro resp. destruct (status_code resp =? 200)%Z; [|apply only_ret].
        apply only_bind; [apply only_emit; now apply HQ|intros _].
        apply only_bind; [apply only_emit; now apply HQ|intros _].
        apply only_ret.
    + intros [p|]; [apply only_ret | exact IH].
Qed.

Lemma only_download env task_id cid : only silent (_download_ipfs env task_id cid).
Proof.
  unfold _download_ipfs. destruct (startswith "QmSimulated" cid).
  - unfold log, write_file. repeat only_step.
  - apply only_bind.
    + apply only_try_gateways. intros e B E. unfold silent. now rewrite B, E.
    + intros [p|]; only_step.
Qed.
Lemma only_weaken (Q Q' : Event -> bool) {A} (m : M A) :
  (forall e, Q e = true -> Q' e = true) -> only Q m -> only Q' m.
Proof.
  intros H Hm w. destruct (Hm w) as (d & Hd & Qd & Gd).
  exists d. repeat split; trivial. now apply (forallb_weaken Q).
Qed.

Lemma only_run_docker env file_path :
  only (fun e => negb (is_broadcast e)) (_run_docker env file_path).
Proof.
  unfold _run_docker, log. repeat only_step.
  destruct (classify _) as [[[msg lvl]|] h]; repeat only_step.
Qed.

(** ** Transaction sequencer *)

(** One [_send_tx] run on its own: what it returns, what it leaves in the
    history, and that it never comes back unfinished. *)
Lemma send_tx_outcome env f w :
  exists d,
    SendOutcome env f (fst (_send_tx env f w)) d
    /\ history (snd (_send_tx env f w)) = (d ++ history w)%list
    /\ greedy_mode (snd (_send_tx env f w)) = greedy_mode w.
Proof.
  unfold _send_tx, send_tx_run, send_tx_step, stage.
  unfold get_transaction_count, build_transaction, send_raw_transaction,
    settle, wait_for_transaction_receipt, bind, ext, emit, ret, raise,
    get_world, set_pending.
  cbn.
  destruct (fault env (calls w)) as [m0|]; cbn;
    [exists []; repeat split; constructor|].
  destruct (fault env (S (calls w))) as [m1|]; cbn;
    [exists []; repeat split; constructor|].
  destruct (fault env (S (S (calls w)))) as [m2|]; cbn;
    [exists []; repeat split; constructor|].
  set (tx := mkTx f (address env) (pending w) (gas_price env (S (calls w))) 2000000).
  destruct (fault env (S (S (S (calls w))))) as [m3|]; cbn;
    [exists [EvBroadcast tx]; repeat split; now constructor|].
  rewrite Z.eqb_refl. cbn.
  destruct (fault env (S (S (S (S (calls w)))))) as [m4|]; cbn;
    [exists [EvBroadcast tx]; repeat split; now constructor|].
  set (st := receipt_status env _ _).
  destruct (st =? 1)%Z eqn:E; cbn.
  - apply Z.eqb_eq in E. rewrite E.
    exists [EvReceipt (tx_hash_of env tx) 1; EvBroadcast tx].
    repeat split. now constructor.
  - apply Z.eqb_neq in E.
    exists [EvReceipt (tx_hash_of env tx) st; EvBroadcast tx].
    repeat split. now constructor.
Qed.

(** ** Finalize watcher *)

(** One turn of the waiting loop. *)
Lemma finalize_wait_turn env fuel task_id deadline w :
  finalize_wait env (S fuel) task_id deadline w
  = match fault env (calls w) with
    | Some m =>
        (Raise m, mkWorld (S (calls w)) (pending w) (history w)
                          (running w) (greedy_mode w))
    | None =>
        let now := block_timestamp env (calls w) in
        let wait_seconds := (deadline + 120 - now)%Z in
        if (wait_seconds >? 0)%Z then
          finalize_wait env fuel task_id deadline
            (mkWorld (S (calls w)) (pending w)
                     (EvSleep 5
                      :: (if (wait_seconds mod 30 =? 0)%Z
                          then [EvLog ("Task " ++ str_of_Z task_id ++ ": Waiting "
                                       ++ str_of_Z wait_seconds
                                       ++ "s for finalize window...") INFO]
                          else [])
                      ++ EvBlock now :: history w)%list
                     (running w) (greedy_mode w))
        else
          (Ok tt, mkWorld (S (calls w)) (pending w) (EvBlock now :: history w)
                          (running w) (greedy_mode w))
    end.
Proof.
  cbn [finalize_wait]. unfold bind, ext, emit, log, sleep, ret. cbn [fst snd].
  destruct (fault env (calls w)); [reflexivity|]. cbn.
  destruct (deadline + 120 - block_timestamp env (calls w) >? 0)%Z; [|reflexivity].
  destruct ((deadline + 120 - block_timestamp env (calls w)) mod 30 =? 0)%Z;
    reflexivity.
Qed.

(** The waiting loop adds only clock samples, progress lines and sleeps;
    when it ends, its last event is a clock sample past the window. *)
Lemma finalize_wait_shape env fuel task_id deadline w :
  exists d,
    history (snd (finalize_wait env fuel task_id deadline w)) = (d ++ history w)%list
    /\ forallb silent d = true
    /\ greedy_mode (snd (finalize_wait env fuel task_id deadline w)) = greedy_mode w
    /\ (fst (finalize_wait env fuel task_id deadline w) = Ok tt ->
        exists now d', d = EvBlock now :: d' /\ (deadline + 120 <= now)%Z).
Proof.
  revert w. induction fuel as [|fuel IH]; intro w.
  - exists []. cbn. repeat split. discriminate.
  - rewrite finalize_wait_turn.
    destruct (fault env (calls w)) as [m|].
    { exists []. cbn. repeat split. discriminate. }
    cbv zeta. set (now := block_timestamp env (calls w)).
    destruct (deadline + 120 - now >? 0)%Z eqn:W.
    + set (extra := if (_ mod 30 =? 0)%Z then _ else _).
      assert (forallb silent extra = true) as Sx
          by (subst extra; destruct (_ =? 0)%Z; reflexivity).
      set (w1 := mkWorld _ _ _ _ _).
      destruct (IH w1) as (d & Hd & Sd & Gd & Nd).
      exists (d ++ EvSleep 5 :: extra ++ [EvBlock now])%list.
      split; [|split; [|split]].
      * rewrite Hd. cbn [history w1]. rewrite <- !app_assoc. cbn.
        now rewrite <- app_assoc.
      * rewrite forallb_app, Sd. cbn. now rewrite forallb_app, Sx.
      * exact Gd.
      * intro R. destruct (Nd R) as (n & d' & -> & Hn).
        exists n, (d' ++ EvSleep 5 :: extra ++ [EvBlock now])%list. now split.
    + exists [EvBlock now]. cbn. repeat split.
      intros _. exists now, []. split; [reflexivity|].
      rewrite Z.gtb_ltb in W. apply Z.ltb_ge in W. lia.
Qed.


Lemma each_broadcast_after_window env task_id deadline top ds m now d' r :
  SendOutcome env (finalizeTask task_id) r ds ->
  forallb (fun e => negb (is_broadcast e)) top = true ->
  forallb silent d' = true ->
  (deadline + 120 <= now)%Z ->
  each_broadcast
    (fun tx older =>
       tx_call tx = finalizeTask task_id
       /\ exists t rest, filter is_block older = EvBlock t :: rest
                         /\ (deadline + 120 <= t)%Z)
    (top ++ ds ++ EvLog m WARN :: EvBlock now :: d')%list
  /\ (List.length (filter is_broadcast
                     (top ++ ds ++ EvLog m WARN :: EvBlock now :: d')%list) <= 1)%nat
  /\ filter is_error_log (ds ++ EvLog m WARN :: EvBlock now :: d')%list = [].
Proof.
  intros O St Sd Hn.
  assert (filter is_broadcast top = []) as Bt
      by (apply quiet_no_broadcasts, St).
  assert (filter is_broadcast d' = []) as Bd
      by (apply quiet_no_broadcasts, silent_quiet, Sd).
  pose proof (silent_no_errors _ Sd) as Ed.
  split; [|split].
  - apply each_broadcast_app; [apply each_broadcast_quiet, St|].
    inversion O; subst; cbn; repeat split; trivial;
      try (exists now; eexists; split; [reflexivity | exact Hn]);
      apply each_broadcast_quiet, silent_quiet, Sd.
  - rewrite !filter_app, Bt. cbn. rewrite Bd.
    inversion O; subst; cbn; lia.
  - rewrite !filter_app. cbn. rewrite Ed.
    inversion O; subst; reflexivity.
Qed.

(** The [try] suite of the watcher, by what happened: either it handed
    nothing to the ledger and did not succeed, or it went through the
    window and then through one [_send_tx]. *)
Lemma auto_finalize_try_cases env fuel task_id w :
  let deadline := tasks_deadline env (calls w) task_id in
  let attempt := auto_finalize_try env fuel task_id w in
  (exists d, history (snd attempt) = (d ++ history w)%list
             /\ forallb silent d = true
             /\ fst attempt <> Ok tt)
  \/ (exists top ds m now d' r,
         history (snd attempt)
         = ((top ++ ds ++ EvLog m WARN :: EvBlock now :: d') ++ history w)%list
         /\ SendOutcome env (finalizeTask task_id) r ds
         /\ forallb silent d' = true
         /\ (deadline + 120 <= now)%Z
         /\ ((exists rc succ, r = Ok rc /\ fst attempt = Ok tt
                              /\ top = [EvLog succ INFO])
             \/ (exists msg, r = Raise msg /\ fst attempt = Raise msg /\ top = []))).
Proof.
  intros deadline attempt. subst attempt.
  unfold auto_finalize_try, bind, ext, log, emit.
  destruct (fault env (calls w)) as [m0|]; cbv beta iota.
  { left. exists []. split; [reflexivity|]. split; [reflexivity|]. discriminate. }
  fold deadline. set (w1 := mkWorld _ _ _ _ _).
  destruct (finalize_wait_shape env fuel task_id deadline w1)
    as (d2 & H2 & S2 & G2 & N2).
  destruct (finalize_wait env fuel task_id deadline w1) as [[[]|m|] w2];
    cbn [fst snd] in *; cbv beta iota.
  - destruct (N2 eq_refl) as (now & d' & -> & Hn).
    cbn in S2.
    set (w3 := mkWorld _ _ _ _ _).
    destruct (send_tx_outcome env (finalizeTask task_id) w3) as (ds & O & Hs & Gs).
    destruct (_send_tx env (finalizeTask task_id) w3) as [r w4];
      cbn [fst snd] in *.
    right. inversion O; subst r; cbv beta iota.
    + exists [], ds. do 4 eexists. subst ds. cbn. rewrite Hs.
      cbn [history w3]. rewrite H2. cbn.
      split; [reflexivity|]. split; [exact O|]. split; [exact S2|].
      split; [exact Hn|]. right. eexists. repeat split.
    + exists [], ds. do 4 eexists. subst ds. cbn. rewrite Hs.
      cbn [history w3]. rewrite H2. cbn.
      split; [reflexivity|]. split; [exact O|]. split; [exact S2|].
      split; [exact Hn|]. right. eexists. repeat split.
    + exists [], ds. do 4 eexists. subst ds. cbn. rewrite Hs.
      cbn [history w3]. rewrite H2. cbn.
      split; [reflexivity|]. split; [exact O|]. split; [exact S2|].
      split; [exact Hn|]. right. eexists. repeat split.
    + eexists [_], ds. do 4 eexists. subst ds. cbn. rewrite Hs.
      cbn [history w3]. rewrite H2. cbn.
      split; [reflexivity|]. split; [exact O|]. split; [exact S2|].
      split; [exact Hn|]. left. do 2 eexists. repeat split.
  - left. exists d2. repeat split; trivial. discriminate.
  - left. exists d2. repeat split; trivial. discriminate.
Qed.

(** C5.  Whatever the ledger answers, in one run of the finalize watcher:
    every transaction it hands over is the finalize call for its task, and
    the latest chain-time sample taken before the hand-over is at least
    [deadline + 120]; it hands over at most one transaction, and exactly
    one (settled with status 1) when the [try] suite completes; when the
    suite raises a text containing ["already finalized"] the watcher
    returns normally, reports it at INFO level and logs no error; and no
    exception leaves the watcher. *)
Theorem finalize_watcher env fuel task_id w :
  let deadline := tasks_deadline env (calls w) task_id in
  let attempt := auto_finalize_try env fuel task_id w in
  let run := _auto_finalize env fuel task_id w in
  exists d,
    history (snd run) = (d ++ history w)%list
    /\ (forall newer tx older,
           d = (newer ++ EvBroadcast tx :: older)%list ->
           tx_call tx = finalizeTask task_id
           /\ exists now rest,
               filter is_block older = EvBlock now :: rest
               /\ (deadline + 120 <= now)%Z)
    /\ (List.length (filter is_broadcast d) <= 1)%nat
    /\ (fst attempt = Ok tt ->
        exists tx, filter is_broadcast d = [EvBroadcast tx]
                   /\ tx_call tx = finalizeTask task_id
                   /\ In (EvReceipt (tx_hash_of env tx) 1) d)
    /\ (forall msg,
           fst attempt = Raise msg ->
           contains "already finalized" msg = true ->
           fst run = Ok tt
           /\ hd_error d
              = Some (EvLog ("Task " ++ str_of_Z task_id ++ " already finalized.") INFO)
           /\ filter is_error_log d = [])
    /\ (forall msg, fst run <> Raise msg).
Proof.
  intros deadline attempt run. subst run. unfold _auto_finalize, try_except.
  fold attempt.
  destruct (auto_finalize_try_cases env fuel task_id w)
    as [(d & Hd & Sd & Nd)
       |(top & ds & m & now & d' & r & Hd & O & Sd & Hn & Hr)];
    fold attempt in Hd.
  - fold attempt in Nd.
    destruct attempt as [[[]|msg|] w']; cbn [fst snd] in *.
    + now elim Nd.
    + set (lvl := if contains "already finalized" msg then INFO else ERROR).
      set (txt := if contains "already finalized" msg
                  then ("Task " ++ str_of_Z task_id ++ " already finalized.")%string
                  else ("Auto-finalize error: " ++ msg)%string).
      exists (EvLog txt lvl :: d).
      assert (forallb (fun e => negb (is_broadcast e)) (EvLog txt lvl :: d) = true)
        as Q by (cbn; apply silent_quiet, Sd).
      split; [|split; [|split; [|split; [|split]]]].
      * subst txt lvl. destruct (contains "already finalized" msg);
          cbn; now rewrite Hd.
      * now apply each_broadcast_split, each_broadcast_quiet.
      * rewrite (quiet_no_broadcasts _ Q). cbn. lia.
      * discriminate.
      * intros msg' [= <-] C. subst txt lvl. rewrite C. cbn.
        repeat split. apply silent_no_errors, Sd.
      * intros msg'. destruct (contains "already finalized" msg); discriminate.
    + exists d. split; [exact Hd|].
      split; [now apply each_broadcast_split, each_broadcast_quiet, silent_quiet|].
      split; [rewrite (quiet_no_broadcasts _ (silent_quiet _ Sd)); cbn; lia|].
      split; [discriminate|]. split; [discriminate|]. discriminate.
  - fold attempt in Hr. fold deadline in Hn.
    destruct Hr as [(rc & succ & -> & Ha & ->)|(msg & -> & Ha & ->)];
      destruct attempt as [ra w']; cbn [fst snd] in *; subst ra.
    + destruct (each_broadcast_after_window
                  env task_id deadline [EvLog succ INFO] ds m now d' _
                  O eq_refl Sd Hn) as (E1 & E2 & E3).
      eexists. split; [exact Hd|].
      split; [now apply each_broadcast_split|].
      split; [exact E2|].
      split; [|split; [discriminate | discriminate]].
      intros _. inversion O; subst. exists tx.
      cbn. rewrite (quiet_no_broadcasts _ (silent_quiet _ Sd)).
      split; [reflexivity|]. split; [assumption|]. right. left. reflexivity.
    + set (lvl := if contains "already finalized" msg then INFO else ERROR).
      set (txt := if contains "already finalized" msg
                  then ("Task " ++ str_of_Z task_id ++ " already finalized.")%string
                  else ("Auto-finalize error: " ++ msg)%string).
      destruct (each_broadcast_after_window
                  env task_id deadline [EvLog txt lvl] ds m now d' _
                  O eq_refl Sd Hn) as (E1 & E2 & E3).
      exists ([EvLog txt lvl] ++ ds ++ EvLog m WARN :: EvBlock now :: d')%list.
      split; [|split; [|split; [|split; [|split]]]].
      * subst txt lvl. destruct (contains "already finalized" msg);
          cbn; rewrite Hd; reflexivity.
      * now apply each_broadcast_split.
      * exact E2.
      * discriminate.
      * intros msg' [= <-] C. subst txt lvl. rewrite C. cbn.
        repeat split. exact E3.
      * intros msg'. destruct (contains "already finalized" msg); discriminate.
Qed.

Lemma finalize_watcher_witness :
  fst (auto_finalize_try ticking 5 7 genesis) = Ok tt
  /\ exists tx,
      filter is_broadcast (history (snd (_auto_finalize ticking 5 7 genesis)))
      = [EvBroadcast tx]
      /\ tx_call tx = finalizeTask 7.
Proof.
  split; [vm_compute; reflexivity|].
  destruct (finalize_watcher ticking 5 7 genesis) as (d & Hd & _ & _ & H & _).
  rewrite Hd. cbn [history genesis]. rewrite app_nil_r.
  destruct H as (tx & Hb & Hc & _); [vm_compute; reflexivity|].
  exists tx. split; assumption.
Defined.

(** The run behind the witness: two clock samples, the second past the
    window (deadline 1000), then one finalize transaction that settles. *)
Example finalize_run :
  without_logs (timeline (snd (_auto_finalize ticking 5 7 genesis)))
  = [EvBlock 1060; EvSleep 5; EvBlock 1120;
     EvBroadcast (mkTx (finalizeTask 7) "0xA11CE" 0 7 2000000);
     EvReceipt [x00] 1].
Proof. vm_compute. reflexivity. Qed.

(** A refusal that says the task is already finalized ends the watcher
    normally, with an INFO line and no ERROR line. *)
Example finalize_refused_as_already_finalized :
  fst (_auto_finalize finalized_elsewhere 5 7 genesis) = Ok tt
  /\ hd_error (history (snd (_auto_finalize finalized_elsewhere 5 7 genesis)))
     = Some (EvLog "Task 7 already finalized." INFO)
  /\ filter is_error_log
            (history (snd (_auto_finalize finalized_elsewhere 5 7 genesis))) = [].
Proof. repeat split; vm_compute; reflexivity. Qed.


(** ** Task lifecycle *)

Ltac list_eq :=
  repeat (progress (rewrite <- ?app_assoc; cbn [List.app])); reflexivity.

(** One run of [_process_task], by how far it got: it stopped before the
    commit; or the commit did not settle; or the commit settled and the
    reveal was built and sent after the pause, unless its arguments were
    refused. *)
Lemma process_task_cases env task_id cid w :
  let run := _process_task env task_id cid w in
  (exists d, history (snd run) = (d ++ history w)%list /\ forallb quiet d = true)
  \/ (exists top dsc m1 dpre c msg,
         history (snd run) = ((top ++ dsc ++ EvLog m1 INFO :: dpre) ++ history w)%list
         /\ forallb quiet top = true
         /\ forallb quiet dpre = true
         /\ SendOutcome env (commitResult task_id c) (Raise msg) dsc)
  \/ (exists top dsr r m3 m2 dsc rc m1 dpre c result_hash salt,
         history (snd run)
         = ((top ++ dsr ++ EvLog m3 INFO :: EvSleep 5 :: EvLog m2 INFO
                 :: dsc ++ EvLog m1 INFO :: dpre) ++ history w)%list
         /\ forallb quiet top = true
         /\ forallb quiet dpre = true
         /\ SendOutcome env (commitResult task_id c) (Ok rc) dsc
         /\ SendOutcome env (revealResult task_id result_hash salt) r dsr
         /\ solidity_keccak result_hash salt = Some c
         /\ (dsr = [] \/ fits_abi (revealResult task_id result_hash salt) = true)).
Proof.
  intro run. subst run.
  unfold _process_task, try_except, contract_function, bind, ext, log, sleep,
    emit, get_world, ret, raise.
  destruct (only_download env task_id cid w) as (d1 & H1 & S1 & _).
  apply silent_quiet in S1. fold quiet in S1.
  destruct (_download_ipfs env task_id cid w) as [[file_path|e|] w1];
    cbn [fst snd] in *; cbv beta iota;
    [ | left; exists (EvLog ("Task " ++ str_of_Z task_id ++ " failed: " ++ e)%string
                            ERROR :: d1); cbn; rewrite H1; now split
      | left; exists d1; now split ].
  destruct (only_run_docker env file_path w1) as (d2 & H2 & S2 & _).
  fold quiet in S2.
  assert (forallb quiet (d2 ++ d1) = true) as S21 by now rewrite forallb_app, S2, S1.
  destruct (_run_docker env file_path w1) as [[result_hash|e|] w2];
    cbn [fst snd] in *; cbv beta iota;
    [ | left; exists (EvLog ("Task " ++ str_of_Z task_id ++ " failed: " ++ e)%string
                            ERROR :: d2 ++ d1)%list; cbn;
        rewrite H2, H1, app_assoc; now split
      | left; exists (d2 ++ d1)%list; rewrite H2, H1, app_assoc; now split ].
  destruct (fault env (calls w2)) as [e|]; cbv beta iota;
    [ left; exists (EvLog ("Task " ++ str_of_Z task_id ++ " failed: " ++ e)%string
                          ERROR :: d2 ++ d1)%list; cbn;
      rewrite H2, H1, app_assoc; now split | ].
  set (salt := urandom env (calls w2)).
  destruct (solidity_keccak result_hash salt) as [c|] eqn:K; cbv beta iota;
    [ | left; eexists (EvLog _ ERROR :: d2 ++ d1)%list; cbn;
        rewrite H2, H1, app_assoc; now split ].
  destruct (fits_abi (commitResult task_id c)) eqn:Vc; cbv beta iota;
    [ | left; eexists (EvLog _ ERROR :: EvLog _ INFO :: d2 ++ d1)%list; cbn;
        rewrite H2, H1, app_assoc; now split ].
  set (w5 := mkWorld _ _ _ _ _).
  destruct (send_tx_outcome env (commitResult task_id c) w5) as (dsc & Oc & Hc & _).
  destruct (_send_tx env (commitResult task_id c) w5) as [[rc|e|] w6];
    cbn [fst snd] in *; cbv beta iota.
  - assert (forall tail,
               (EvLog ("Revealing task " ++ str_of_Z task_id ++ "...")%string INFO
                :: EvSleep 5
                :: EvLog ("Waiting to reveal task " ++ str_of_Z task_id ++ "...")%string INFO
                :: history w6) = tail ->
               tail
               = (EvLog ("Revealing task " ++ str_of_Z task_id ++ "...")%string INFO
                  :: EvSleep 5
                  :: EvLog ("Waiting to reveal task " ++ str_of_Z task_id ++ "...")%string INFO
                  :: dsc
                  ++ EvLog ("Committing task " ++ str_of_Z task_id ++ "...")%string INFO
                  :: (d2 ++ d1) ++ history w)%list) as H9.
    { intros tail <-. rewrite Hc. cbn [history w5]. rewrite H2, H1. list_eq. }
    right. right.
    destruct (fits_abi (revealResult task_id result_hash salt)) eqn:Vr;
      cbv beta iota.
    + set (w9 := mkWorld _ _ _ _ _).
      destruct (send_tx_outcome env (revealResult task_id result_hash salt) w9)
        as (dsr & Or & Hr & _).
      specialize (H9 (history w9) eq_refl).
      destruct (_send_tx env (revealResult task_id result_hash salt) w9)
        as [[rr|e|] w10]; cbn [fst snd] in *; cbv beta iota.
      * destruct (greedy_mode w10); cbn [fst snd history]; rewrite Hr, H9.
        -- eexists [_; _; _], dsr, _, _, _, dsc, rc, _, (d2 ++ d1)%list,
             c, result_hash, salt.
           split; [list_eq|]. split; [exact eq_refl|]. split; [exact S21|].
           split; [exact Oc|]. split; [exact Or|]. split; [exact K | now right].
        -- eexists [_; _], dsr, _, _, _, dsc, rc, _, (d2 ++ d1)%list,
             c, result_hash, salt.
           split; [list_eq|]. split; [exact eq_refl|]. split; [exact S21|].
           split; [exact Oc|]. split; [exact Or|]. split; [exact K | now right].
      * cbn [fst snd history]; rewrite Hr, H9.
        eexists [_], dsr, _, _, _, dsc, rc, _, (d2 ++ d1)%list,
          c, result_hash, salt.
        split; [list_eq|]. split; [exact eq_refl|]. split; [exact S21|].
        split; [exact Oc|]. split; [exact Or|]. split; [exact K | now right].
      * rewrite Hr, H9.
        exists [], dsr. eexists _, _, _, dsc, rc, _, (d2 ++ d1)%list,
          c, result_hash, salt.
        split; [list_eq|]. split; [exact eq_refl|]. split; [exact S21|].
        split; [exact Oc|]. split; [exact Or|]. split; [exact K | now right].
    + cbn [fst snd history]. rewrite (H9 _ eq_refl).
      eexists [_], [], (Raise abi_mismatch), _, _, dsc, rc, _, (d2 ++ d1)%list,
        c, result_hash, salt.
      split; [list_eq|]. split; [exact eq_refl|]. split; [exact S21|].
      split; [exact Oc|]. split; [apply so_early|]. split; [exact K | now left].
  - right. left. cbn [fst snd history]. rewrite Hc. cbn [history w5].
    rewrite H2, H1.
    eexists [_], dsc, _, (d2 ++ d1)%list, c, e.
    split; [list_eq|]. split; [exact eq_refl|]. split; [exact S21|]. exact Oc.
  - inversion Oc.
Qed.

Lemma reveal_guard_commit env task_id tx older c :
  tx_call tx = commitResult task_id c -> reveal_guard env task_id tx older.
Proof. intros H id' rh salt E. congruence. Qed.

Ltac walk :=
  repeat (cbn [each_broadcast List.app];
          match goal with
          | |- True /\ _ => split; [exact I|]
          | |- reveal_guard _ _ _ _ /\ _ => split
          end).

Lemma process_task_reveal_guard env task_id cid w :
  exists d,
    history (snd (_process_task env task_id cid w)) = (d ++ history w)%list
    /\ each_broadcast (reveal_guard env task_id) d.
Proof.
  destruct (process_task_cases env task_id cid w)
    as [(d & Hd & Qd)
       |[(top & dsc & m1 & dpre & c & msg & Hd & Qt & Qp & Oc)
        |(top & dsr & r & m3 & m2 & dsc & rc & m1 & dpre & c & rh & salt
          & Hd & Qt & Qp & Oc & Or & K & V)]];
    eexists; (split; [exact Hd|]).
  - now apply each_broadcast_quiet.
  - apply each_broadcast_app; [now apply each_broadcast_quiet|].
    inversion Oc; subst; walk;
      try (eapply reveal_guard_commit; eassumption);
      now apply each_broadcast_quiet.
  - apply each_broadcast_app; [now apply each_broadcast_quiet|].
    inversion Oc; subst. clear Oc.
    assert (each_broadcast (reveal_guard env task_id)
              (EvLog m3 INFO :: EvSleep 5 :: EvLog m2 INFO
               :: [EvReceipt (tx_hash_of env tx) 1; EvBroadcast tx]
               ++ EvLog m1 INFO :: dpre)%list) as Tail.
    { walk; [eapply reveal_guard_commit; eassumption
            | now apply each_broadcast_quiet]. }
    destruct V as [->|V]; [exact Tail|].
    assert (is_bytes32 rh = true) as B.
    { cbn [fits_abi] in V. apply andb_true_iff in V as [V _].
      now apply andb_true_iff in V as [_ V]. }
    assert (forall rtx, tx_call rtx = revealResult task_id rh salt ->
                        reveal_guard env task_id rtx
                          (EvLog m3 INFO :: EvSleep 5 :: EvLog m2 INFO
                           :: [EvReceipt (tx_hash_of env tx) 1; EvBroadcast tx]
                           ++ EvLog m1 INFO :: dpre)%list) as Rev.
    { intros rtx Hr id' rh' salt' E. rewrite Hr in E. injection E as <- <- <-.
      split; [reflexivity|].
      exists [EvLog m3 INFO], [EvLog m2 INFO], [], (EvLog m1 INFO :: dpre), tx, c.
      split; [reflexivity|]. split; [assumption|]. split; [exact K | exact B]. }
    cbn [List.app] in Tail, Rev |- *.
    set (tail := (EvLog m3 INFO :: _)%list) in *. clearbody tail.
    inversion Or; subst; cbn [List.app each_broadcast];
      repeat (split; [first [exact I | now apply Rev]|]); exact Tail.
Qed.

(** C2.  In every run of [_process_task], a reveal handed to the ledger is
    for the task being processed and carries a pair [(result_hash, salt)]
    such that a commit for the same task was handed over before it, whose
    commitment is [Web3.solidity_keccak] of that very pair, i.e. the
    Keccak-256 digest of the result hash bytes followed by the salt. *)
Theorem reveal_reproduces_commitment env task_id cid w :
  exists d,
    history (snd (_process_task env task_id cid w)) = (d ++ history w)%list
    /\ forall newer tx older id' result_hash salt,
        d = (newer ++ EvBroadcast tx :: older)%list ->
        tx_call tx = revealResult id' result_hash salt ->
        id' = task_id
        /\ exists between ctx earlier commitment preimage,
            older = (between ++ EvBroadcast ctx :: earlier)%list
            /\ tx_call ctx = commitResult task_id commitment
            /\ solidity_keccak result_hash salt = Some commitment
            /\ bytes_of_hash result_hash = Some preimage
            /\ commitment = Keccak.keccak256 (preimage ++ salt).
Proof.
  destruct (process_task_reveal_guard env task_id cid w) as (d & Hd & G).
  exists d. split; [exact Hd|].
  intros newer tx older id' rh salt Hsplit Hcall.
  destruct (each_broadcast_split _ _ G newer tx older Hsplit id' rh salt Hcall)
    as (Hid & a & b & c & e & ctx & cm & Ho & Hc & K & B).
  split; [exact Hid|].
  destruct (solidity_keccak_bytes32 rh salt B) as (pre & Hpre & _ & K').
  exists (a ++ EvSleep 5 :: b ++ EvReceipt (tx_hash_of env ctx) 1 :: c)%list,
    ctx, e, cm, pre.
  split; [rewrite Ho; list_eq|]. split; [exact Hc|]. split; [exact K|].
  split; [exact Hpre|]. rewrite K' in K. now injection K as <-.
Qed.

Lemma reveal_reproduces_commitment_witness :
  calm_run = (firstn 3 calm_run ++ EvBroadcast (tx_at 3 calm_run)
                     :: skipn 4 calm_run)%list
  /\ tx_call (tx_at 3 calm_run)
     = revealResult 7 (HexBytes (Web3_keccak_text "abc123")) (repeat x2a 32)
  /\ exists between ctx earlier commitment,
      skipn 4 calm_run = (between ++ EvBroadcast ctx :: earlier)%list
      /\ tx_call ctx = commitResult 7 commitment
      /\ solidity_keccak (HexBytes (Web3_keccak_text "abc123")) (repeat x2a 32)
         = Some commitment.
Proof.
  assert (calm_run = (firstn 3 calm_run ++ EvBroadcast (tx_at 3 calm_run)
                             :: skipn 4 calm_run)%list) as S
      by (vm_compute; reflexivity).
  assert (tx_call (tx_at 3 calm_run)
          = revealResult 7 (HexBytes (Web3_keccak_text "abc123")) (repeat x2a 32))
    as C by (vm_compute; reflexivity).
  split; [exact S|]. split; [exact C|].
  destruct (reveal_reproduces_commitment calm 7 "QmAbc" genesis) as (d & Hd & H).
  assert (calm_run = d) as E
      by (unfold calm_run; rewrite Hd; apply app_nil_r).
  subst d. clear Hd.
  destruct (H _ _ _ _ _ _ S C) as (_ & between & ctx & earlier & cm & _ & Ho & Hc & K & _).
  exists between, ctx, earlier, cm. split; [exact Ho|]. split; [exact Hc | exact K].
Defined.

(** C3.  In every run of [_process_task], before a reveal is handed to the
    ledger the following happened, in this order: the commit for the same
    task was handed over, its receipt came back with status 1, and the node
    slept for 5 seconds.  (Histories are newest first: [e] is the oldest
    part, [a] the part right before the reveal.)  So no reveal is handed
    over when the commit did not settle with status 1. *)
Theorem reveal_follows_settled_commit env task_id cid w :
  exists d,
    history (snd (_process_task env task_id cid w)) = (d ++ history w)%list
    /\ forall newer tx older id' result_hash salt,
        d = (newer ++ EvBroadcast tx :: older)%list ->
        tx_call tx = revealResult id' result_hash salt ->
        exists a b c e ctx commitment,
          older = (a ++ EvSleep 5 :: b ++ EvReceipt (tx_hash_of env ctx) 1
                     :: c ++ EvBroadcast ctx :: e)%list
          /\ tx_call ctx = commitResult task_id commitment.
Proof.
  destruct (process_task_reveal_guard env task_id cid w) as (d & Hd & G).
  exists d. split; [exact Hd|].
  intros newer tx older id' rh salt Hsplit Hcall.
  destruct (each_broadcast_split _ _ G newer tx older Hsplit id' rh salt Hcall)
    as (Hid & a & b & c & e & ctx & cm & Ho & Hc & K).
  exists a, b, c, e, ctx, cm. split; [exact Ho | exact Hc].
Qed.

Lemma reveal_follows_settled_commit_witness :
  calm_run = (firstn 3 calm_run ++ EvBroadcast (tx_at 3 calm_run)
                     :: skipn 4 calm_run)%list
  /\ tx_call (tx_at 3 calm_run)
     = revealResult 7 (HexBytes (Web3_keccak_text "abc123")) (repeat x2a 32)
  /\ exists a b c e ctx commitment,
      skipn 4 calm_run
      = (a ++ EvSleep 5 :: b ++ EvReceipt (tx_hash_of calm ctx) 1
           :: c ++ EvBroadcast ctx :: e)%list
      /\ tx_call ctx = commitResult 7 commitment.
Proof.
  assert (calm_run = (firstn 3 calm_run ++ EvBroadcast (tx_at 3 calm_run)
                             :: skipn 4 calm_run)%list) as S
      by (vm_compute; reflexivity).
  assert (tx_call (tx_at 3 calm_run)
          = revealResult 7 (HexBytes (Web3_keccak_text "abc123")) (repeat x2a 32))
    as C by (vm_compute; reflexivity).
  split; [exact S|]. split; [exact C|].
  destruct (reveal_follows_settled_commit calm 7 "QmAbc" genesis) as (d & Hd & H).
  assert (calm_run = d) as E
      by (unfold calm_run; rewrite Hd; apply app_nil_r).
  subst d. clear Hd.
  exact (H _ _ _ _ _ _ S C).
Defined.

(** The calm run without its log lines: fetch, verify, commit, settle,
    pause, reveal, settle. *)
Example calm_run_in_order :
  map (fun e => match e with
                | EvBroadcast tx => EvBroadcast (mkTx faucet "" (tx_nonce tx) 0 0)
                | _ => e
                end)
      (without_logs (rev calm_run))
  = [EvHttpGet "https://cloudflare-ipfs.com/ipfs/QmAbc";
     EvWriteFile "/srv/node/Task_7.lean" "theorem t : True := trivial";
     EvSubprocess ["docker"; "run"; "--rm"; "--network"; "none"; "--cpus"; "2";
                   "--memory"; "8g"; "-v";
                   "/srv/node/Task_7.lean:/data/Task.lean";
                   "apodeixis-validator:v0.12"];
     EvBroadcast (mkTx faucet "" 0 0 0);
     EvReceipt [x00] 1;
     EvSleep 5;
     EvBroadcast (mkTx faucet "" 1 0 0);
     EvReceipt [x01] 1].
Proof. vm_compute. reflexivity. Qed.


(** ** Start-up *)

Lemma start_prologue_runs w :
  fst (start_prologue w) = Ok tt
  /\ running (snd (start_prologue w)) = true.
Proof. unfold start_prologue, bind, set_running, get_world, log, emit. now cbn. Qed.

(** The polling loop deals with its own errors: nothing is raised out of
    it, whatever the ledger does. *)
Lemma poll_handles_its_errors env fuel w msg :
  fst (poll env fuel w) <> Raise msg.
Proof.
  revert w. induction fuel as [|fuel IH]; intro w; cbn [poll].
  - destruct (running w); discriminate.
  - destruct (running w); [|discriminate].
    unfold bind at 1.
    destruct (try_except _ _ w) as [[[]|e|] w1] eqn:T.
    + apply IH.
    + exfalso. revert T. unfold try_except, bind at 1.
      destruct (ext env _ w) as [[entries|e0|] w2].
      * unfold bind at 1.
        destruct (dispatch env entries w2) as [[[]|e1|] w3] eqn:D.
        -- unfold sleep, emit. discriminate.
        -- unfold bind, log, sleep, emit. discriminate.
        -- discriminate.
      * unfold bind, log, sleep, emit. discriminate.
      * discriminate.
    + discriminate.
Qed.

Lemma start_unfold env fuel w :
  start env fuel w
  = match start_try env fuel (snd (start_prologue w)) with
    | (Ok a, w') => (Ok a, w')
    | (Raise msg, w') =>
        (Ok tt, mkWorld (calls w') (pending w')
                        (EvLog ("Fatal Error: " ++ msg) ERROR :: history w')
                        false (greedy_mode w'))
    | (Running, w') => (Running, w')
    end.
Proof.
  unfold start, start_prologue, try_except, bind, set_running, get_world,
    log, emit.
  cbn [fst snd].
  destruct (start_try env fuel _) as [[[]|e|] w1]; reflexivity.
Qed.

(** C10.  No exception leaves [start]: whatever the ledger does and however
    long the loop runs, [start] does not raise a message; and when the
    [try] suite (registration, then the event loop) raises [msg], [start]
    returns normally, its last log entry is ["Fatal Error: " ++ msg] at
    ERROR level and the running flag is [false].  (Errors that the polling
    loop or the tolerated approval handle themselves never reach [start].) *)
Theorem start_contains_errors env fuel w :
  (forall msg, fst (start env fuel w) <> Raise msg)
  /\ forall msg,
      fst (start_try env fuel (snd (start_prologue w))) = Raise msg ->
      fst (start env fuel w) = Ok tt
      /\ running (snd (start env fuel w)) = false
      /\ hd_error (history (snd (start env fuel w)))
         = Some (EvLog ("Fatal Error: " ++ msg) ERROR).
Proof.
  rewrite start_unfold.
  destruct (start_try env fuel (snd (start_prologue w))) as [[[]|e|] w1];
    cbn [fst snd running history hd_error].
  - split; [discriminate|]. discriminate.
  - split; [discriminate|]. now intros msg [= <-].
  - split; [discriminate|]. discriminate.
Qed.

Lemma start_contains_errors_witness :
  fst (start_try offline 3 (snd (start_prologue genesis)))
  = Raise "connection refused"
  /\ fst (start offline 3 genesis) = Ok tt
  /\ running (snd (start offline 3 genesis)) = false
  /\ hd_error (history (snd (start offline 3 genesis)))
     = Some (EvLog "Fatal Error: connection refused" ERROR).
Proof.
  assert (fst (start_try offline 3 (snd (start_prologue genesis)))
          = Raise "connection refused") as R by (vm_compute; reflexivity).
  split; [exact R|].
  exact (proj2 (start_contains_errors offline 3 genesis) _ R).
Defined.

(** ** Concurrent submissions *)


(** One submit run on its own in a world without faults: one transaction
    with the pending count as nonce, one receipt, and the count goes up. *)
Lemma send_tx_run_alone env f w :
  (forall k, fault env k = None) ->
  exists r tx st,
    send_tx_run env 4 (at_nonce f) w
    = (finished r,
       mkWorld (5 + calls w) (pending w + 1)
               (EvReceipt (tx_hash_of env tx) st :: EvBroadcast tx :: history w)
               (running w) (greedy_mode w))
    /\ tx_nonce tx = pending w
    /\ tx_call tx = f.
Proof.
  intro NF.
  unfold send_tx_run, send_tx_step, stage.
  unfold get_transaction_count, build_transaction, send_raw_transaction,
    settle, wait_for_transaction_receipt, bind, ext, emit, ret, raise,
    get_world, set_pending.
  cbn. rewrite !NF. cbn. rewrite Z.eqb_refl. cbn. rewrite NF. cbn.
  set (tx := mkTx f (address env) (pending w) (gas_price env (S (calls w))) 2000000).
  set (st := receipt_status env _ _).
  destruct (st =? 1)%Z; cbn; do 3 eexists; (split; [reflexivity|]); now split.
Qed.

Lemma step_nth_at env pre c rest w :
  step_nth env (List.length pre) (pre ++ c :: rest) w
  = ((pre ++ fst (send_tx_step env c w) :: rest)%list, snd (send_tx_step env c w)).
Proof.
  induction pre as [|p pre IH]; cbn [List.length List.app step_nth].
  - now destruct (send_tx_step env c w).
  - rewrite IH. reflexivity.
Qed.

Lemma run_schedule_repeat env n pre c rest w :
  run_schedule env (repeat (List.length pre) n) (pre ++ c :: rest) w
  = ((pre ++ fst (send_tx_run env n c w) :: rest)%list,
     snd (send_tx_run env n c w)).
Proof.
  revert c w. induction n as [|n IH]; intros c w; [reflexivity|].
  cbn [repeat run_schedule send_tx_run]. rewrite step_nth_at.
  destruct (send_tx_step env c w) as [c' w']. cbn [fst snd]. apply IH.
Qed.









Lemma others_idle_at pre c rest :
  others_idle (List.length pre) (pre ++ c :: rest)
  = forallb (fun c' => negb (holds_nonce c')) pre
    && forallb (fun c' => negb (holds_nonce c')) rest.
Proof.
  induction pre as [|p pre IH]; cbn [List.length List.app others_idle forallb].
  - reflexivity.
  - rewrite IH. now rewrite andb_assoc.
Qed.

Lemma non_overlapping_app env s1 s2 pool w :
  non_overlapping env (s1 ++ s2) pool w
  = non_overlapping env s1 pool w
    && non_overlapping env s2 (fst (run_schedule env s1 pool w))
                       (snd (run_schedule env s1 pool w)).
Proof.
  revert pool w. induction s1 as [|i s1 IH]; intros pool w; [reflexivity|].
  cbn [List.app non_overlapping run_schedule].
  destruct (step_nth env i pool w) as [pool' w'].
  now rewrite IH, andb_assoc.
Qed.

Lemma non_overlapping_repeat env n pre c rest w :
  forallb (fun c' => negb (holds_nonce c')) pre = true ->
  forallb (fun c' => negb (holds_nonce c')) rest = true ->
  non_overlapping env (repeat (List.length pre) n) (pre ++ c :: rest) w = true.
Proof.
  intros Ip Ir. revert c w. induction n as [|n IH]; intros c w; [reflexivity|].
  cbn [repeat non_overlapping]. rewrite others_idle_at, Ip, Ir, step_nth_at.
  apply IH.
Qed.

(** Running the calls one after the other is one way of not overlapping. *)
Lemma sequential_from_non_overlapping env func_calls pre w :
  (forall k, fault env k = None) ->
  forallb (fun c' => negb (holds_nonce c')) pre = true ->
  non_overlapping env (sequential_from (List.length pre) (List.length func_calls))
                  (pre ++ submit func_calls) w = true.
Proof.
  intros NF. revert pre w.
  induction func_calls as [|f rest IH]; intros pre w Ip; [reflexivity|].
  unfold sequential_from. cbn [List.length seq flat_map submit map].
  rewrite non_overlapping_app, run_schedule_repeat.
  rewrite non_overlapping_repeat; [|exact Ip|].
  - destruct (send_tx_run_alone env f w NF) as (r & tx & st & E & _).
    rewrite E. cbn [fst snd andb].
    set (w1 := mkWorld _ _ _ _ _).
    specialize (IH (pre ++ [finished r])%list w1).
    rewrite length_app, Nat.add_comm in IH. cbn [List.length Nat.add] in IH.
    rewrite <- app_assoc in IH. apply IH.
    rewrite forallb_app, Ip. reflexivity.
  - clear. induction rest as [|g rest IH]; [reflexivity | exact IH].
Qed.

Lemma sequential_non_overlapping env func_calls w :
  (forall k, fault env k = None) ->
  non_overlapping env (sequential (List.length func_calls)) (submit func_calls) w
  = true.
Proof.
  intro NF. exact (sequential_from_non_overlapping env func_calls [] w NF eq_refl).
Qed.



(** Resuming two submits in turn is not such a schedule. *)
Example interleaved_overlaps :
  non_overlapping calm interleaved (submit [commitResult 1 []; commitResult 2 []])
                  genesis = false.
Proof. vm_compute. reflexivity. Qed.



(** * Further properties of the node *)

(** ** Result token and classification *)

Lemma take_class_split s :
  exists post, s = take_class s ++ post /\ stops_token post = true.
Proof.
  induction s as [|c s (post & E & St)].
  - exists EmptyString. now split.
  - cbn [take_class]. destruct (in_hash_class c) eqn:C.
    + exists post. cbn. split; [now rewrite <- E | exact St].
    + exists (String c s). cbn. now rewrite C.
Qed.

Lemma drop_app pre s : drop (String.length pre) (pre ++ s) = s.
Proof. induction pre as [|c pre IH]; [reflexivity | exact IH]. Qed.

Lemma match_here_some s tok :
  match_here s = Some tok ->
  exists post, s = hash_label ++ tok ++ post /\ stops_token post = true.
Proof.
  unfold match_here. destruct (String.prefix hash_label s) eqn:P; [|discriminate].
  apply prefix_app in P as [rest ->]. rewrite drop_app.
  destruct (take_class_split rest) as (post & E & St).
  destruct (take_class rest) as [|c t] eqn:T; [discriminate|].
  intros [= <-]. exists post. split; [now rewrite <- E | exact St].
Qed.

Lemma match_here_none s c post :
  match_here s = None -> s = hash_label ++ String c post -> in_hash_class c = false.
Proof.
  unfold match_here. intros H ->.
  assert (String.prefix hash_label (hash_label ++ String c post) = true) as P
      by (apply prefix_app; now eexists).
  rewrite P, drop_app in H. cbn [take_class] in H.
  destruct (in_hash_class c); [discriminate | reflexivity].
Qed.

(** X1.  What the pattern [Deterministic Hash: ([a-f0-9A-Z_]+)] extracts: a
    token the search returns stands in the output right after the label, is
    not empty, consists of class characters only and is as long as
    possible (what follows it is the end or a character outside the class);
    and the search fails only when no label in the output is followed by a
    class character. *)
Theorem re_search_sound_and_complete (s : string) :
  (forall tok,
      re_search s = Some tok ->
      exists pre post,
        s = pre ++ "Deterministic Hash: " ++ tok ++ post
        /\ tok <> EmptyString
        /\ all_in_class tok = true
        /\ stops_token post = true)
  /\ (re_search s = None ->
      forall pre c post,
        s = pre ++ "Deterministic Hash: " ++ String c post ->
        in_hash_class c = false).
Proof.
  split.
  - intros tok H. destruct (re_search_in_class s tok H) as [C N].
    revert H. induction s as [|a s IH].
    + cbn -[match_here]. destruct (match_here EmptyString) eqn:M; [|discriminate].
      intros [= ->]. apply match_here_some in M as (post & E & St).
      exists EmptyString, post. now repeat split.
    + cbn -[match_here]. destruct (match_here (String a s)) eqn:M.
      * intros [= ->]. apply match_here_some in M as (post & E & St).
        exists EmptyString, post. now repeat split.
      * intro H. destruct (IH H) as (pre & post & E & _ & _ & St).
        exists (String a pre), post. cbn. rewrite E. now repeat split.
  - induction s as [|a s IH]; intros H pre c post E.
    + destruct pre; discriminate.
    + cbn -[match_here] in H. destruct (match_here (String a s)) eqn:M;
        [discriminate|].
      destruct pre as [|b pre].
      * exact (match_here_none _ c post M E).
      * cbn in E. injection E as _ E. exact (IH H pre c post E).
Qed.

Lemma re_search_sound_and_complete_witness :
  re_search "ok. Deterministic Hash: 0AF_9 (lean 4)" = Some "0AF_9"
  /\ exists pre post,
      "ok. Deterministic Hash: 0AF_9 (lean 4)"
      = pre ++ "Deterministic Hash: " ++ "0AF_9" ++ post
      /\ "0AF_9" <> EmptyString
      /\ all_in_class "0AF_9" = true
      /\ stops_token post = true.
Proof.
  split; [reflexivity|].
  exact (proj1 (re_search_sound_and_complete
                  "ok. Deterministic Hash: 0AF_9 (lean 4)") "0AF_9" eq_refl).
Defined.

(** X2.  Whatever the verifier prints, the classifier yields a value of one
    of two shapes: 32 bytes (a digest), or the text ["0x"] followed by a
    token of exactly 64 class characters. *)
Theorem classify_yields_a_hash_shape (output : string) :
  match snd (classify output) with
  | HexBytes b => List.length b = 32%nat
  | PyStr s => exists tok, s = "0x" ++ tok
                           /\ String.length tok = 64%nat
                           /\ all_in_class tok = true
  end.
Proof.
  unfold classify.
  destruct (contains "Status: FAILURE" output).
  - destruct (_ || _); cbn [snd]; apply keccak256_length.
  - destruct (re_search output) as [tok|] eqn:R;
      [|cbn [snd]; apply keccak256_length].
    apply re_search_in_class in R as [C _].
    rewrite (class_token_no_0x tok C). cbn [negb andb].
    destruct (String.length tok =? 64)%nat eqn:L; cbn [negb snd].
    + apply Nat.eqb_eq in L. now exists tok.
    + apply keccak256_length.
Qed.


(** ** More on the transaction sequencer *)

(** X3.  The contract of one [_send_tx]: it always comes back; it hands over
    at most one transaction, and that transaction wraps the given call, is
    sent from the node's account with the pending count as nonce and a gas
    limit of 2000000; it returns a receipt only when the receipt's status
    is 1, the receipt then being the one of the transaction handed over;
    and the ledger's pending count moves by at most one. *)
Theorem send_tx_contract env f w :
  fst (_send_tx env f w) <> Running
  /\ exists d,
      history (snd (_send_tx env f w)) = (d ++ history w)%list
      /\ (List.length (filter is_broadcast d) <= 1)%nat
      /\ (forall tx, In (EvBroadcast tx) d ->
                     tx = mkTx f (address env) (pending w)
                               (gas_price env (S (calls w))) 2000000)
      /\ (forall rc, fst (_send_tx env f w) = Ok rc ->
                     status rc = 1%Z
                     /\ exists tx, transactionHash rc = tx_hash_of env tx
                                   /\ d = [EvReceipt (tx_hash_of env tx) 1;
                                           EvBroadcast tx]
                                   /\ pending (snd (_send_tx env f w))
                                      = (pending w + 1)%Z)
      /\ (pending (snd (_send_tx env f w)) = pending w
          \/ pending (snd (_send_tx env f w)) = (pending w + 1)%Z).
Proof.
  unfold _send_tx, send_tx_run, send_tx_step, stage.
  unfold get_transaction_count, build_transaction, send_raw_transaction,
    settle, wait_for_transaction_receipt, bind, ext, emit, ret, raise,
    get_world, set_pending.
  cbn.
  assert (forall (r : Result Receipt) w',
             r <> Running -> (forall rc, r <> Ok rc) ->
             history w' = history w -> pending w' = pending w ->
             r <> Running
             /\ exists d,
                 history w' = (d ++ history w)%list
                 /\ (List.length (filter is_broadcast d) <= 1)%nat
                 /\ (forall tx, In (EvBroadcast tx) d ->
                                tx = mkTx f (address env) (pending w)
                                          (gas_price env (S (calls w))) 2000000)
                 /\ (forall rc, r = Ok rc ->
                                status rc = 1%Z
                                /\ exists tx, transactionHash rc = tx_hash_of env tx
                                              /\ d = [EvReceipt (tx_hash_of env tx) 1;
                                                      EvBroadcast tx]
                                              /\ pending w' = (pending w + 1)%Z)
                 /\ (pending w' = pending w \/ pending w' = (pending w + 1)%Z))
    as Early.
  { intros r w' NR NO Hh Hp. split; [exact NR|]. exists [].
    split; [exact Hh|]. split; [cbn; lia|]. split; [intros tx []|].
    split; [intros rc E; now elim (NO rc)|]. now left. }
  destruct (fault env (calls w)) as [m0|]; cbn;
    [apply Early; now try discriminate|].
  destruct (fault env (S (calls w))) as [m1|]; cbn;
    [apply Early; now try discriminate|].
  destruct (fault env (S (S (calls w)))) as [m2|]; cbn;
    [apply Early; now try discriminate|].
  clear Early.
  set (tx := mkTx f (address env) (pending w) (gas_price env (S (calls w))) 2000000).
  assert (forall t, In (EvBroadcast t) [EvBroadcast tx] -> t = tx) as One
      by (intros t [[= <-]|[]]; reflexivity).
  destruct (fault env (S (S (S (calls w))))) as [m3|]; cbn.
  { split; [discriminate|]. exists [EvBroadcast tx].
    split; [reflexivity|]. split; [cbn; lia|]. split; [exact One|].
    split; [discriminate | now left]. }
  rewrite Z.eqb_refl. cbn.
  destruct (fault env (S (S (S (S (calls w)))))) as [m4|]; cbn.
  { split; [discriminate|]. exists [EvBroadcast tx].
    split; [reflexivity|]. split; [cbn; lia|]. split; [exact One|].
    split; [discriminate | now right]. }
  set (st := receipt_status env _ _).
  assert (forall t, In (EvBroadcast t) [EvReceipt (tx_hash_of env tx) st;
                                        EvBroadcast tx] -> t = tx) as Two
      by (intros t [[=]|[[= <-]|[]]]; reflexivity).
  destruct (st =? 1)%Z eqn:E; cbn.
  - apply Z.eqb_eq in E. split; [discriminate|].
    exists [EvReceipt (tx_hash_of env tx) st; EvBroadcast tx].
    split; [reflexivity|]. split; [cbn; lia|]. split; [exact Two|].
    split; [|now right].
    intros rc [= <-]. cbn. split; [exact E|]. exists tx. rewrite E. now repeat split.
  - split; [discriminate|].
    exists [EvReceipt (tx_hash_of env tx) st; EvBroadcast tx].
    split; [reflexivity|]. split; [cbn; lia|]. split; [exact Two|].
    split; [discriminate | now right].
Qed.

(** ** What always comes back *)

Lemma halts_ret {A} (a : A) : halts (ret a).
Proof. intro w. discriminate. Qed.

Lemma halts_raise {A} msg : halts (@raise A msg).
Proof. intro w. discriminate. Qed.

Lemma halts_emit e : halts (emit e).
Proof. intro w. discriminate. Qed.

Lemma halts_get_world : halts get_world.
Proof. intro w. discriminate. Qed.

Lemma halts_ext env {A} (reply : nat -> World -> A) : halts (ext env reply).
Proof. intro w. unfold ext. destruct (fault env (calls w)); discriminate. Qed.

Lemma halts_bind {A B} (m : M A) (k : A -> M B) :
  halts m -> (forall a, halts (k a)) -> halts (bind m k).
Proof.
  intros Hm Hk w. unfold bind. specialize (Hm w).
  destruct (m w) as [[a|msg|] w1]; cbn [fst] in *.
  - apply Hk.
  - discriminate.
  - now elim Hm.
Qed.

Lemma halts_try_except {A} (body : M A) (handler : string -> M A) :
  halts body -> (forall e, halts (handler e)) -> halts (try_except body handler).
Proof.
  intros Hm Hk w. unfold try_except. specialize (Hm w).
  destruct (body w) as [[a|msg|] w1]; cbn [fst] in *.
  - discriminate.
  - apply Hk.
  - now elim Hm.
Qed.

Lemma halts_send_tx env f : halts (_send_tx env f).
Proof.
  intro w. destruct (send_tx_outcome env f w) as (d & O & _).
  intro R. rewrite R in O. inversion O.
Qed.

Ltac halts_step :=
  first [ apply halts_ret | apply halts_raise | apply halts_get_world
        | apply halts_ext | apply halts_emit | apply halts_send_tx
        | apply halts_bind; [|intro]
        | apply halts_try_except; [|intro] ].

Lemma halts_try_gateways env path_obj urls : halts (try_gateways env path_obj urls).
Proof.
  induction urls as [|url rest IH]; cbn [try_gateways].
  - apply halts_ret.
  - unfold client_get, write_file, log.
    apply halts_bind; [apply halts_emit|intros _].
    apply halts_bind.
    + apply halts_try_except; [|intro; apply halts_ret].
      apply halts_bind; [repeat halts_step|].
      intro resp. destruct (status_code resp =? 200)%Z; repeat halts_step.
    + intros [p|]; [apply halts_ret | exact IH].
Qed.

Lemma halts_download env task_id cid : halts (_download_ipfs env task_id cid).
Proof.
  unfold _download_ipfs. destruct (startswith "QmSimulated" cid).
  - unfold log, write_file. repeat halts_step.
  - apply halts_bind; [apply halts_try_gateways|].
    intros [p|]; halts_step.
Qed.

Lemma halts_run_docker env file_path : halts (_run_docker env file_path).
Proof.
  unfold _run_docker, log. repeat halts_step.
  destruct (classify _) as [[[msg lvl]|] h]; repeat halts_step.
Qed.

(** ** More on the task lifecycle *)

Lemma only_try_gateways_local env path_obj urls :
  only local (try_gateways env path_obj urls).
Proof.
  induction urls as [|url rest IH]; cbn [try_gateways].
  - apply only_ret.
  - unfold client_get, write_file, log.
    apply only_bind; [apply only_emit; reflexivity|intros _].
    apply only_bind.
    + apply only_try_except; [|intro; apply only_ret].
      apply only_bind; [repeat only_step|].
      intro resp. destruct (status_code resp =? 200)%Z; repeat only_step.
    + intros [p|]; [apply only_ret | exact IH].
Qed.

Lemma only_download_local env task_id cid :
  only local (_download_ipfs env task_id cid).
Proof.
  unfold _download_ipfs. destruct (startswith "QmSimulated" cid).
  - unfold log, write_file. repeat only_step.
  - apply only_bind; [apply only_try_gateways_local|].
    intros [p|]; only_step.
Qed.

Lemma only_run_docker_local env file_path :
  only local (_run_docker env file_path).
Proof.
  unfold _run_docker, log. repeat only_step.
  destruct (classify _) as [[[msg lvl]|] h]; repeat only_step.
Qed.

Lemma local_no_spawn l : forallb local l = true -> filter is_spawn l = [].
Proof.
  induction l as [|e l IH]; cbn; [trivial|].
  intro H. apply andb_true_iff in H as [He H].
  destruct e; try discriminate; cbn; now apply IH.
Qed.

Lemma send_outcome_no_spawn env f r d :
  SendOutcome env f r d -> filter is_spawn d = [].
Proof. intro O. inversion O; reflexivity. Qed.

(** A run of [_process_task] in full: it returns normally, and ends either
    with the failure line, nothing having been scheduled, or with the
    settled reveal, the line that says so and what the mode asks for. *)
Lemma process_task_detail env task_id cid w :
  let run := _process_task env task_id cid w in
  fst run = Ok tt
  /\ ((exists msg rest,
          history (snd run)
          = (EvLog ("Task " ++ str_of_Z task_id ++ " failed: " ++ msg)%string ERROR
             :: rest ++ history w)%list
          /\ filter is_spawn rest = [])
      \/ (exists rtx result_hash salt rest,
             history (snd run)
             = ((if greedy_mode w
                 then [EvSpawn (spawn_auto_finalize task_id);
                       EvLog ("Greedy Mode: Scheduling finalize for Task "
                              ++ str_of_Z task_id ++ "...")%string INFO]
                 else [EvLog ("Passive Mode: Task " ++ str_of_Z task_id
                              ++ " complete.")%string INFO])
                ++ EvLog ("Task " ++ str_of_Z task_id ++ " Revealed!")%string INFO
                :: EvReceipt (tx_hash_of env rtx) 1 :: EvBroadcast rtx
                :: rest ++ history w)%list
             /\ tx_call rtx = revealResult task_id result_hash salt
             /\ filter is_spawn rest = [])).
Proof.
  intro run. subst run.
  unfold _process_task, try_except, contract_function, bind, ext, log, sleep,
    emit, get_world, ret, raise.
  destruct (only_download_local env task_id cid w) as (d1 & H1 & S1 & G1).
  apply local_no_spawn in S1.
  pose proof (halts_download env task_id cid w) as T1.
  destruct (_download_ipfs env task_id cid w) as [[file_path|e|] w1];
    cbn [fst snd] in *; cbv beta iota;
    [ | split; [reflexivity|]; left; exists e, d1; cbn [fst snd history];
        rewrite H1; now split
      | now elim T1 ].
  clear T1.
  destruct (only_run_docker_local env file_path w1) as (d2 & H2 & S2 & G2).
  apply local_no_spawn in S2.
  pose proof (halts_run_docker env file_path w1) as T2.
  assert (filter is_spawn (d2 ++ d1) = []) as S21
      by now rewrite filter_app, S2, S1.
  destruct (_run_docker env file_path w1) as [[result_hash|e|] w2];
    cbn [fst snd] in *; cbv beta iota;
    [ | split; [reflexivity|]; left; exists e, (d2 ++ d1)%list;
        cbn [fst snd history]; rewrite H2, H1, app_assoc; now split
      | now elim T2 ].
  clear T2.
  destruct (fault env (calls w2)) as [e|]; cbv beta iota;
    [ split; [reflexivity|]; left; exists e, (d2 ++ d1)%list;
      cbn [fst snd history]; rewrite H2, H1, app_assoc; now split | ].
  set (salt := urandom env (calls w2)).
  destruct (solidity_keccak result_hash salt) as [c|] eqn:K; cbv beta iota;
    [ | split; [reflexivity|]; left; eexists _, (d2 ++ d1)%list;
        cbn [fst snd history]; rewrite H2, H1, app_assoc; now split ].
  destruct (fits_abi (commitResult task_id c)); cbv beta iota;
    [ | split; [reflexivity|]; left; eexists _, (EvLog _ INFO :: d2 ++ d1)%list;
        cbn [fst snd history]; rewrite H2, H1, app_assoc;
        split; [reflexivity | exact S21] ].
  set (w5 := mkWorld _ _ _ _ _).
  destruct (send_tx_outcome env (commitResult task_id c) w5) as (dsc & Oc & Hc & Gc).
  pose proof (send_outcome_no_spawn _ _ _ _ Oc) as Sc.
  destruct (_send_tx env (commitResult task_id c) w5) as [[rc|e|] w6];
    cbn [fst snd] in *; cbv beta iota.
  - set (rest := (EvLog ("Revealing task " ++ str_of_Z task_id ++ "...")%string INFO
                  :: EvSleep 5
                  :: EvLog ("Waiting to reveal task " ++ str_of_Z task_id ++ "...")%string INFO
                  :: dsc
                  ++ EvLog ("Committing task " ++ str_of_Z task_id ++ "...")%string INFO
                  :: d2 ++ d1)%list).
    assert (filter is_spawn rest = []) as Sr.
    { subst rest. cbn. rewrite filter_app, Sc. cbn. exact S21. }
    assert (forall tail,
               (EvLog ("Revealing task " ++ str_of_Z task_id ++ "...")%string INFO
                :: EvSleep 5
                :: EvLog ("Waiting to reveal task " ++ str_of_Z task_id ++ "...")%string INFO
                :: history w6) = tail ->
               tail = (rest ++ history w)%list) as H9'.
    { intros tail <-. rewrite Hc. cbn [history w5]. rewrite H2, H1.
      subst rest. list_eq. }
    clearbody rest.
    destruct (fits_abi (revealResult task_id result_hash salt)); cbv beta iota;
      [ | split; [reflexivity|]; left; eexists _, rest;
          cbn [fst snd history]; rewrite (H9' _ eq_refl);
          split; [reflexivity | exact Sr] ].
    set (w9 := mkWorld _ _ _ _ _).
    destruct (send_tx_outcome env (revealResult task_id result_hash salt) w9)
      as (dsr & Or & Hr & Gr).
    pose proof (H9' (history w9) eq_refl) as H9.
    assert (greedy_mode w9 = greedy_mode w) as G9.
    { cbn [greedy_mode w9]. rewrite Gc. cbn [greedy_mode w5]. congruence. }
    destruct (_send_tx env (revealResult task_id result_hash salt) w9)
      as [[rr|e|] w10]; cbn [fst snd] in *; cbv beta iota.
    + assert (greedy_mode w10 = greedy_mode w) as G10 by congruence.
      inversion Or; subst.
      rewrite G10.
      destruct (greedy_mode w); cbn [fst snd history];
        (split; [reflexivity|]); right; exists tx, result_hash, salt, rest;
        rewrite Hr, H9; (split; [list_eq|]); now split.
    + split; [reflexivity|]. left. exists e, (dsr ++ rest)%list.
      cbn [fst snd history]. rewrite Hr, H9.
      split; [list_eq|]. rewrite filter_app, Sr.
      now rewrite (send_outcome_no_spawn _ _ _ _ Or).
    + inversion Or.
  - split; [reflexivity|]. left.
    exists e, (dsc ++ EvLog ("Committing task " ++ str_of_Z task_id ++ "...")%string INFO
                 :: d2 ++ d1)%list.
    cbn [fst snd history]. rewrite Hc. cbn [history w5]. rewrite H2, H1.
    split; [list_eq|]. rewrite filter_app, Sc. cbn. exact S21.
  - inversion Oc.
Qed.

Lemma no_spawn_no_split l newer c older :
  filter is_spawn l = [] -> l <> (newer ++ EvSpawn c :: older)%list.
Proof.
  intros F ->. rewrite filter_app in F. cbn in F.
  apply app_eq_nil in F as [_ F]. discriminate.
Qed.

(** X4.  Errors inside one task never leave [_process_task], and none is
    silent: a run always returns normally, and its history ends either with
    the line ["Task N failed: msg"] at ERROR level, or with the reveal's
    receipt of status 1 followed by ["Task N Revealed!"] and the line (and,
    in greedy mode, the scheduling) that the mode asks for. *)
Theorem process_task_reports_every_outcome env task_id cid w :
  fst (_process_task env task_id cid w) = Ok tt
  /\ ((exists msg,
          hd_error (history (snd (_process_task env task_id cid w)))
          = Some (EvLog ("Task " ++ str_of_Z task_id ++ " failed: " ++ msg) ERROR))
      \/ (exists newer rtx result_hash salt older,
             history (snd (_process_task env task_id cid w))
             = (newer
                ++ EvLog ("Task " ++ str_of_Z task_id ++ " Revealed!")%string INFO
                :: EvReceipt (tx_hash_of env rtx) 1 :: EvBroadcast rtx :: older)%list
             /\ tx_call rtx = revealResult task_id result_hash salt
             /\ filter is_error_log newer = [])).
Proof.
  destruct (process_task_detail env task_id cid w)
    as [R [(msg & rest & H & _)|(rtx & rh & salt & rest & H & C & _)]].
  - split; [exact R|]. left. exists msg. now rewrite H.
  - split; [exact R|]. right. eexists _, rtx, rh, salt, _.
    split; [exact H|]. split; [exact C|]. now destruct (greedy_mode w).
Qed.

(** X5.  The finalize watcher is scheduled by [_process_task] only in
    greedy mode, at most once, for the task being processed, and only after
    the reveal's receipt came back with status 1; in passive mode nothing
    is scheduled.  (The mode is the one the node is in during the run.) *)
Theorem finalize_scheduled_only_when_greedy_and_revealed env task_id cid w :
  exists d,
    history (snd (_process_task env task_id cid w)) = (d ++ history w)%list
    /\ (greedy_mode w = false -> filter is_spawn d = [])
    /\ (List.length (filter is_spawn d) <= 1)%nat
    /\ forall newer c older,
        d = (newer ++ EvSpawn c :: older)%list ->
        c = spawn_auto_finalize task_id
        /\ greedy_mode w = true
        /\ exists between rtx result_hash salt earlier,
            older = (between ++ EvReceipt (tx_hash_of env rtx) 1
                       :: EvBroadcast rtx :: earlier)%list
            /\ tx_call rtx = revealResult task_id result_hash salt.
Proof.
  destruct (process_task_detail env task_id cid w)
    as [_ [(msg & rest & H & S)|(rtx & rh & salt & rest & H & C & S)]].
  - exists (EvLog ("Task " ++ str_of_Z task_id ++ " failed: " ++ msg)%string ERROR
            :: rest)%list.
    split; [exact H|]. cbn. rewrite S.
    split; [reflexivity|]. split; [cbn; lia|].
    intros newer c older E. exfalso.
    refine (no_spawn_no_split _ newer c older _ E). cbn. exact S.
  - match type of H with
    | _ = (?p ++ ?x :: ?y :: ?z :: rest ++ _)%list =>
        exists (p ++ x :: y :: z :: rest)%list
    end.
    split; [rewrite H; list_eq|].
    destruct (greedy_mode w) eqn:G; cbn [List.app].
    + split; [discriminate|].
      split; [cbn; rewrite S; cbn; lia|].
      intros [|e newer] c older E.
      * cbn in E. injection E as <- <-.
        split; [reflexivity|]. split; [reflexivity|].
        eexists [_; _], rtx, rh, salt, rest. now split.
      * exfalso. cbn in E. injection E as _ E.
        refine (no_spawn_no_split _ newer c older _ E). cbn. exact S.
    + split; [intros _; cbn; exact S|].
      split; [cbn; rewrite S; cbn; lia|].
      intros newer c older E. exfalso.
      refine (no_spawn_no_split _ newer c older _ E). cbn. exact S.
Qed.

Lemma finalize_scheduled_only_when_greedy_and_revealed_witness :
  exists d,
    history (snd (_process_task calm 7 "QmAbc"
                                (mkWorld 0 0 [] true true))) = (d ++ [])%list
    /\ filter is_spawn d = [EvSpawn (spawn_auto_finalize 7)].
Proof.
  destruct (finalize_scheduled_only_when_greedy_and_revealed
              calm 7 "QmAbc" (mkWorld 0 0 [] true true)) as (d & Hd & _).
  exists d. split; [exact Hd|].
  cbn [history] in Hd. rewrite app_nil_r in Hd. rewrite <- Hd.
  vm_compute. reflexivity.
Defined.

Lemma broadcast_calls_app l1 l2 :
  broadcast_calls (l1 ++ l2) = (broadcast_calls l1 ++ broadcast_calls l2)%list.
Proof.
  induction l1 as [|e l1 IH]; [reflexivity|].
  destruct e; cbn; now rewrite ?IH.
Qed.

Lemma broadcast_calls_rev l :
  broadcast_calls (rev l) = rev (broadcast_calls l).
Proof.
  induction l as [|e l IH]; [reflexivity|].
  cbn [rev]. rewrite broadcast_calls_app, IH.
  destruct e; cbn; now rewrite ?app_nil_r.
Qed.

Lemma quiet_no_calls l : forallb quiet l = true -> broadcast_calls l = [].
Proof.
  induction l as [|e l IH]; cbn; [trivial|].
  intro H. apply andb_true_iff in H as [He H].
  destruct e; try discriminate; now apply IH.
Qed.

Lemma send_outcome_calls env f r d :
  SendOutcome env f r d ->
  (broadcast_calls d = [] /\ forall rc, r <> Ok rc) \/ broadcast_calls d = [f].
Proof.
  intro O. inversion O; subst; cbn; [left; split; [reflexivity|discriminate]|..];
    right; reflexivity.
Qed.

(** X6.  What one run of [_process_task] hands to the ledger, in order, is
    nothing, or one commit, or one commit followed by one reveal, both for
    the task being processed; it never hands over a second commit, a reveal
    without a commit, or any other call. *)
Theorem process_task_hands_over_commit_then_reveal env task_id cid w :
  exists d,
    history (snd (_process_task env task_id cid w)) = (d ++ history w)%list
    /\ (broadcast_calls (rev d) = []
        \/ (exists c, broadcast_calls (rev d) = [commitResult task_id c])
        \/ (exists c result_hash salt,
               broadcast_calls (rev d)
               = [commitResult task_id c; revealResult task_id result_hash salt]
               /\ solidity_keccak result_hash salt = Some c)).
Proof.
  destruct (process_task_cases env task_id cid w)
    as [(d & Hd & Qd)
       |[(top & dsc & m1 & dpre & c & msg & Hd & Qt & Qp & Oc)
        |(top & dsr & r & m3 & m2 & dsc & rc & m1 & dpre & c & rh & salt
          & Hd & Qt & Qp & Oc & Or & K & _)]];
    eexists; (split; [exact Hd|]); rewrite broadcast_calls_rev.
  - left. now rewrite (quiet_no_calls _ Qd).
  - rewrite !broadcast_calls_app, (quiet_no_calls _ Qt). cbn.
    rewrite (quiet_no_calls _ Qp), app_nil_r.
    destruct (send_outcome_calls _ _ _ _ Oc) as [[-> _]| ->];
      [left; reflexivity | right; left; now exists c].
  - rewrite !broadcast_calls_app, (quiet_no_calls _ Qt). cbn.
    rewrite broadcast_calls_app. cbn. rewrite (quiet_no_calls _ Qp), app_nil_r.
    destruct (send_outcome_calls _ _ _ _ Oc) as [[_ N]| ->];
      [now elim (N rc)|].
    destruct (send_outcome_calls _ _ _ _ Or) as [[-> _]| ->]; cbn.
    + right; left; now exists c.
    + right; right. exists c, rh, salt. now split.
Qed.

(** ** Registration *)

Ltac next_send :=
  match goal with
  | |- context [_send_tx ?env ?f ?w] =>
      let d := fresh "d" in
      let O := fresh "O" in
      let H := fresh "H" in
      destruct (send_tx_outcome env f w) as (d & O & H & _);
      destruct (_send_tx env f w) as [[?rc|?e|] ?w'];
      cbn [fst snd history] in *; cbv beta iota;
      [ inversion O; subst; clear O
      | inversion O; subst; clear O
      | inversion O ]
  end.

Ltac prefix_of t base :=
  lazymatch t with
  | base => constr:(@nil Event)
  | ?e :: ?t' => let r := prefix_of t' base in constr:(e :: r)
  end.

Ltac give_delta w :=
  repeat match goal with
         | H : history _ = _ |- _ => rewrite H; clear H
         end;
  cbn [List.app fst snd history];
  match goal with
  | |- exists d, ?h = _ /\ _ =>
      let p := prefix_of h (history w) in
      exists p; split; [reflexivity|]
  end.

Ltac pick := solve [repeat (first [left; reflexivity | right])].

Ltac read_calls :=
  cbn [broadcast_calls rev List.app In];
  repeat match goal with
         | H : tx_call _ = _ |- _ => rewrite !H
         end.

Ltac settled_registration :=
  intros _; right;
  match goal with
  | H : tx_call ?t = registerValidator _ |- _ =>
      exists t; eexists [_], _; split; [exact H | reflexivity]
  end.

(** X7.  What [_ensure_registration] hands to the ledger, in order, is a
    selection from: the faucet call, the approval of 100 tokens (in wei)
    for the main contract, the registration with that stake.  The faucet is
    called only when the balance read is below the stake; nothing at all is
    handed over when the validator is already active; and registration
    returns normally only when the validator was active or the registration
    transaction came back with status 1. *)
Theorem registration_hands_over env w :
  let stake := (100 * 10 ^ 18)%Z in
  let f := faucet in
  let a := approve (contract_addr env) stake in
  let r := registerValidator stake in
  let run := _ensure_registration env w in
  fst run <> Running
  /\ exists d,
      history (snd run) = (d ++ history w)%list
      /\ In (broadcast_calls (rev d))
            [[]; [f]; [a]; [r]; [f; a]; [f; r]; [a; r]; [f; a; r]]
      /\ (In f (broadcast_calls d) -> (balanceOf env (S (calls w)) < stake)%Z)
      /\ (snd (fst (validators env (calls w))) = true -> broadcast_calls d = [])
      /\ (fst run = Ok tt ->
          snd (fst (validators env (calls w))) = true
          \/ exists rtx newer older,
              tx_call rtx = r
              /\ d = (newer ++ EvReceipt (tx_hash_of env rtx) 1
                        :: EvBroadcast rtx :: older)%list).
Proof.
  intros stake f a r run. subst run f a r.
  unfold _ensure_registration, try_except, bind, ext, log, emit, ret.
  fold stake. clearbody stake.
  destruct (fault env (calls w)) as [m0|]; cbv beta iota.
  { split; [discriminate|]. exists []. cbn [fst snd history List.app].
    split; [reflexivity|]. read_calls. split; [pick|]. split; [intros []|].
    split; [reflexivity | discriminate]. }
  destruct (snd (fst (validators env (calls w)))) eqn:Act; cbv beta iota.
  { split; [discriminate|]. give_delta w. read_calls.
    split; [pick|]. split; [intros []|]. split; [reflexivity|]. now left. }
  cbn [calls].
  destruct (fault env (S (calls w))) as [m1|]; cbv beta iota.
  { split; [discriminate|]. give_delta w. read_calls.
    split; [pick|]. split; [intros []|]. split; discriminate. }
  destruct (balanceOf env (S (calls w)) <? stake)%Z eqn:Bal; cbv beta iota.
  - apply Z.ltb_lt in Bal. next_send.
    2-4: (split; [discriminate|]); give_delta w; read_calls;
      (split; [pick|]); (split; [intros _; exact Bal|]); split; discriminate.
    next_send; next_send;
      (split; [discriminate|]); give_delta w; read_calls;
      (split; [pick|]); (split; [intros _; exact Bal|]);
      (split; [discriminate|]); first [discriminate | settled_registration].
  - next_send; next_send;
      (split; [discriminate|]); give_delta w; read_calls;
      (split; [pick|]);
      (split; [intro E; repeat destruct E as [E|E]; discriminate || contradiction|]);
      (split; [discriminate|]); first [discriminate | settled_registration].
Qed.

(** One [_send_tx] when the ledger answers every request. *)
Lemma send_tx_answered env f w :
  (forall k, fault env k = None) ->
  let tx := mkTx f (address env) (pending w) (gas_price env (S (calls w))) 2000000 in
  let st := receipt_status env (4 + calls w) (tx_hash_of env tx) in
  _send_tx env f w
  = (if (st =? 1)%Z
     then Ok (mkReceipt st (tx_hash_of env tx))
     else Raise ("Transaction failed: " ++ hex (tx_hash_of env tx)),
     mkWorld (5 + calls w) (pending w + 1)
             (EvReceipt (tx_hash_of env tx) st :: EvBroadcast tx :: history w)
             (running w) (greedy_mode w)).
Proof.
  intros NF tx st. subst st. cbn [Nat.add].
  unfold _send_tx, send_tx_run, send_tx_step, stage.
  unfold get_transaction_count, build_transaction, send_raw_transaction,
    settle, wait_for_transaction_receipt, bind, ext, emit, ret, raise,
    get_world, set_pending.
  cbn. rewrite !NF. cbn. rewrite Z.eqb_refl. cbn. rewrite NF. cbn.
  fold tx. set (st := receipt_status env _ _).
  destruct (st =? 1)%Z; reflexivity.
Qed.

(** X8.  A failed approval does not stop registration, a failed
    registration does.  For a funded, inactive account on a ledger that
    answers every request, the node hands over the approval and then the
    registration whatever the approval's receipt says, and the outcome is
    decided by the registration's receipt alone: status 1 returns normally,
    any other status raises ["Transaction failed: <hash>"]. *)
Theorem approval_failure_is_tolerated env w :
  (forall k, fault env k = None) ->
  snd (fst (validators env (calls w))) = false ->
  (100 * 10 ^ 18 <= balanceOf env (S (calls w)))%Z ->
  let stake := (100 * 10 ^ 18)%Z in
  let atx := mkTx (approve (contract_addr env) stake) (address env)
                  (pending w) (gas_price env (3 + calls w)) 2000000 in
  let rtx := mkTx (registerValidator stake) (address env)
                  (pending w + 1) (gas_price env (8 + calls w)) 2000000 in
  let st := receipt_status env (11 + calls w) (tx_hash_of env rtx) in
  fst (_ensure_registration env w)
  = (if (st =? 1)%Z then Ok tt
     else Raise ("Transaction failed: " ++ hex (tx_hash_of env rtx)))
  /\ filter is_broadcast (history (snd (_ensure_registration env w)))
     = (EvBroadcast rtx :: EvBroadcast atx :: filter is_broadcast (history w)).
Proof.
  intros NF Act Bal stake atx rtx st. subst atx rtx st. cbn [Nat.add].
  unfold _ensure_registration, try_except, bind, ext, log, emit, ret.
  fold stake. rewrite NF. cbv beta iota. rewrite Act. cbv beta iota.
  cbn [calls]. rewrite NF. cbv beta iota.
  apply Z.ltb_ge in Bal. fold stake in Bal. rewrite Bal. cbv beta iota.
  clearbody stake.
  rewrite (send_tx_answered env _ _ NF).
  cbn [calls pending history Nat.add running greedy_mode].
  destruct (receipt_status env (S (S (S (S (S (S (calls w)))))))
                           _ =? 1)%Z; cbv beta iota;
    rewrite (send_tx_answered env _ _ NF);
    cbn [calls pending history Nat.add running greedy_mode];
    destruct (receipt_status env _ _ =? 1)%Z; cbv beta iota;
    cbn [fst snd history filter is_broadcast];
    split; reflexivity.
Qed.

Lemma approval_failure_is_tolerated_witness :
  (forall k, fault approval_reverts k = None)
  /\ snd (fst (validators approval_reverts (calls genesis))) = false
  /\ (100 * 10 ^ 18 <= balanceOf approval_reverts (S (calls genesis)))%Z
  /\ fst (_ensure_registration approval_reverts genesis) = Ok tt
  /\ In (EvReceipt [x00] 0) (history (snd (_ensure_registration approval_reverts genesis))).
Proof.
  split; [intro k; reflexivity|]. split; [reflexivity|].
  split; [vm_compute; discriminate|].
  split; [|vm_compute; tauto].
  exact (proj1 (approval_failure_is_tolerated
                  approval_reverts genesis (fun k => eq_refl) eq_refl
                  ltac:(vm_compute; discriminate))).
Defined.

(** ** Event loop *)

Lemma dispatch_run env new_entries w :
  exists d,
    dispatch env new_entries w
    = (Ok tt, mkWorld (calls w) (pending w) (d ++ history w)%list
                      (running w) (greedy_mode w))
    /\ filter is_spawn (rev d) = spawned_for new_entries
    /\ filter is_sleep d = [].
Proof.
  revert w. induction new_entries as [|ev rest IH]; intro w.
  - exists []. cbn. now destruct w.
  - cbn [dispatch]. unfold bind, log, emit. cbn [fst snd].
    set (w1 := mkWorld _ _ _ _ _).
    destruct (IH w1) as (d & E & Sp & Sl). rewrite E.
    eexists (d ++ [_; _])%list. cbn [calls pending running greedy_mode history w1].
    split; [now rewrite <- app_assoc|]. split.
    + rewrite rev_app_distr, filter_app, Sp. reflexivity.
    + rewrite filter_app, Sl. reflexivity.
Qed.

(** One turn of the polling loop while the node is running. *)
Lemma poll_turn env fuel w :
  running w = true ->
  exists d w1,
    poll env (S fuel) w = poll env fuel w1
    /\ calls w1 = S (calls w)
    /\ running w1 = true
    /\ history w1 = (d ++ history w)%list
    /\ filter is_sleep (rev d) = [pause_after env (calls w)]
    /\ filter is_spawn (rev d) = scheduled_by env (calls w).
Proof.
  intro R. cbn [poll]. rewrite R.
  unfold pause_after, scheduled_by.
  unfold bind at 1. unfold try_except, bind at 1, ext.
  destruct (fault env (calls w)) as [msg|].
  - unfold bind, log, sleep, emit. cbn [fst snd].
    eexists [_; _], _. split; [reflexivity|]. cbn. now repeat split.
  - unfold bind at 1. set (w0 := mkWorld _ _ _ _ _).
    destruct (dispatch_run env (get_new_entries env (calls w)) w0)
      as (d & E & Sp & Sl).
    rewrite E. unfold sleep, emit. cbn [fst snd calls pending running
                                         greedy_mode history].
    exists (EvSleep 2 :: d), (mkWorld (S (calls w)) (pending w)
                                      (EvSleep 2 :: d ++ history w)%list
                                      (running w) (greedy_mode w)).
    split; [reflexivity|]. cbn [calls running history].
    split; [reflexivity|]. split; [exact R|]. split; [reflexivity|].
    cbn [rev]. rewrite !filter_app. cbn. rewrite Sp.
    assert (filter is_sleep (rev d) = []) as ->.
    { clear -Sl. induction d as [|e d IH]; [reflexivity|].
      cbn in Sl. cbn [rev]. rewrite filter_app. cbn.
      destruct (is_sleep e); [discriminate|]. now rewrite (IH Sl). }
    now rewrite app_nil_r.
Qed.

(** X9.  While nobody stops the node, the polling loop goes on whatever the
    ledger does: after [n] turns it has polled exactly [n] times and is
    still running; each poll is followed by one pause, of 2 seconds after
    an answer and of 5 seconds after an error; and for every event of every
    answered poll exactly one task run is scheduled, in the order of the
    events. *)
Theorem poll_keeps_going env n w :
  running w = true ->
  exists d,
    fst (poll env n w) = Running
    /\ history (snd (poll env n w)) = (d ++ history w)%list
    /\ calls (snd (poll env n w)) = (calls w + n)%nat
    /\ running (snd (poll env n w)) = true
    /\ filter is_sleep (rev d)
       = map (fun i => pause_after env (calls w + i)) (seq 0 n)
    /\ filter is_spawn (rev d)
       = flat_map (fun i => scheduled_by env (calls w + i)) (seq 0 n).
Proof.
  revert w. induction n as [|n IH]; intros w R.
  - exists []. cbn [poll]. rewrite R. cbn. now rewrite Nat.add_0_r.
  - destruct (poll_turn env n w R) as (d1 & w1 & E & C1 & R1 & H1 & Sl1 & Sp1).
    rewrite E. destruct (IH w1 R1) as (d & Hr & Hh & Hc & Hrun & Sl & Sp).
    exists (d ++ d1)%list.
    split; [exact Hr|]. split; [now rewrite Hh, H1, app_assoc|].
    split; [rewrite Hc, C1; lia|]. split; [exact Hrun|].
    rewrite rev_app_distr, !filter_app, Sl1, Sp1, Sl, Sp, C1.
    cbn [seq map flat_map List.app]. rewrite Nat.add_0_r, <- seq_shift.
    split.
    + f_equal. rewrite map_map. apply map_ext. intro i. f_equal. lia.
    + f_equal. rewrite !flat_map_concat_map, map_map. f_equal.
      apply map_ext. intro i. f_equal. lia.
Qed.

Lemma poll_keeps_going_witness :
  running (mkWorld 0 0 [] true false) = true
  /\ exists d,
      history (snd (poll two_tasks 3 (mkWorld 0 0 [] true false))) = (d ++ [])%list
      /\ filter is_sleep (rev d) = [EvSleep 5; EvSleep 2; EvSleep 2]
      /\ filter is_spawn (rev d)
         = [EvSpawn (spawn_process_task 7 "QmAbc");
            EvSpawn (spawn_process_task 8 "QmDef")].
Proof.
  split; [reflexivity|].
  destruct (poll_keeps_going two_tasks 3 (mkWorld 0 0 [] true false) eq_refl)
    as (d & _ & Hh & _ & _ & Sl & Sp).
  exists d. split; [exact Hh|]. split; [exact Sl | exact Sp].
Defined.

(** X10.  The only error that can leave [_event_loop] is the one raised
    when the event filter is created, before the first poll: the loop
    raises [msg] exactly when that first call does. *)
Theorem event_loop_raises_only_at_filter_creation env fuel w msg :
  fst (_event_loop env fuel w) = Raise msg <-> fault env (calls w) = Some msg.
Proof.
  unfold _event_loop, bind, ext.
  destruct (fault env (calls w)) as [m|]; cbn [fst].
  - split; intros [= ->]; reflexivity.
  - split; [|discriminate]. intro H. exfalso.
    set (w1 := mkWorld _ _ _ _ _) in H.
    pose proof (poll_handles_its_errors env fuel w1 msg) as P.
    destruct (poll env fuel w1) as [r w2]. cbn [fst] in *. now elim P.
Qed.

(** ** More on the finalize watcher *)







Lemma no_errors_not_in l m : filter is_error_log l = [] -> ~ In (EvLog m ERROR) l.
Proof.
  induction l as [|e l IH]; cbn; [tauto|].
  destruct (is_error_log e) eqn:E; [discriminate|].
  intros F [->|H]; [discriminate | now apply IH].
Qed.

(** X12.  The only ERROR line the watcher ever writes is
    ["Auto-finalize error: " ++ msg], for a message [msg] raised inside its
    [try] suite that does not contain ["already finalized"].  A finalize
    transaction whose receipt has another status than 1 is therefore
    reported through the message of [_send_tx], and the line
    ["Finalize failed (Reverted)"] of line 224 is never written. *)
Theorem finalize_errors_are_reported_by_the_handler env fuel task_id w :
  exists d,
    history (snd (_auto_finalize env fuel task_id w)) = (d ++ history w)%list
    /\ (forall m, In (EvLog m ERROR) d ->
                  exists msg,
                    fst (auto_finalize_try env fuel task_id w) = Raise msg
                    /\ contains "already finalized" msg = false
                    /\ m = "Auto-finalize error: " ++ msg)
    /\ ~ In (EvLog "❌ Finalize failed (Reverted)" ERROR) d.
Proof.
  assert (forall d,
             (forall m, In (EvLog m ERROR) d ->
                        exists msg,
                          fst (auto_finalize_try env fuel task_id w) = Raise msg
                          /\ contains "already finalized" msg = false
                          /\ m = "Auto-finalize error: " ++ msg) ->
             ~ In (EvLog "❌ Finalize failed (Reverted)" ERROR) d) as Dead.
  { intros d H I. destruct (H _ I) as (msg & _ & _ & E). discriminate. }
  unfold _auto_finalize, try_except.
  destruct (auto_finalize_try_cases env fuel task_id w)
    as [(d & Hd & Sd & Nd)
       |(top & ds & m & now & d' & r & Hd & O & Sd & Hn & Hr)].
  - destruct (auto_finalize_try env fuel task_id w) as [[[]|msg|] w'];
      cbn [fst snd] in *.
    + now elim Nd.
    + destruct (contains "already finalized" msg) eqn:C.
      * eexists (_ :: d). unfold log, emit. cbn [fst snd history].
        split; [now rewrite Hd|].
        assert (forall m0, In (EvLog m0 ERROR)
                              (EvLog ("Task " ++ str_of_Z task_id
                                      ++ " already finalized.")%string INFO :: d) ->
                           exists msg0, @Raise unit msg = Raise msg0
                                        /\ contains "already finalized" msg0 = false
                                        /\ m0 = "Auto-finalize error: " ++ msg0) as K.
        { intros m0 [I|I]; [discriminate|].
          now elim (no_errors_not_in _ m0 (silent_no_errors _ Sd)). }
        split; [exact K | exact (Dead _ K)].
      * eexists (_ :: d). unfold log, emit. cbn [fst snd history].
        split; [now rewrite Hd|].
        assert (forall m0, In (EvLog m0 ERROR)
                              (EvLog ("Auto-finalize error: " ++ msg)%string ERROR :: d) ->
                           exists msg0, @Raise unit msg = Raise msg0
                                        /\ contains "already finalized" msg0 = false
                                        /\ m0 = "Auto-finalize error: " ++ msg0) as K.
        { intros m0 [[= <-]|I]; [now exists msg|].
          now elim (no_errors_not_in _ m0 (silent_no_errors _ Sd)). }
        split; [exact K | exact (Dead _ K)].
    + exists d. split; [exact Hd|].
      assert (forall m0, In (EvLog m0 ERROR) d ->
                         exists msg0, @Running unit = Raise msg0
                                      /\ contains "already finalized" msg0 = false
                                      /\ m0 = "Auto-finalize error: " ++ msg0) as K
          by (intros m0 I; now elim (no_errors_not_in _ m0 (silent_no_errors _ Sd))).
      split; [exact K | exact (Dead _ K)].
  - destruct (each_broadcast_after_window
                env task_id (tasks_deadline env (calls w) task_id) [] ds m now d' r
                O eq_refl Sd Hn) as (_ & _ & E3).
    destruct Hr as [(rc & succ & -> & Ha & ->)|(msg & -> & Ha & ->)];
      destruct (auto_finalize_try env fuel task_id w) as [ra w'];
      cbn [fst snd] in *; subst ra.
    + eexists. split; [exact Hd|].
      assert (forall m0, In (EvLog m0 ERROR)
                            ([EvLog succ INFO] ++ ds ++ EvLog m WARN
                               :: EvBlock now :: d')%list ->
                         exists msg0, @Ok unit tt = Raise msg0
                                      /\ contains "already finalized" msg0 = false
                                      /\ m0 = "Auto-finalize error: " ++ msg0) as K.
      { intros m0 [I|I]; [discriminate|].
        now elim (no_errors_not_in _ m0 E3). }
      split; [exact K | exact (Dead _ K)].
    + destruct (contains "already finalized" msg) eqn:C;
        unfold log, emit; cbn [fst snd history]; rewrite Hd; cbn [List.app].
      * eexists (_ :: ds ++ EvLog m WARN :: EvBlock now :: d')%list.
        split; [reflexivity|].
        assert (forall m0, In (EvLog m0 ERROR)
                              (EvLog ("Task " ++ str_of_Z task_id
                                      ++ " already finalized.")%string INFO
                               :: ds ++ EvLog m WARN :: EvBlock now :: d')%list ->
                           exists msg0, @Raise unit msg = Raise msg0
                                        /\ contains "already finalized" msg0 = false
                                        /\ m0 = "Auto-finalize error: " ++ msg0) as K.
        { intros m0 [I|I]; [discriminate|].
          now elim (no_errors_not_in _ m0 E3). }
        split; [exact K | exact (Dead _ K)].
      * eexists (_ :: ds ++ EvLog m WARN :: EvBlock now :: d')%list.
        split; [reflexivity|].
        assert (forall m0, In (EvLog m0 ERROR)
                              (EvLog ("Auto-finalize error: " ++ msg)%string ERROR
                               :: ds ++ EvLog m WARN :: EvBlock now :: d')%list ->
                           exists msg0, @Raise unit msg = Raise msg0
                                        /\ contains "already finalized" msg0 = false
                                        /\ m0 = "Auto-finalize error: " ++ msg0) as K.
        { intros m0 [[= <-]|I]; [now exists msg|].
          now elim (no_errors_not_in _ m0 E3). }
        split; [exact K | exact (Dead _ K)].
Qed.

(** ** Operator controls and fund management *)

Lemma send_tx_keeps_running env f w :
  running (snd (_send_tx env f w)) = running w.
Proof.
  unfold _send_tx, send_tx_run, send_tx_step, stage.
  unfold get_transaction_count, build_transaction, send_raw_transaction,
    settle, wait_for_transaction_receipt, bind, ext, emit, ret, raise,
    get_world, set_pending.
  cbn.
  destruct (fault env (calls w)); cbn; [reflexivity|].
  destruct (fault env (S (calls w))); cbn; [reflexivity|].
  destruct (fault env (S (S (calls w)))); cbn; [reflexivity|].
  destruct (fault env (S (S (S (calls w))))); cbn; [reflexivity|].
  rewrite Z.eqb_refl. cbn.
  destruct (fault env (S (S (S (S (calls w)))))); cbn; [reflexivity|].
  destruct (_ =? 1)%Z; reflexivity.
Qed.

(** X13.  [toggle_greedy] answers with the new mode, and the new mode is
    what later task runs go by: a run started after switching from passive
    to greedy either ends with its failure line or schedules the finalize
    watcher for its task; a run started after switching from greedy to
    passive schedules nothing. *)
Theorem toggle_greedy_governs_later_runs env task_id cid w :
  fst (toggle_greedy w) = Ok (negb (greedy_mode w))
  /\ exists d,
      history (snd (_process_task env task_id cid (snd (toggle_greedy w))))
      = (d ++ history (snd (toggle_greedy w)))%list
      /\ (greedy_mode w = true -> filter is_spawn d = [])
      /\ (greedy_mode w = false ->
          (exists msg,
              hd_error d
              = Some (EvLog ("Task " ++ str_of_Z task_id ++ " failed: " ++ msg) ERROR))
          \/ filter is_spawn d = [EvSpawn (spawn_auto_finalize task_id)]).
Proof.
  split; [reflexivity|].
  set (w1 := snd (toggle_greedy w)).
  assert (greedy_mode w1 = negb (greedy_mode w)) as G by reflexivity.
  destruct (process_task_detail env task_id cid w1)
    as [_ [(msg & rest & H & S)|(rtx & rh & salt & rest & H & C & S)]].
  - exists (EvLog ("Task " ++ str_of_Z task_id ++ " failed: " ++ msg)%string ERROR
            :: rest)%list.
    split; [exact H|]. cbn. rewrite S. split; [reflexivity|].
    intros _. left. now exists msg.
  - rewrite G in H.
    match type of H with
    | _ = (?p ++ ?x :: ?y :: ?z :: rest ++ _)%list =>
        exists (p ++ x :: y :: z :: rest)%list
    end.
    split; [rewrite H; list_eq|].
    destruct (greedy_mode w); cbn [negb List.app]; cbn; rewrite S.
    + split; [reflexivity | discriminate].
    + split; [discriminate|]. intros _. now right.
Qed.

(** X14.  [exit_network] never raises, and it stops the node exactly when
    the exit transaction settled: either the receipt came back with status
    1, the running flag is then false and the polling loop ends at its next
    check without another poll; or the failure is reported in an
    ["Exit failed: ..."] line at ERROR level and the running flag is left
    as it was. *)
Theorem exit_network_stops_after_settlement env w :
  fst (exit_network env w) = Ok tt
  /\ ((exists tx m1 m2,
          tx_call tx = exitNetwork
          /\ history (snd (exit_network env w))
             = EvLog "Stopping node engine..." WARN
               :: EvLog m2 INFO
               :: EvReceipt (tx_hash_of env tx) 1 :: EvBroadcast tx
               :: EvLog m1 WARN :: history w
          /\ running (snd (exit_network env w)) = false
          /\ forall fuel,
              poll env fuel (snd (exit_network env w))
              = (Ok tt, snd (exit_network env w)))
      \/ (exists msg d,
             history (snd (exit_network env w))
             = (EvLog ("Exit failed: " ++ msg) ERROR :: d ++ history w)%list
             /\ (forall tx, ~ In (EvReceipt (tx_hash_of env tx) 1) d)
             /\ running (snd (exit_network env w)) = running w)).
Proof.
  unfold exit_network, stop, try_except, bind, log, emit, set_running.
  cbn [fst snd].
  set (w1 := mkWorld _ _ _ _ _).
  pose proof (send_tx_keeps_running env exitNetwork w1) as Run.
  destruct (send_tx_outcome env exitNetwork w1) as (d & O & H & _).
  destruct (_send_tx env exitNetwork w1) as [[rc|e|] w2];
    cbn [fst snd history running] in *; cbv beta iota.
  - inversion O; subst. cbn [fst snd history running].
    split; [reflexivity|]. left. do 3 eexists.
    split; [eassumption|]. rewrite H. cbn [List.app history w1].
    split; [reflexivity|]. split; [reflexivity|].
    intros [|fuel]; reflexivity.
  - split; [reflexivity|]. right.
    exists e, (d ++ [EvLog "🚨 EXITING NETWORK & WITHDRAWING ALL STAKE..." WARN])%list.
    rewrite H. cbn [history w1]. split; [list_eq|]. split; [|exact Run].
    inversion O; subst; intros t I; cbn in I;
      repeat (destruct I as [I|I]; try discriminate; try contradiction).
    injection I as _ I. contradiction.
  - inversion O.
Qed.

(** X15.  [decrease_stake] keeps ledger errors to itself.  When the amount
    converts to wei, it returns normally whatever the ledger does, hands
    over at most the one stake-decrease call for that amount, and ends
    either with the settled receipt (status 1) and its INFO line or with a
    ["Decrease failed (Check min stake?): ..."] line at ERROR level.  When
    the conversion raises, that exception leaves the function before
    anything is logged or sent. *)
Theorem decrease_stake_contains_ledger_errors env amount_text to_wei w :
  match to_wei with
  | Ok amount_wei =>
      fst (decrease_stake env amount_text to_wei w) = Ok tt
      /\ exists d,
          history (snd (decrease_stake env amount_text to_wei w))
          = (d ++ history w)%list
          /\ (broadcast_calls d = [] \/ broadcast_calls d = [decreaseStake amount_wei])
          /\ ((exists tx m older,
                  d = EvLog m INFO :: EvReceipt (tx_hash_of env tx) 1
                            :: EvBroadcast tx :: older)
              \/ (exists msg older,
                     d = EvLog ("Decrease failed (Check min stake?): " ++ msg) ERROR
                               :: older))
  | Raise msg => decrease_stake env amount_text to_wei w = (Raise msg, w)
  | Running => decrease_stake env amount_text to_wei w = (Running, w)
  end.
Proof.
  destruct to_wei as [amount_wei|msg|]; [|reflexivity|reflexivity].
  unfold decrease_stake, of_result, try_except, bind, log, emit.
  cbn [fst snd]. next_send.
  - split; [reflexivity|]. give_delta w. read_calls.
    split; [now right|]. left. now do 3 eexists.
  - split; [reflexivity|]. give_delta w. read_calls.
    split; [now left|]. right. now do 2 eexists.
  - split; [reflexivity|]. give_delta w. read_calls.
    split; [now right|]. right. now do 2 eexists.
  - split; [reflexivity|]. give_delta w. read_calls.
    split; [now right|]. right. now do 2 eexists.
Qed.

(** X16.  [increase_stake], when the amount converts to wei: what it hands
    to the ledger, in order, is a selection from the approval for that
    amount and the stake increase for that amount; the approval is sent
    only when the allowance read is below the amount; the stake increase is
    sent only when no approval was needed or the approval's receipt came
    back with status 1; and the function returns normally only when the
    stake increase came back with status 1.  Unlike the other fund
    operations it lets ledger errors out to its caller. *)
Theorem increase_stake_approves_first env amount_text amount_wei allowance w :
  let a := approve (contract_addr env) amount_wei in
  let i := increaseStake amount_wei in
  let run := increase_stake env amount_text (Ok amount_wei) allowance w in
  fst run <> Running
  /\ exists d,
      history (snd run) = (d ++ history w)%list
      /\ In (broadcast_calls (rev d)) [[]; [a]; [i]; [a; i]]
      /\ (In a (broadcast_calls d) -> (allowance (calls w) < amount_wei)%Z)
      /\ (In i (broadcast_calls d) ->
          (amount_wei <= allowance (calls w))%Z
          \/ exists atx, tx_call atx = a
                         /\ In (EvBroadcast atx) d
                         /\ In (EvReceipt (tx_hash_of env atx) 1) d)
      /\ (fst run = Ok tt ->
          exists itx m older,
            tx_call itx = i
            /\ d = EvLog m INFO :: EvReceipt (tx_hash_of env itx) 1
                         :: EvBroadcast itx :: older).
Proof.
  intros a i run. subst a i run.
  unfold increase_stake, of_result, try_except, bind, ext, log, emit, ret.
  cbn [fst snd calls].
  destruct (fault env (calls w)) as [m0|]; cbv beta iota.
  { split; [discriminate|]. give_delta w. read_calls.
    split; [pick|]. split; [intros []|]. split; [intros [] | discriminate]. }
  destruct (allowance (calls w) <? amount_wei)%Z eqn:A; cbv beta iota.
  - apply Z.ltb_lt in A. next_send.
    2-4: (split; [discriminate|]); give_delta w; read_calls;
      (split; [pick|]); (split; [intros _; exact A|]);
      (split; [|discriminate]);
      intro E; repeat destruct E as [E|E]; discriminate || contradiction.
    next_send;
      (split; [discriminate|]); give_delta w; read_calls;
      (split; [pick|]); (split; [intros _; exact A|]);
      (split; [intros _; right;
               match goal with
               | H : tx_call ?t = approve _ _ |- _ =>
                   exists t; split; [exact H|]; cbn; tauto
               end|]);
      first [discriminate
            | intros _;
              match goal with
              | H : tx_call ?t = increaseStake _ |- _ =>
                  exists t; do 2 eexists; split; [exact H | reflexivity]
              end].
  - apply Z.ltb_ge in A. next_send;
      (split; [discriminate|]); give_delta w; read_calls;
      (split; [pick|]);
      (split; [intro E; repeat destruct E as [E|E]; discriminate || contradiction|]);
      (split; [intros _; now left|]);
      first [discriminate
            | intros _;
              match goal with
              | H : tx_call ?t = increaseStake _ |- _ =>
                  exists t; do 2 eexists; split; [exact H | reflexivity]
              end].
Qed.

(** ** Across components *)

Lemma only_dispatch env new_entries : only quiet (dispatch env new_entries).
Proof.
  induction new_entries as [|ev rest IH]; cbn [dispatch].
  - apply only_ret.
  - unfold log. apply only_bind; [apply only_emit; reflexivity|intros _].
    apply only_bind; [apply only_emit; reflexivity|intros _]. exact IH.
Qed.

Lemma only_poll env fuel : only quiet (poll env fuel).
Proof.
  induction fuel as [|fuel IH]; intro w; cbn [poll].
  - exists []. destruct (running w); now repeat split.
  - destruct (running w); [|exists []; now repeat split].
    refine (only_bind quiet _ (fun _ => poll env fuel) _ (fun _ => IH) w).
    apply only_try_except.
    + apply only_bind; [apply only_ext|intro entries].
      apply only_bind; [apply only_dispatch|intros _].
      apply only_emit. reflexivity.
    + intro e. unfold log, sleep. repeat only_step.
Qed.

(** X17.  The event loop itself writes nothing to the ledger: however long
    it runs and whatever it is answered, [_event_loop] hands over no
    transaction; it only polls, logs, pauses and schedules task runs. *)
Theorem event_loop_sends_no_transaction env fuel w :
  exists d,
    history (snd (_event_loop env fuel w)) = (d ++ history w)%list
    /\ filter is_broadcast d = []
    /\ broadcast_calls d = [].
Proof.
  assert (only quiet (_event_loop env fuel)) as O.
  { unfold _event_loop. apply only_bind; [apply only_ext|intros _].
    apply only_poll. }
  destruct (O w) as (d & Hd & Qd & _). exists d.
  split; [exact Hd|]. split; [now apply quiet_no_broadcasts | now apply quiet_no_calls].
Qed.

Ltac tidy :=
  cbv beta iota;
  cbn [fst snd calls pending history running greedy_mode Nat.add].

Lemma solidity_keccak_length h salt c :
  solidity_keccak h salt = Some c -> List.length c = 32%nat.
Proof.
  unfold solidity_keccak.
  destruct (hex_encode_bytes32 h); [|discriminate].
  destruct (hex_encode_bytes32 (HexBytes salt)); [|discriminate].
  destruct (to_bytes_hexstr _); [|discriminate].
  intros [= <-]. apply keccak256_length.
Qed.

(** X18.  From verifier output to the ledger.  When the artifact is fetched,
    the ledger and the runtime answer every request and the salt drawn is
    32 bytes, what the task run hands over is decided by the task id, the
    classification of the verifier's standard output and the salt: the
    commit is handed over exactly when the ledger's digest of the pair can
    be formed and the id is a [uint256], and it carries that digest; the
    reveal of this very pair follows exactly when, in addition, the commit's
    receipt has status 1 and the classified result is a [bytes32].  A
    classified result that is a [bytes32] always has a digest; the converse
    fails (a token starting with ["0X"] has a digest and is no [bytes32]),
    and then the commit is handed over and the reveal is not. *)
Theorem task_commits_the_classified_output env task_id cid w file_path :
  (forall k, fault env k = None) ->
  (forall k, List.length (urandom env k) = 32%nat) ->
  fst (_download_ipfs env task_id cid w) = Ok file_path ->
  let w1 := snd (_download_ipfs env task_id cid w) in
  let result_hash := snd (classify (fst (communicate env (S (calls w1))))) in
  let salt := urandom env (2 + calls w1) in
  let run := _process_task env task_id cid w in
  (is_bytes32 result_hash = true -> solidity_keccak result_hash salt <> None)
  /\ match solidity_keccak result_hash salt with
     | Some commitment =>
         let ctx := mkTx (commitResult task_id commitment) (address env)
                         (pending w1) (gas_price env (4 + calls w1)) 2000000 in
         let rtx := mkTx (revealResult task_id result_hash salt) (address env)
                         (pending w1 + 1) (gas_price env (9 + calls w1)) 2000000 in
         filter is_broadcast (history (snd run))
         = ((if is_uint256 task_id then
               (if (receipt_status env (7 + calls w1) (tx_hash_of env ctx) =? 1)%Z
                   && is_bytes32 result_hash
                then [EvBroadcast rtx] else [])
               ++ [EvBroadcast ctx]
             else [])
            ++ filter is_broadcast (history w1))%list
     | None =>
         filter is_broadcast (history (snd run)) = filter is_broadcast (history w1)
     end.
Proof.
  intros NF Len D w1 result_hash salt run.
  split.
  { intro B. destruct (solidity_keccak_bytes32 result_hash salt B) as (p & _ & _ & E).
    rewrite E. discriminate. }
  subst run result_hash salt.
  cbn [Nat.add].
  unfold _process_task, try_except, _run_docker, contract_function, bind, ext,
    log, sleep, emit, get_world, ret, raise.
  cbv beta. subst w1.
  destruct (_download_ipfs env task_id cid w) as [r w0].
  cbn [fst snd] in *. subst r.
  tidy. rewrite !NF. tidy.
  set (output := fst (communicate env (S (calls w0)))).
  destruct (classify output) as [entry result_hash]. cbn [snd].
  assert (forall c, solidity_keccak result_hash (urandom env (S (S (calls w0)))) = Some c ->
                    fits_abi (commitResult task_id c) = is_uint256 task_id) as Fc.
  { intros c K. cbn [fits_abi is_bytes32].
    rewrite (solidity_keccak_length _ _ _ K). cbn [Nat.eqb]. apply andb_true_r. }
  assert (fits_abi (revealResult task_id result_hash (urandom env (S (S (calls w0)))))
          = is_uint256 task_id && is_bytes32 result_hash) as Fr.
  { cbn [fits_abi is_bytes32]. rewrite Len. cbn [Nat.eqb]. apply andb_true_r. }
  destruct entry as [[msg lvl]|]; tidy; rewrite ?NF; tidy;
    (destruct (solidity_keccak result_hash (urandom env (S (S (calls w0)))))
       as [c|] eqn:K; tidy;
     [|cbn [filter is_broadcast]; reflexivity]);
    rewrite (Fc c eq_refl), Fr;
    (destruct (is_uint256 task_id); tidy;
     [|cbn [filter is_broadcast List.app]; reflexivity]);
    rewrite (send_tx_answered env _ _ NF); tidy;
    (destruct (receipt_status env _ _ =? 1)%Z; tidy;
     [|cbn [filter is_broadcast List.app andb]; reflexivity]);
    cbn [andb];
    (destruct (is_bytes32 result_hash); tidy;
     [|cbn [filter is_broadcast List.app]; reflexivity]);
    rewrite (send_tx_answered env _ _ NF); tidy;
    destruct (receipt_status env _ _ =? 1)%Z; tidy;
    try destruct (greedy_mode w0); tidy;
    cbn [filter is_broadcast List.app]; reflexivity.
Qed.

Lemma task_commits_the_classified_output_witness :
  (forall k, fault calm k = None)
  /\ (forall k, List.length (urandom calm k) = 32%nat)
  /\ fst (_download_ipfs calm 7 "QmAbc" genesis) = Ok "/srv/node/Task_7.lean"
  /\ (exists commitment,
         solidity_keccak (HexBytes (Web3_keccak_text "abc123")) (repeat x2a 32)
         = Some commitment
         /\ filter is_broadcast (history (snd (_process_task calm 7 "QmAbc" genesis)))
            = [EvBroadcast (mkTx (revealResult 7 (HexBytes (Web3_keccak_text "abc123"))
                                               (repeat x2a 32))
                                 "0xA11CE" 1 7 2000000);
               EvBroadcast (mkTx (commitResult 7 commitment) "0xA11CE" 0 7 2000000)])
  /\ (exists commitment,
         solidity_keccak (PyStr ("0x" ++ capital_prefix_token)) (repeat x2a 32)
         = Some commitment
         /\ is_bytes32 (PyStr ("0x" ++ capital_prefix_token)) = false
         /\ filter is_broadcast
              (history (snd (_process_task capital_prefix 7 "QmAbc" genesis)))
            = [EvBroadcast (mkTx (commitResult 7 commitment) "0xA11CE" 0 7 2000000)])
  /\ filter is_broadcast
       (history (snd (_process_task calm (2 ^ 256) "QmAbc" genesis))) = [].
Proof.
  split; [intro k; reflexivity|]. split; [intro k; reflexivity|].
  split; [vm_compute; reflexivity|].
  split; [|split].
  - destruct (task_commits_the_classified_output
                calm 7 "QmAbc" genesis "/srv/node/Task_7.lean"
                (fun k => eq_refl) (fun k => eq_refl)
                ltac:(vm_compute; reflexivity)) as [_ T].
    cbv zeta in T. revert T.
    destruct (solidity_keccak _ _) as [c|] eqn:K; intro T.
    + exists c. split.
      * rewrite <- K. vm_compute. reflexivity.
      * rewrite T. revert K. vm_compute. intros [= <-]. reflexivity.
    + exfalso. revert K. vm_compute. discriminate.
  - destruct (task_commits_the_classified_output
                capital_prefix 7 "QmAbc" genesis "/srv/node/Task_7.lean"
                (fun k => eq_refl) (fun k => eq_refl)
                ltac:(vm_compute; reflexivity)) as [_ T].
    cbv zeta in T. revert T.
    destruct (solidity_keccak _ _) as [c|] eqn:K; intro T.
    + exists c. split; [|split].
      * rewrite <- K. vm_compute. reflexivity.
      * vm_compute. reflexivity.
      * rewrite T. revert K. vm_compute. intros [= <-]. reflexivity.
    + exfalso. revert K. vm_compute. discriminate.
  - destruct (task_commits_the_classified_output
                calm (2 ^ 256) "QmAbc" genesis "/srv/node/Task_115792089237316195423570985008687907853269984665640564039457584007913129639936.lean"
                (fun k => eq_refl) (fun k => eq_refl)
                ltac:(vm_compute; reflexivity)) as [_ T].
    cbv zeta in T. revert T.
    destruct (solidity_keccak _ _) as [c|] eqn:K; intro T; rewrite T;
      vm_compute; reflexivity.
Defined.

(** ** More on the artifact fetcher *)

Lemma http_urls_app l1 l2 : http_urls (l1 ++ l2) = (http_urls l1 ++ http_urls l2)%list.
Proof.
  induction l1 as [|e l1 IH]; [reflexivity|].
  destruct e; cbn; now rewrite ?IH.
Qed.

Lemma try_gateways_requests env path_obj urls w :
  exists d n,
    history (snd (try_gateways env path_obj urls w)) = (d ++ history w)%list
    /\ http_urls (rev d) = firstn n urls
    /\ (n <= List.length urls)%nat
    /\ calls (snd (try_gateways env path_obj urls w)) = (calls w + n)%nat
    /\ (forall i url, (S i < n)%nat -> nth_error urls i = Some url ->
                      attempt_ok env (calls w + i) url = false)
    /\ (forall p, fst (try_gateways env path_obj urls w) = Ok (Some p) ->
                  exists i url, n = S i /\ nth_error urls i = Some url
                                /\ attempt_ok env (calls w + i) url = true)
    /\ (fst (try_gateways env path_obj urls w) = Ok None ->
        n = List.length urls
        /\ forall i url, nth_error urls i = Some url ->
                         attempt_ok env (calls w + i) url = false).
Proof.
  revert w. induction urls as [|url rest IH]; intro w.
  - exists [], 0%nat. cbn. rewrite Nat.add_0_r.
    split; [reflexivity|]. split; [reflexivity|]. split; [lia|].
    split; [reflexivity|]. split; [intros i u L; lia|].
    split; [discriminate|]. intros _. split; [reflexivity|].
    intros [|i] u E; discriminate.
  - destruct (attempt_ok env (calls w) url) eqn:A.
    + rewrite (try_gateways_step_ok _ _ _ _ _ A). cbn [fst snd history calls].
      eexists [_; _; _; _], 1%nat. cbn [rev List.app http_urls firstn List.length].
      split; [reflexivity|]. split; [reflexivity|]. split; [lia|].
      split; [lia|]. split; [intros i u L; lia|].
      split; [|discriminate].
      intros p _. exists 0%nat, url. rewrite Nat.add_0_r. now repeat split.
    + rewrite (try_gateways_step_fail _ _ _ _ _ A).
      set (w1 := mkWorld _ _ _ _ _).
      destruct (IH w1) as (d & n & Hd & Hu & Hn & Hc & Hbefore & Hok & Hnone).
      eexists (d ++ [_; _])%list, (S n).
      split; [rewrite Hd; cbn [history w1]; now rewrite <- app_assoc|].
      rewrite rev_app_distr, http_urls_app, Hu. cbn [rev List.app http_urls firstn].
      split; [reflexivity|]. split; [cbn [List.length]; lia|].
      split; [rewrite Hc; cbn [calls w1]; lia|].
      split; [|split].
      * intros [|i] u L E.
        -- cbn in E. injection E as <-. now rewrite Nat.add_0_r.
        -- replace (calls w + S i)%nat with (calls w1 + i)%nat by (cbn; lia).
           apply Hbefore; [lia | exact E].
      * intros p R. destruct (Hok p R) as (i & u & -> & E & O).
        exists (S i), u. split; [reflexivity|]. split; [exact E|].
        replace (calls w + S i)%nat with (calls w1 + i)%nat by (cbn; lia).
        exact O.
      * intro R. destruct (Hnone R) as [-> Hall]. split; [reflexivity|].
        intros [|i] u E.
        -- cbn in E. injection E as <-. now rewrite Nat.add_0_r.
        -- replace (calls w + S i)%nat with (calls w1 + i)%nat by (cbn; lia).
           now apply Hall.
Qed.

(** X19.  The fetch asks the gateways in the order of the candidate list,
    each at most once, and asks nobody after a success.  The requests made
    are the first [n] candidates, one call each; every request but the last
    went without success; when the fetch returns (for a pointer without the
    simulated prefix) the last request is the one that succeeded; when it
    raises, all candidates were asked and none succeeded.  For a pointer
    with the simulated prefix no request is made at all. *)
Theorem fetch_requests_are_a_prefix env task_id cid w :
  exists d n,
    history (snd (_download_ipfs env task_id cid w)) = (d ++ history w)%list
    /\ http_urls (rev d) = firstn n (gateways env cid)
    /\ (n <= List.length (gateways env cid))%nat
    /\ calls (snd (_download_ipfs env task_id cid w)) = (calls w + n)%nat
    /\ (startswith "QmSimulated" cid = true -> n = 0%nat)
    /\ (forall i url, (S i < n)%nat -> nth_error (gateways env cid) i = Some url ->
                      attempt_ok env (calls w + i) url = false)
    /\ (startswith "QmSimulated" cid = false ->
        forall p, fst (_download_ipfs env task_id cid w) = Ok p ->
                  exists i url, n = S i
                                /\ nth_error (gateways env cid) i = Some url
                                /\ attempt_ok env (calls w + i) url = true)
    /\ (forall msg, fst (_download_ipfs env task_id cid w) = Raise msg ->
                    n = List.length (gateways env cid)
                    /\ http_urls (rev d) = gateways env cid
                    /\ forall i url, nth_error (gateways env cid) i = Some url ->
                                     attempt_ok env (calls w + i) url = false)
    /\ fst (_download_ipfs env task_id cid w) <> Running.
Proof.
  destruct (startswith "QmSimulated" cid) eqn:S.
  - unfold _download_ipfs. rewrite S.
    unfold bind, log, write_file, emit, ret. cbn [fst snd history calls].
    eexists [_; _], 0%nat. cbn [rev List.app http_urls firstn].
    rewrite Nat.add_0_r.
    split; [reflexivity|]. split; [reflexivity|]. split; [lia|].
    split; [reflexivity|]. split; [reflexivity|].
    split; [intros i u L; lia|]. split; [discriminate|].
    split; discriminate.
  - rewrite (download_unfold _ _ _ _ S).
    destruct (try_gateways_requests
                env (cwd env ++ "/" ++ "Task_" ++ str_of_Z task_id ++ ".lean")
                (gateways env cid) w)
      as (d & n & Hd & Hu & Hn & Hc & Hbefore & Hok & Hnone).
    assert (forall m, fst (try_gateways
                             env (cwd env ++ "/" ++ "Task_" ++ str_of_Z task_id ++ ".lean")
                             (gateways env cid) w) <> Raise m
                      /\ fst (try_gateways
                             env (cwd env ++ "/" ++ "Task_" ++ str_of_Z task_id ++ ".lean")
                             (gateways env cid) w) <> Running) as NoRaise.
    { intro m.
      destruct (try_gateways_cases
                  env (cwd env ++ "/" ++ "Task_" ++ str_of_Z task_id ++ ".lean")
                  (gateways env cid) w)
        as [(_ & _ & _ & _ & _ & R & _)|(_ & R & _)]; rewrite R;
        split; discriminate. }
    destruct (try_gateways env _ (gateways env cid) w) as [[[p|]|msg|] w'];
      cbn [fst snd] in *; exists d, n;
      (split; [exact Hd|]); (split; [exact Hu|]); (split; [exact Hn|]);
      (split; [exact Hc|]); (split; [discriminate|]);
      (split; [exact Hbefore|]).
    + split; [intros _ q _; exact (Hok p eq_refl)|].
      split; discriminate.
    + destruct (Hnone eq_refl) as [-> Hall].
      split; [intros _ q; discriminate|]. split; [|discriminate].
      intros msg _. split; [reflexivity|]. split; [|exact Hall].
      rewrite Hu. apply firstn_all.
    + now elim (proj1 (NoRaise msg)).
    + now elim (proj2 (NoRaise EmptyString)).
Qed.
